(** * The data entry bot (src/data_entry_bot.py), embedded and verified

    The script fetches records over HTTP and replays them into a text editor
    through two GUI automation libraries.  Everything it does to the outside
    is a call into a library: [requests], BotCity's [DesktopBot], [pyautogui],
    [time.sleep] and [pathlib].  The embedding keeps the script's own control
    flow (the [try]/[except] chains, the fallbacks, the loop and its counters)
    and leaves those calls to an [environment] that answers each of them with
    a value or with an exception.  A run yields its result together with the
    chronological list of calls made and log records written. *)

From Stdlib Require Import Ascii ZArith Lia.
From stdpp Require Import base gmap strings list pretty.

Local Open Scope string_scope.
Local Open Scope Z_scope.

(** ** Python values met in a record

    The fields of a decoded JSON record are taken at the JSON scalars; the
    endpoint's records hold integers and strings only. *)

Inductive value :=
| VNone
| VBool (b : bool)
| VInt (n : Z)
| VStr (s : string).

(** An element of the decoded array: an object (a [dict]) or something else. *)
Inductive element :=
| Obj (fields : gmap string value)
| NonObj (v : value).

(** [type(v).__name__], as it appears in the interpreter's error messages. *)
Definition type_name (v : value) : string :=
  match v with
  | VNone => "NoneType"
  | VBool _ => "bool"
  | VInt _ => "int"
  | VStr _ => "str"
  end.

(** [str(v)], which is what an f-string field [{v}] renders. *)
Definition py_str (v : value) : string :=
  match v with
  | VNone => "None"
  | VBool true => "True"
  | VBool false => "False"
  | VInt n => pretty n
  | VStr s => s
  end.

(** ** Strings

    Text is modelled over the ASCII range, where the endpoint's records
    live: one [ascii] per character.  The methods that look at the letters
    ([title()], [lower()]) or count characters (slicing) are Python's on
    such text only, which [is_ascii] recognises; a statement that depends on
    what they compute is made for ASCII text. *)

Fixpoint is_ascii (s : string) : bool :=
  match s with
  | EmptyString => true
  | String c rest => (N_of_ascii c <? 128)%N && is_ascii rest
  end.

Definition is_lower (c : ascii) : bool :=
  let n := N_of_ascii c in ((97 <=? n) && (n <=? 122))%N.

Definition is_upper (c : ascii) : bool :=
  let n := N_of_ascii c in ((65 <=? n) && (n <=? 90))%N.

Definition is_cased (c : ascii) : bool := is_lower c || is_upper c.

Definition to_upper (c : ascii) : ascii :=
  if is_lower c then ascii_of_N (N_of_ascii c - 32) else c.

Definition to_lower (c : ascii) : ascii :=
  if is_upper c then ascii_of_N (N_of_ascii c + 32) else c.

(** [str.title()] on ASCII text: a cased character is upper-cased when the
    previous character is not cased and lower-cased when it is. *)
Fixpoint title_from (previous_is_cased : bool) (s : string) : string :=
  match s with
  | EmptyString => EmptyString
  | String c rest =>
      String (if previous_is_cased then to_lower c else to_upper c)
             (title_from (is_cased c) rest)
  end.

Definition str_title (s : string) : string := title_from false s.

(** [s.lower()] on ASCII text. *)
Fixpoint str_lower (s : string) : string :=
  match s with
  | EmptyString => EmptyString
  | String c rest => String (to_lower c) (str_lower rest)
  end.

(** [c * n] for a one-character string [c]. *)
Fixpoint str_repeat (c : ascii) (n : nat) : string :=
  match n with
  | O => EmptyString
  | S k => String c (str_repeat c k)
  end.

(** The newline character of ["\n"]. *)
Definition nl : string := String "010"%char EmptyString.

(** ** Exceptions *)

Inductive exn_class :=
| KeyboardInterrupt
| SystemExit
| RequestsConnectionError
| RequestsConnectTimeout
| RequestsTimeout
| RequestsHTTPError
| RequestsJSONDecodeError
| RequestException
| JSONDecodeError
| AttributeError
| TypeError
| FailSafeException
| OSError
| PlainException.

Record exn := { exn_cls : exn_class; exn_text : string }.

(** [isinstance(e, Exception)]: everything but the two that derive from
    [BaseException] directly. *)
Definition is_Exception (e : exn) : bool :=
  match exn_cls e with
  | KeyboardInterrupt | SystemExit => false
  | _ => true
  end.

Definition is_KeyboardInterrupt (e : exn) : bool :=
  match exn_cls e with
  | KeyboardInterrupt => true
  | _ => false
  end.

(** [requests.ConnectionError]; [ConnectTimeout] derives from it and from
    [Timeout]. *)
Definition is_ConnectionError (e : exn) : bool :=
  match exn_cls e with
  | RequestsConnectionError | RequestsConnectTimeout => true
  | _ => false
  end.

Definition is_Timeout (e : exn) : bool :=
  match exn_cls e with
  | RequestsTimeout | RequestsConnectTimeout => true
  | _ => false
  end.

Definition is_RequestException (e : exn) : bool :=
  match exn_cls e with
  | RequestsConnectionError | RequestsConnectTimeout | RequestsTimeout
  | RequestsHTTPError | RequestsJSONDecodeError | RequestException => true
  | _ => false
  end.

(** [json.JSONDecodeError]; the one [requests] raises derives from it. *)
Definition is_JSONDecodeError (e : exn) : bool :=
  match exn_cls e with
  | JSONDecodeError | RequestsJSONDecodeError => true
  | _ => false
  end.

Inductive outcome (A : Type) :=
| Ok (a : A)
| Raise (e : exn).
Arguments Ok {A} a.
Arguments Raise {A} e.

(** ** Calls into the libraries

    Durations are in milliseconds: [time.sleep(1.5)] is [Sleep 1500],
    [typewrite(text, interval=0.02)] is [Typewrite text 20]. *)

Inductive op :=
| RequestsGet (url : string) (timeout_s : Z)
| RaiseForStatus
| ResponseJson
| BotExecute (path : string)
| BotWait (ms : Z)
| BotTypeText (text : string)
| Hotkey (key1 key2 : string)
| Typewrite (text : string) (interval_ms : Z)
| Press (key : string)
| Sleep (ms : Z)
| PathExists (path : string)
| StatSize (path : string)
| Glob (pattern : string).

(** What a call gives back when it returns.  The decoded body is taken as
    the array of the endpoint's contract; [BotExecute] gives the truth value
    of what [execute] returned; [Glob] gives the names of the matching files
    of the project directory. *)
Definition res (o : op) : Type :=
  match o with
  | ResponseJson => list element
  | BotExecute _ => bool
  | PathExists _ => bool
  | StatSize _ => Z
  | Glob _ => list string
  | _ => unit
  end.

(** The environment answers the [n]-th call of a run. *)
Definition environment := nat -> forall o : op, outcome (res o).

Inductive level := INFO | ERROR.

Inductive event :=
| Called (o : op) (r : outcome (res o))
| Logged (lvl : level) (msg : string).

(** ** The interpreter state and the monad of runs

    [clock] counts the calls made so far; the two counters are the locals
    [successful_posts] and [failed_posts] of [run_automation], which its loop
    updates inside a [try] and which therefore survive an exception. *)

Record state := {
  clock : nat;
  successful_posts : nat;
  failed_posts : nat
}.

Record run (A : Type) := {
  result : outcome A;
  emitted : list event;
  final : state
}.
Arguments result {A} r.
Arguments emitted {A} r.
Arguments final {A} r.

Definition M (A : Type) : Type := state -> run A.

Definition ret {A} (a : A) : M A :=
  fun st => {| result := Ok a; emitted := []; final := st |}.

Definition raise {A} (e : exn) : M A :=
  fun st => {| result := Raise e; emitted := []; final := st |}.

Definition bind {A B} (m : M A) (k : A -> M B) : M B :=
  fun st =>
    match m st with
    | {| result := Ok a; emitted := evs; final := st1 |} =>
        match k a st1 with
        | {| result := r; emitted := evs2; final := st2 |} =>
            {| result := r; emitted := evs ++ evs2; final := st2 |}
        end
    | {| result := Raise e; emitted := evs; final := st1 |} =>
        {| result := Raise e; emitted := evs; final := st1 |}
    end.

Declare Scope py_scope.
Delimit Scope py_scope with py.
Notation "x <- m ;; k" := (bind m (fun x => k))
  (at level 100, m at next level, right associativity) : py_scope.
Notation "m ;;; k" := (bind m (fun _ => k))
  (at level 100, right associativity) : py_scope.
Local Open Scope py_scope.

(** [try: m except ...]: [handler e] is the body of the first clause that
    matches [e], if one does. *)
Definition try_except {A} (m : M A) (handler : exn -> option (M A)) : M A :=
  fun st =>
    match m st with
    | {| result := Raise e; emitted := evs; final := st1 |} =>
        match handler e with
        | Some h =>
            match h st1 with
            | {| result := r; emitted := evs2; final := st2 |} =>
                {| result := r; emitted := evs ++ evs2; final := st2 |}
            end
        | None => {| result := Raise e; emitted := evs; final := st1 |}
        end
    | r => r
    end.

(** [except Exception as e: h e] *)
Definition except_Exception {A} (h : exn -> M A) : exn -> option (M A) :=
  fun e => if is_Exception e then Some (h e) else None.

(** A bare [except: h], which also catches [KeyboardInterrupt]. *)
Definition except_all {A} (h : M A) : exn -> option (M A) :=
  fun _ => Some h.

(** A pure, fallible computation inside a run. *)
Definition lift {A} (x : outcome A) : M A :=
  match x with
  | Ok a => ret a
  | Raise e => raise e
  end.

Definition log (lvl : level) (msg : string) : M unit :=
  fun st => {| result := Ok tt; emitted := [Logged lvl msg]; final := st |}.

Definition tick (st : state) : state :=
  {| clock := S (clock st);
     successful_posts := successful_posts st;
     failed_posts := failed_posts st |}.

Definition get_state : M state :=
  fun st => {| result := Ok st; emitted := []; final := st |}.

(** [successful_posts = 0; failed_posts = 0] *)
Definition reset_counters : M unit :=
  fun st =>
    {| result := Ok tt; emitted := [];
       final := {| clock := clock st; successful_posts := 0; failed_posts := 0 |} |}.

(** [successful_posts += 1] *)
Definition incr_successful : M unit :=
  fun st =>
    {| result := Ok tt; emitted := [];
       final := {| clock := clock st;
                   successful_posts := S (successful_posts st);
                   failed_posts := failed_posts st |} |}.

(** [failed_posts += 1] *)
Definition incr_failed : M unit :=
  fun st =>
    {| result := Ok tt; emitted := [];
       final := {| clock := clock st;
                   successful_posts := successful_posts st;
                   failed_posts := S (failed_posts st) |} |}.

(** ** Dictionary access and the string methods the script uses *)

(** [post.get(key, default)]; only a [dict] has the method. *)
Definition dict_get (post : element) (key : string) (default : value)
  : outcome value :=
  match post with
  | Obj fields =>
      match fields !! key with
      | Some v => Ok v
      | None => Ok default
      end
  | NonObj v =>
      Raise {| exn_cls := AttributeError;
               exn_text := "'" ++ type_name v ++ "' object has no attribute 'get'" |}
  end.

(** [v.title()]; only a [str] has the method. *)
Definition value_title (v : value) : outcome string :=
  match v with
  | VStr s => Ok (str_title s)
  | _ =>
      Raise {| exn_cls := AttributeError;
               exn_text := "'" ++ type_name v ++ "' object has no attribute 'title'" |}
  end.

(** [v[:n]]; among the scalars only a [str] can be sliced.  The cut is
    after [n] characters of ASCII text. *)
Definition value_slice_to (n : nat) (v : value) : outcome string :=
  match v with
  | VStr s => Ok (String.substring 0 n s)
  | _ =>
      Raise {| exn_cls := TypeError;
               exn_text := "'" ++ type_name v ++ "' object is not subscriptable" |}
  end.

(** The f-string of [format_blog_post], line by line. *)
Definition blog_template (post_id title user_id body : string) : string :=
  "BLOG POST #" ++ post_id ++ nl ++
  str_repeat "=" 60 ++ nl ++
  nl ++
  "TITLE: " ++ title ++ nl ++
  nl ++
  "AUTHOR: User #" ++ user_id ++ nl ++
  nl ++
  "BLOG CONTENT:" ++ nl ++
  body ++ nl ++
  nl ++
  str_repeat "=" 60 ++ nl ++
  "Source: JSONPlaceholder API - https://jsonplaceholder.typicode.com/posts/"
    ++ post_id ++ nl ++
  "Generated by Automated Data Entry Bot" ++ nl ++
  str_repeat "=" 60 ++ nl.

Definition format_blog_post (post : element) : outcome string :=
  match dict_get post "id" (VStr "Unknown") with
  | Raise e => Raise e
  | Ok post_id =>
  match dict_get post "title" (VStr "Untitled") with
  | Raise e => Raise e
  | Ok fetched_title =>
  match value_title fetched_title with
  | Raise e => Raise e
  | Ok title =>
  match dict_get post "body" (VStr "No content available") with
  | Raise e => Raise e
  | Ok body =>
  match dict_get post "userId" (VStr "Unknown") with
  | Raise e => Raise e
  | Ok user_id =>
      Ok (blog_template (py_str post_id) title (py_str user_id) (py_str body))
  end end end end end.

(** [f"post {post_id}.txt"] *)
Definition post_filename (post_id : value) : string :=
  "post " ++ py_str post_id ++ ".txt".

(** [sorted(paths)]: a stable sort; [key] is what [pathlib] compares. *)
Fixpoint insert_sorted (key : string -> string) (x : string) (l : list string)
  : list string :=
  match l with
  | [] => [x]
  | y :: l' =>
      if String.leb (key x) (key y) then x :: y :: l'
      else y :: insert_sorted key x l'
  end.

Definition sorted (key : string -> string) (l : list string) : list string :=
  foldr (insert_sorted key) [] l.

(** U+FE0F, left at the head of one log message of the source. *)
Definition vs16 : string :=
  String "239"%char (String "184"%char (String "143"%char EmptyString)).

(** ** The bot *)

(** What [__init__] fixes and the methods read from [self]:
    [project_dir] is [str(self.project_dir)], [project_path name] is
    [str(self.project_dir / name)], and [path_key] is the form under which
    [pathlib] orders two paths of that directory (case-folded on Windows). *)
Record bot := {
  project_dir : string;
  project_path : string -> string;
  path_key : string -> string
}.

Definition api_url : string := "https://jsonplaceholder.typicode.com/posts".

Inductive control := Next | Break.

Section Bot.

Variable self : bot.
Variable env : environment.

(** One call into a library: the environment's answer at the current clock
    is the call's outcome, and the call is recorded. *)
Definition call (o : op) : M (res o) :=
  fun st =>
    let r := env (clock st) o in
    {| result := r; emitted := [Called o r]; final := tick st |}.

Definition fetch_posts_data : M (list element) :=
  try_except
    (log INFO " Fetching posts from JSONPlaceholder API..." ;;;
     log INFO (" API URL: " ++ api_url) ;;;
     call (RequestsGet api_url 30) ;;;
     call RaiseForStatus ;;;
     posts <- call ResponseJson ;;
     log INFO (" Successfully fetched " ++ pretty (length posts) ++ " posts") ;;;
     let selected_posts := take 10 posts in
     log INFO " Selected first 10 posts for processing" ;;;
     ret selected_posts)
    (fun e =>
       if is_ConnectionError e then
         Some (log ERROR " Network connection error - check internet connection" ;;;
               raise e)
       else if is_Timeout e then
         Some (log ERROR " API request timeout" ;;; raise e)
       else if is_RequestException e then
         Some (log ERROR (" API request failed: " ++ exn_text e) ;;; raise e)
       else if is_JSONDecodeError e then
         Some (log ERROR (" Invalid JSON response: " ++ exn_text e) ;;; raise e)
       else None).

Definition launch_notepad_botcity : M bool :=
  try_except
    (log INFO " Launching Notepad using BotCity..." ;;;
     let notepad_path := "notepad.exe" in
     success <- call (BotExecute notepad_path) ;;
     if success : bool then
       call (BotWait 3000) ;;;
       log INFO " Notepad launched successfully via BotCity" ;;;
       ret true
     else
       log ERROR " BotCity failed to launch Notepad" ;;;
       ret false)
    (except_Exception (fun e =>
       log ERROR (" BotCity launch failed: " ++ exn_text e) ;;;
       ret false)).

Definition launch_notepad_pyautogui : M bool :=
  try_except
    (log INFO " Launching Notepad using PyAutoGUI fallback..." ;;;
     call (Hotkey "win" "r") ;;;
     call (Sleep 1000) ;;;
     call (Typewrite "notepad" 100) ;;;
     call (Press "enter") ;;;
     call (Sleep 2000) ;;;
     call (Hotkey "win" "up") ;;;
     call (Sleep 1000) ;;;
     log INFO " Notepad launched successfully via PyAutoGUI" ;;;
     ret true)
    (except_Exception (fun e =>
       log ERROR (" PyAutoGUI launch failed: " ++ exn_text e) ;;;
       ret false)).

Definition launch_notepad : M bool :=
  try_except
    (launched <- launch_notepad_botcity ;;
     if launched : bool then ret true
     else
       log INFO " Trying PyAutoGUI fallback..." ;;;
       launch_notepad_pyautogui)
    (except_Exception (fun e =>
       log ERROR (" All launch methods failed: " ++ exn_text e) ;;;
       ret false)).

Definition type_text_botcity (text : string) : M bool :=
  try_except
    (call (BotTypeText text) ;;;
     log INFO " Text typed using BotCity" ;;;
     ret true)
    (except_Exception (fun e =>
       log ERROR (" BotCity typing failed: " ++ exn_text e) ;;;
       ret false)).

Definition type_text_pyautogui (text : string) : M bool :=
  try_except
    (call (Hotkey "ctrl" "a") ;;;
     call (Sleep 200) ;;;
     call (Press "delete") ;;;
     call (Sleep 200) ;;;
     call (Typewrite text 10) ;;;
     log INFO " Text typed using PyAutoGUI" ;;;
     ret true)
    (except_Exception (fun e =>
       log ERROR (" PyAutoGUI typing failed: " ++ exn_text e) ;;;
       ret false)).

Definition type_text_hybrid (text : string) : M bool :=
  try_except
    (typed <- type_text_botcity text ;;
     if typed : bool then ret true
     else
       log INFO " Using PyAutoGUI for typing..." ;;;
       type_text_pyautogui text)
    (except_Exception (fun e =>
       log ERROR (" All typing methods failed: " ++ exn_text e) ;;;
       ret false)).

Definition save_document (filename : string) : M bool :=
  try_except
    (log INFO (" Saving document as: " ++ filename) ;;;
     call (Hotkey "ctrl" "s") ;;;
     call (Sleep 1500) ;;;
     let file_path := project_path self filename in
     call (Typewrite file_path 20) ;;;
     call (Sleep 500) ;;;
     call (Press "enter") ;;;
     call (Sleep 1000) ;;;
     try_except
       (call (Press "enter") ;;;
        call (Sleep 500))
       (except_all (ret tt)) ;;;
     present <- call (PathExists (project_path self filename)) ;;
     if present : bool then
       file_size <- call (StatSize (project_path self filename)) ;;
       log INFO (" File saved successfully: " ++ filename
                 ++ " (" ++ pretty (file_size : Z) ++ " bytes)") ;;;
       ret true
     else
       log ERROR (" File not found after save: " ++ filename) ;;;
       ret false)
    (except_Exception (fun e =>
       log ERROR (" Save failed for " ++ filename ++ ": " ++ exn_text e) ;;;
       ret false)).

Definition create_new_document : M unit :=
  try_except
    (call (Hotkey "ctrl" "n") ;;;
     call (Sleep 500) ;;;
     try_except
       (call (Press "n") ;;;
        call (Sleep 500))
       (except_all (ret tt)))
    (except_Exception (fun e =>
       log ERROR (" Failed to create new document: " ++ exn_text e))).

Definition close_notepad : M unit :=
  try_except
    (call (Hotkey "alt" "f4") ;;;
     call (Sleep 500) ;;;
     try_except
       (call (Press "n") ;;;
        call (Sleep 500))
       (except_all (ret tt)))
    (except_Exception (fun e =>
       log ERROR (" Error closing Notepad: " ++ exn_text e))).

Definition process_single_post (post : element) (post_number : nat) : M bool :=
  try_except
    (post_id <- lift (dict_get post "id" (VInt (Z.of_nat post_number))) ;;
     let filename := post_filename post_id in
     log INFO (" Processing Post #" ++ pretty post_number
               ++ ": ID " ++ py_str post_id) ;;;
     fetched_title <- lift (dict_get post "title" (VStr "No title")) ;;
     preview <- lift (value_slice_to 50 fetched_title) ;;
     log INFO (" Title: " ++ preview ++ "...") ;;;
     formatted_post <- lift (format_blog_post post) ;;
     typed <- type_text_hybrid formatted_post ;;
     if negb typed then
       log ERROR (" Failed to type content for post " ++ py_str post_id) ;;;
       ret false
     else
       saved <- save_document filename ;;
       if negb saved then
         log ERROR (" Failed to save post " ++ py_str post_id) ;;;
         ret false
       else
         (if (post_number <? 10)%nat then create_new_document else ret tt) ;;;
         log INFO (" Post " ++ py_str post_id ++ " completed successfully") ;;;
         ret true)
    (except_Exception (fun e =>
       post_id <- lift (dict_get post "id" (VInt (Z.of_nat post_number))) ;;
       log ERROR (" Failed to process post " ++ py_str post_id
                  ++ ": " ++ exn_text e) ;;;
       ret false)).

(** The body of the [for] loop of [run_automation] for one item; [Break] is
    the [break] of its [except KeyboardInterrupt] clause. *)
Definition process_item (post : element) (i : nat) : M control :=
  log INFO (nl ++ "--- Processing " ++ pretty i ++ "/10 ---") ;;;
  try_except
    (processed <- process_single_post post i ;;
     (if processed : bool then incr_successful else incr_failed) ;;;
     call (Sleep 1000) ;;;
     ret Next)
    (fun e =>
       if is_KeyboardInterrupt e then
         Some (log INFO " User interrupted automation" ;;;
               ret Break)
       else if is_Exception e then
         Some (incr_failed ;;;
               log ERROR (" Post " ++ pretty i ++ " failed: " ++ exn_text e) ;;;
               try_except create_new_document (except_all (ret tt)) ;;;
               ret Next)
       else None).

(** [for i, post in enumerate(self.posts_data, 1)], from position [i] on. *)
Fixpoint process_posts (posts : list element) (i : nat) : M unit :=
  match posts with
  | [] => ret tt
  | post :: rest =>
      ctl <- process_item post i ;;
      match ctl with
      | Break => ret tt
      | Next => process_posts rest (S i)
      end
  end.

(** [for file in sorted(created_files)] of the final report. *)
Fixpoint list_created_files (files : list string) : M unit :=
  match files with
  | [] => ret tt
  | file :: rest =>
      size <- call (StatSize (project_path self file)) ;;
      log INFO ("    " ++ file ++ " (" ++ pretty (size : Z) ++ " bytes)") ;;;
      list_created_files rest
  end.

(** Step 5 of [run_automation]. *)
Definition final_report : M unit :=
  st <- get_state ;;
  log INFO (nl ++ str_repeat "=" 70) ;;;
  log INFO " AUTOMATION COMPLETED!" ;;;
  log INFO (" Successfully processed: " ++ pretty (successful_posts st)
            ++ "/10 posts") ;;;
  log INFO (" Failed to process: " ++ pretty (failed_posts st)
            ++ "/10 posts") ;;;
  log INFO (" Files location: " ++ project_dir self) ;;;
  created_files <- call (Glob "post *.txt") ;;
  log INFO (" Created files (" ++ pretty (length (created_files : list string))
            ++ "):") ;;;
  list_created_files (sorted (path_key self) created_files) ;;;
  log INFO (str_repeat "=" 70) ;;;
  log INFO (nl ++ " REQUIREMENTS VERIFICATION:") ;;;
  log INFO " BotCity and PyAutoGUI used" ;;;
  log INFO " Notepad launched and automated" ;;;
  log INFO " JSONPlaceholder API data fetched" ;;;
  log INFO " Blog post format with title and content" ;;;
  log INFO " Files saved in tjm-project directory" ;;;
  log INFO " 10 posts processed in loop" ;;;
  log INFO " Error handling implemented" ;;;
  log INFO " Files named: post 1.txt, post 2.txt, etc.".

(** The banner at the head of [run_automation]; the empty [print()] that
    follows it goes to the terminal only and is not recorded. *)
Definition announce : M unit :=
  log INFO " Starting Automated Data Entry Bot" ;;;
  log INFO " Project Requirements:" ;;;
  log INFO "    Use BotCity and PyAutoGUI" ;;;
  log INFO "    Launch Notepad" ;;;
  log INFO "    Fetch data from JSONPlaceholder API" ;;;
  log INFO "    Format as blog posts with title and content" ;;;
  log INFO "    Save in tjm-project directory" ;;;
  log INFO "    Process first 10 posts" ;;;
  log INFO "    Error handling implemented".

(** Step 1 of [run_automation]: [self.posts_data = self.fetch_posts_data()]
    under its own [try]. *)
Definition step_fetch : M (list element) :=
  try_except fetch_posts_data
    (except_Exception (fun e =>
       log ERROR (" API fetch failed: " ++ exn_text e) ;;;
       raise e)).

(** Step 2 of [run_automation]. *)
Definition step_launch : M unit :=
  try_except
    (launched <- launch_notepad ;;
     if negb launched then
       raise {| exn_cls := PlainException;
                exn_text := "Failed to launch Notepad application" |}
     else ret tt)
    (except_Exception (fun e =>
       log ERROR (" Application launch failed: " ++ exn_text e) ;;;
       raise e)).

(** Step 3 of [run_automation]. *)
Definition step_process (posts_data : list element) : M unit :=
  reset_counters ;;;
  log INFO (" Processing " ++ pretty (length posts_data) ++ " posts...") ;;;
  process_posts posts_data 1.

(** The two clauses that close the [try] of [run_automation]. *)
Definition on_abort (e : exn) : option (M unit) :=
  if is_KeyboardInterrupt e then
    Some (log INFO (vs16 ++ " Automation interrupted by user") ;;;
          close_notepad)
  else if is_Exception e then
    Some (log ERROR (" Automation failed: " ++ exn_text e) ;;;
          close_notepad ;;;
          raise e)
  else None.

Definition run_automation : M unit :=
  try_except
    (announce ;;;
     posts_data <- step_fetch ;;
     step_launch ;;;
     step_process posts_data ;;;
     close_notepad ;;;
     final_report)
    on_abort.

End Bot.

(** ** Reading a run *)

(** The calls of a run, in order, without their outcomes. *)
Definition calls (evs : list event) : list op :=
  omap (fun ev => match ev with Called o _ => Some o | Logged _ _ => None end) evs.

(** Whether an event is a call that raised. *)
Definition raised (ev : event) : option exn :=
  match ev with
  | Called _ (Raise e) => Some e
  | _ => None
  end.

(** The array decoded by [response.json()], when that call returned. *)
Definition decoded_by (ev : event) : option (list element) :=
  match ev with
  | Called o r =>
      match o return outcome (res o) -> option (list element) with
      | ResponseJson => fun r => match r with Ok body => Some body | Raise _ => None end
      | _ => fun _ => None
      end r
  | Logged _ _ => None
  end.

Definition decoded (evs : list event) : option (list element) :=
  head (omap decoded_by evs).

(** The path of an existence check that found its file. *)
Definition found_by (ev : event) : option string :=
  match ev with
  | Called o r =>
      match o return outcome (res o) -> option string with
      | PathExists path =>
          fun r => match r with Ok true => Some path | _ => None end
      | _ => fun _ => None
      end r
  | Logged _ _ => None
  end.

(** The files a run has seen in place after saving them. *)
Definition files_found (evs : list event) : list string := omap found_by evs.

(** The record that opens an iteration of the loop. *)
Definition iteration_mark (i : nat) : string :=
  nl ++ "--- Processing " ++ pretty i ++ "/10 ---".

Definition is_iteration_mark (msg : string) : bool :=
  String.prefix (nl ++ "--- Processing") msg.

Definition opens_iteration (ev : event) : option string :=
  match ev with
  | Logged _ msg => if is_iteration_mark msg then Some msg else None
  | Called _ _ => None
  end.

(** The iterations a run has opened. *)
Definition iterations (evs : list event) : list string := omap opens_iteration evs.

Definition errors_logged (evs : list event) : list string :=
  omap (fun ev => match ev with Logged ERROR msg => Some msg | _ => None end) evs.

Definition succeeded (r : run bool) : bool :=
  match result r with Ok true => true | _ => false end.

Definition gave_up (r : run bool) : bool :=
  match result r with Ok false => true | _ => false end.

(** No call is answered with an operator interrupt or anything else outside
    [Exception]. *)
Definition uninterrupted (env : environment) : Prop :=
  forall n o e, env n o = Raise e -> is_Exception e = true.

(** ** The single pass, call by call *)

Definition fetch_ops : list op :=
  [RequestsGet api_url 30; RaiseForStatus; ResponseJson].

Definition launch_ops : list op :=
  [BotExecute "notepad.exe"; BotWait 3000;
   Hotkey "win" "r"; Sleep 1000; Typewrite "notepad" 100; Press "enter";
   Sleep 2000; Hotkey "win" "up"; Sleep 1000].

Definition typing_ops (text : string) : list op :=
  [BotTypeText text;
   Hotkey "ctrl" "a"; Sleep 200; Press "delete"; Sleep 200; Typewrite text 10].

Definition save_ops (path : string) : list op :=
  [Hotkey "ctrl" "s"; Sleep 1500; Typewrite path 20; Sleep 500;
   Press "enter"; Sleep 1000; Press "enter"; Sleep 500;
   PathExists path; StatSize path].

Definition new_document_ops : list op :=
  [Hotkey "ctrl" "n"; Sleep 500; Press "n"; Sleep 500].

Definition close_ops : list op :=
  [Hotkey "alt" "f4"; Sleep 500; Press "n"; Sleep 500].

(** One item: format, type, save under the constructed name, new document,
    pause; then the new document of the loop's own handler. *)
Definition item_ops (self : bot) (post : element) (i : nat) : list op :=
  match dict_get post "id" (VInt (Z.of_nat i)), format_blog_post post with
  | Ok post_id, Ok text =>
      typing_ops text
      ++ save_ops (project_path self (post_filename post_id))
      ++ new_document_ops
  | _, _ => []
  end ++ [Sleep 1000] ++ new_document_ops.

Fixpoint items_ops (self : bot) (posts : list element) (i : nat) : list op :=
  match posts with
  | [] => []
  | post :: rest => item_ops self post i ++ items_ops self rest (S i)
  end.

Definition report_ops (self : bot) (names : list string) : list op :=
  Glob "post *.txt" :: map (fun name => StatSize (project_path self name)) names.

(** fetch, launch, the items in order, close, report; the last [close_ops]
    is the closing attempt of [on_abort]. *)
Definition single_pass (self : bot) (posts : list element) (names : list string)
  : list op :=
  fetch_ops ++ launch_ops ++ items_ops self posts 1
  ++ close_ops ++ report_ops self names ++ close_ops.

(** ** Environments and records to run the bot on *)

Definition nominal (o : op) : res o :=
  match o return res o with
  | RequestsGet _ _ => tt
  | RaiseForStatus => tt
  | ResponseJson => []
  | BotExecute _ => true
  | BotWait _ => tt
  | BotTypeText _ => tt
  | Hotkey _ _ => tt
  | Typewrite _ _ => tt
  | Press _ => tt
  | Sleep _ => tt
  | PathExists _ => true
  | StatSize _ => 0
  | Glob _ => []
  end.

(** Every call returns; the endpoint serves [body]. *)
Definition serving (body : list element) : environment :=
  fun n o =>
    match o return outcome (res o) with
    | ResponseJson => Ok body
    | o' => Ok (nominal o')
    end.

(** As [env], but the [k]-th call raises [e]. *)
Definition raising_at (k : nat) (e : exn) (env : environment) : environment :=
  fun n o => if (n =? k)%nat then Raise e else env n o.

Definition record_fields (id : Z) (title body : string) : gmap string value :=
  <["userId" := VInt 1]> (<["id" := VInt id]>
    (<["title" := VStr title]> (<["body" := VStr body]> ∅))).

Definition record (id : Z) (title body : string) : element :=
  Obj (record_fields id title body).

Definition desk : bot :=
  {| project_dir := "C:\Users\op\Desktop\tjm-project";
     project_path := fun name => "C:\Users\op\Desktop\tjm-project\" ++ name;
     path_key := str_lower |}.

Definition start : state :=
  {| clock := 0; successful_posts := 0; failed_posts := 0 |}.

Definition ten_records : list element :=
  map (fun k => record (Z.of_nat k) "qui est esse" "est rerum tempore vitae")
      (seq 1 10).

Definition two_records : list element :=
  [record 1 "sunt aut facere" "quia et suscipit";
   record 2 "qui est esse" "est rerum tempore vitae"].

Definition connection_refused : exn :=
  {| exn_cls := RequestsConnectionError; exn_text := "connection refused" |}.

Definition ctrl_c : exn :=
  {| exn_cls := KeyboardInterrupt; exn_text := "" |}.

Definition fail_safe : exn :=
  {| exn_cls := FailSafeException;
     exn_text := "PyAutoGUI fail-safe triggered from mouse moving to a corner of the screen." |}.

(** [fields.get(key, default)] on the dictionary itself. *)
Definition field_or (fields : gmap string value) (key : string) (default : value)
  : value :=
  match fields !! key with
  | Some v => v
  | None => default
  end.

(** The title is a string when the record has one. *)
Definition title_is_text (fields : gmap string value) : Prop :=
  match fields !! "title" with
  | Some (VStr _) | None => True
  | Some _ => False
  end.

(** The run of a primary method that gave up, the notice, and the run of the
    fallback started where the primary left off. *)
Definition after_notice (primary : run bool) (notice : string) (fallback : run bool)
  : run bool :=
  {| result := result fallback;
     emitted := emitted primary ++ Logged INFO notice :: emitted fallback;
     final := final fallback |}.

(** The path of an existence check that did not find its file. *)
Definition missed_by (ev : event) : option string :=
  match ev with
  | Called o r =>
      match o return outcome (res o) -> option string with
      | PathExists path =>
          fun r => match r with Ok false => Some path | _ => None end
      | _ => fun _ => None
      end r
  | Logged _ _ => None
  end.

Definition files_missed (evs : list event) : list string := omap missed_by evs.

(** The exception of the last call of a run, when that call raised. *)
Definition last_call_raised (evs : list event) : option exn :=
  last (omap (fun ev => match ev with
                        | Called _ _ => Some ev
                        | Logged _ _ => None
                        end) evs) ≫= raised.

(** The keystrokes of [save_document] up to the answer to the overwrite
    prompt. *)
Definition save_keys (path : string) : list op :=
  [Hotkey "ctrl" "s"; Sleep 1500; Typewrite path 20; Sleep 500;
   Press "enter"; Sleep 1000].

(** The path under which the [i]-th item is saved: the file name is built
    from the id of the post, or from [i] when the post has none. *)
Definition item_file (self : bot) (post : element) (i : nat) : string :=
  match dict_get post "id" (VInt (Z.of_nat i)) with
  | Ok post_id => project_path self (post_filename post_id)
  | Raise _ => ""
  end.


(** The state in which the loop starts: both counters at zero. *)
Definition counters_reset (st : state) : state :=
  {| clock := clock st; successful_posts := 0; failed_posts := 0 |}.

(** A run preceded by events already emitted. *)
Definition prepend {A} (evs : list event) (r : run A) : run A :=
  {| result := result r; emitted := evs ++ emitted r; final := final r |}.

(** What is left of [run_automation] once the records are there, and once
    the loop is over. *)
Definition after_fetch (self : bot) (env : environment) (posts : list element)
  : M unit :=
  try_except
    (step_launch env ;;;
     step_process self env posts ;;;
     close_notepad env ;;;
     final_report self env)
    (on_abort env).

Definition after_loop (self : bot) (env : environment) : M unit :=
  try_except (close_notepad env ;;; final_report self env) (on_abort env).

(** Whether a run has announced one of its two fallbacks. *)
Definition fallback_tried (evs : list event) : bool :=
  existsb (fun ev =>
             match ev with
             | Logged INFO msg =>
                 String.eqb msg " Trying PyAutoGUI fallback..."
                 || String.eqb msg " Using PyAutoGUI for typing..."
             | _ => false
             end) evs.

(** C3 in the words of the specification: every call that fails is logged,
    and either sets off a fallback or is counted as a failed item. *)
Definition every_failure_absorbed (r : run unit) : Prop :=
  forall o e,
    Called o (Raise e) ∈ emitted r -> is_Exception e = true ->
    errors_logged (emitted r) <> []
    /\ (fallback_tried (emitted r) = true \/ (0 < failed_posts (final r))%nat).

(** ** Judgements on runs *)

(** Confinement: the calls of a run are taken, in order, from a list. *)
Definition within {A} (l : list op) (m : M A) : Prop :=
  forall st, calls (emitted (m st)) `sublist_of` l.

(** The records [fetch_posts_data] hands to the loop, none when it raises. *)
Definition fetched (env : environment) (st : state) : list element :=
  match result (fetch_posts_data env st) with
  | Ok posts => posts
  | Raise _ => []
  end.

(** A run respects [p], [q] and [R] when each event it emits satisfies [p],
    its final state is related by [R] to the state it started from, and an
    exception it raises satisfies [q]. *)
Definition respects (p : event -> bool) (q : exn -> bool)
    (R : state -> state -> Prop) {A} (m : M A) : Prop :=
  forall st,
    forallb p (emitted (m st)) = true
    /\ R st (final (m st))
    /\ (forall e, result (m st) = Raise e -> q e = true).

Definition is_exists_check (o : op) : bool :=
  match o with
  | PathExists _ => true
  | _ => false
  end.

(** Events that do not open an iteration of the loop. *)
Definition no_mark (ev : event) : bool :=
  match opens_iteration ev with
  | Some _ => false
  | None => true
  end.

(** Events that are not an existence check that found its file. *)
Definition no_file (ev : event) : bool :=
  match found_by ev with
  | Some _ => false
  | None => true
  end.

Definition any_exn (e : exn) : bool := true.

Definition any_state (st st' : state) : Prop := True.

Definition same_counters (st st' : state) : Prop :=
  successful_posts st' = successful_posts st
  /\ failed_posts st' = failed_posts st.

(** ** Conditions and readings for the properties of whole runs *)

(** [time.sleep] returns whenever it is called. *)
Definition sleep_returns (env : environment) : Prop :=
  forall n ms, env n (Sleep ms) = Ok tt.

(** The state in which the loop of a run starts, when its fetch and its
    launch have succeeded: both counters at zero. *)
Definition loop_start (env : environment) (st : state) : state :=
  counters_reset
    (final (launch_notepad env (final (fetch_posts_data env st)))).

(** What [run_automation] raises when Notepad could not be launched. *)
Definition launch_failed : exn :=
  {| exn_cls := PlainException;
     exn_text := "Failed to launch Notepad application" |}.

(** The keystroke that closes the window in front. *)
Definition is_closing_key (o : op) : bool :=
  match o with
  | Hotkey key1 key2 => String.eqb key1 "alt" && String.eqb key2 "f4"
  | _ => false
  end.

(** The number of times a run has sent it. *)
Definition closing_keys (evs : list event) : nat :=
  length (List.filter is_closing_key (calls evs)).

(** The state in which the final report of a run is written, when its
    fetch and its launch have succeeded and its loop has returned. *)
Definition report_start (self : bot) (env : environment) (posts : list element)
    (st : state) : state :=
  final (close_notepad env
           (final (process_posts self env posts 1 (loop_start env st)))).

(** The directory or one of its files cannot be read. *)
Definition disk_error : exn :=
  {| exn_cls := OSError; exn_text := "[WinError 5] Access is denied" |}.

(** Every size asked for is given. *)
Definition sizes_known (env : environment) : Prop :=
  forall n path, exists size, env n (StatSize path) = Ok size.

(** A list in which each element is at most the next, under [key]. *)
Definition ascending (key : string -> string) (l : list string) : Prop :=
  forall i a b,
    l !! i = Some a -> l !! S i = Some b -> String.leb (key a) (key b) = true.

(** ** The script around the bot

    [__init__], [main] and the block under [if __name__ == "__main__"] talk
    to the operator's terminal and to the file system before and after the
    methods of the bot run.  Their calls are answered by a [host], call by
    call like those of the libraries; durations and paths are as above, and
    a path is the string [str] gives for it. *)

Inductive host_op :=
| DesktopBotInit
| PathHome
| Mkdir (path : string)
| Input (prompt : string).

(** [DesktopBotInit] is [super().__init__()], [PathHome] is [Path.home()],
    [Mkdir path] is [path.mkdir(exist_ok=True)]. *)
Definition host_res (o : host_op) : Type :=
  match o with
  | PathHome => string
  | Input _ => string
  | _ => unit
  end.

Definition host := nat -> forall o : host_op, outcome (host_res o).

(** What a session leaves behind, in order: the calls answered by the host,
    the lines printed on the terminal, and the events of the methods of the
    bot and of the logger. *)
Inductive trace_event :=
| Asked (o : host_op) (r : outcome (host_res o))
| Printed (line : string)
| Recorded (ev : event).

(** The flavour of [pathlib] on the platform: [joinpath a b] is [str(a / b)],
    and [sort_key] is the form under which two paths are compared. *)
Record flavour := {
  joinpath : string -> string -> string;
  sort_key : string -> string
}.

(** [asked] counts the calls made to the host. *)
Record session (A : Type) := {
  ended : outcome A;
  trace : list trace_event;
  asked : nat
}.
Arguments ended {A} s.
Arguments trace {A} s.
Arguments asked {A} s.

Definition Script (A : Type) : Type := nat -> session A.

Definition script_ret {A} (a : A) : Script A :=
  fun n => {| ended := Ok a; trace := []; asked := n |}.

Definition script_raise {A} (e : exn) : Script A :=
  fun n => {| ended := Raise e; trace := []; asked := n |}.

Definition script_bind {A B} (m : Script A) (k : A -> Script B) : Script B :=
  fun n =>
    match m n with
    | {| ended := Ok a; trace := tr; asked := n1 |} =>
        match k a n1 with
        | {| ended := r; trace := tr2; asked := n2 |} =>
            {| ended := r; trace := tr ++ tr2; asked := n2 |}
        end
    | {| ended := Raise e; trace := tr; asked := n1 |} =>
        {| ended := Raise e; trace := tr; asked := n1 |}
    end.

Declare Scope script_scope.
Delimit Scope script_scope with script.
Notation "x <- m ;; k" := (script_bind m (fun x => k))
  (at level 100, m at next level, right associativity) : script_scope.
Notation "m ;;; k" := (script_bind m (fun _ => k))
  (at level 100, right associativity) : script_scope.

Definition script_try {A} (m : Script A) (handler : exn -> option (Script A))
  : Script A :=
  fun n =>
    match m n with
    | {| ended := Raise e; trace := tr; asked := n1 |} =>
        match handler e with
        | Some h =>
            match h n1 with
            | {| ended := r; trace := tr2; asked := n2 |} =>
                {| ended := r; trace := tr ++ tr2; asked := n2 |}
            end
        | None => {| ended := Raise e; trace := tr; asked := n1 |}
        end
    | r => r
    end.

(** [print(line)] *)
Definition print (line : string) : Script unit :=
  fun n => {| ended := Ok tt; trace := [Printed line]; asked := n |}.

(** [logger.info(msg)] and [logger.error(msg)] outside the methods above. *)
Definition script_log (lvl : level) (msg : string) : Script unit :=
  fun n => {| ended := Ok tt; trace := [Recorded (Logged lvl msg)]; asked := n |}.

(** A method of the bot called from the script. *)
Definition run_bot {A} (r : run A) : Script A :=
  fun n => {| ended := result r; trace := map Recorded (emitted r); asked := n |}.

(** [sys.exit(code)] *)
Definition sys_exit {A} (code : Z) : Script A :=
  script_raise {| exn_cls := SystemExit; exn_text := pretty code |}.

Section Session.

Variable fl : flavour.
Variable platform : string.
Variable host_answers : host.
Variable env : environment.

Definition ask (o : host_op) : Script (host_res o) :=
  fun n =>
    let r := host_answers n o in
    {| ended := r; trace := [Asked o r]; asked := S n |}.

Definition setup_project_directory (self : bot) : Script unit :=
  script_try
    (ask (Mkdir (project_dir self)) ;;;
     script_log INFO (" Project directory ready: " ++ project_dir self))%script
    (fun e =>
       if is_Exception e then
         Some (script_log ERROR (" Failed to create project directory: "
                                 ++ exn_text e) ;;;
               script_raise e)%script
       else None).

(** The attributes the methods read are those of [bot]; [api_url] is the
    constant above, and the settings of the two libraries have no part in
    what follows. *)
Definition __init__ : Script bot :=
  (ask DesktopBotInit ;;;
   home <- ask PathHome ;;
   let desktop_path := joinpath fl home "Desktop" in
   let self := {| project_dir := joinpath fl desktop_path "tjm-project";
                  project_path := joinpath fl (joinpath fl desktop_path "tjm-project");
                  path_key := sort_key fl |} in
   setup_project_directory self ;;;
   script_log INFO "Bot initialized with BotCity and PyAutoGUI" ;;;
   script_ret self)%script.

Definition main : Script unit :=
  script_try
    ((if negb (String.eqb platform "win32") then
        print (vs16 ++ " This script is optimized for Windows") ;;;
        print "For cross-platform version, use the generic script"
      else script_ret tt) ;;;
     script_log INFO " Initializing Windows Data Entry Bot..." ;;;
     bot <- __init__ ;;
     run_bot (run_automation bot env start))%script
    (fun e =>
       if is_Exception e then
         Some (script_log ERROR (" Application failed: " ++ exn_text e) ;;;
               sys_exit 1)%script
       else None).

(** The block under [if __name__ == "__main__"]. *)
Definition __main__ : Script unit :=
  (print " Automated Data Entry Bot for Windows Notepad" ;;;
   print (str_repeat "=" 70) ;;;
   print "This bot fulfills ALL project requirements:" ;;;
   print "    Uses BotCity AND PyAutoGUI libraries" ;;;
   print "    Launches Windows Notepad application" ;;;
   print "    Fetches data from JSONPlaceholder API" ;;;
   print "    Formats as blog posts with title and content" ;;;
   print "    Saves in Desktop/tjm-project/ directory" ;;;
   print "    Processes first 10 posts in a loop" ;;;
   print "    Names files: post 1.txt, post 2.txt, etc." ;;;
   print "    Comprehensive error handling" ;;;
   print "" ;;;
   print " SAFETY FEATURES:" ;;;
   print "    Move mouse to top-left corner for emergency stop" ;;;
   print "    Press Ctrl+C to interrupt at any time" ;;;
   print "    All actions logged to automation_log.txt" ;;;
   print "" ;;;
   home <- ask PathHome ;;
   print (" Target: " ++ joinpath fl (joinpath fl home "Desktop") "tjm-project") ;;;
   print (str_repeat "=" 70) ;;;
   script_try
     (ask (Input "Press Enter to start automation (ensure no important work is open)...") ;;;
      main ;;;
      print (nl ++ " Automation completed! Check the log and your Desktop.") ;;;
      ask (Input "Press Enter to exit...") ;;;
      script_ret tt)
     (fun e =>
        if is_KeyboardInterrupt e then
          Some (print (nl ++ " Automation cancelled by user") ;;;
                sys_exit 0)
        else None))%script.

End Session.

(** ** Reading a session *)

(** The events of the log and of the libraries. *)
Definition recorded (tr : list trace_event) : list event :=
  omap (fun t => match t with Recorded ev => Some ev | _ => None end) tr.

Definition printed (tr : list trace_event) : list string :=
  omap (fun t => match t with Printed line => Some line | _ => None end) tr.

(** No call to the host is answered with an exception outside [Exception]. *)
Definition host_uninterrupted (h : host) : Prop :=
  forall n o e, h n o = Raise e -> is_Exception e = true.

(** The exception of [sys.exit(code)]. *)
Definition exit_with (code : Z) : exn :=
  {| exn_cls := SystemExit; exn_text := pretty code |}.

(** A Windows machine: the home of the operator, backslashes between the
    parts of a path, and a host that answers every call. *)
Definition windows : flavour :=
  {| joinpath := fun a b => a ++ "\" ++ b; sort_key := str_lower |}.

Definition obliging (o : host_op) : host_res o :=
  match o return host_res o with
  | DesktopBotInit => tt
  | PathHome => "C:\Users\op"
  | Mkdir _ => tt
  | Input _ => ""
  end.

Definition at_the_desk : host := fun n o => Ok (obliging o).

(** As [h], but the [k]-th call raises [e]. *)
Definition refusing_at (k : nat) (e : exn) (h : host) : host :=
  fun n o => if (n =? k)%nat then Raise e else h n o.

Definition start_prompt : string :=
  "Press Enter to start automation (ensure no important work is open)...".

Definition completed_line : string :=
  nl ++ " Automation completed! Check the log and your Desktop.".

Definition cancelled_line : string := nl ++ " Automation cancelled by user".

(** How a session that raises [e] out of its [try] ends: an operator
    interrupt becomes [sys.exit(0)], anything else passes. *)
Definition session_end (e : exn) : exn :=
  if is_KeyboardInterrupt e then exit_with 0 else e.

(** The bot of a session whose home directory is [home]. *)
Definition bot_of (fl : flavour) (home : string) : bot :=
  {| project_dir := joinpath fl (joinpath fl home "Desktop") "tjm-project";
     project_path :=
       joinpath fl (joinpath fl (joinpath fl home "Desktop") "tjm-project");
     path_key := sort_key fl |}.

(** As [env], but the listing of the project directory returns [files]. *)
Definition holding (files : list string) (env : environment) : environment :=
  fun n o =>
    match o return outcome (res o) with
    | Glob _ => Ok files
    | o' => env n o'
    end.

(** ** Readings for the order of a run *)


(** A call that typed [text] into the document and returned: BotCity's
    [type_text(text)] or [typewrite(text, interval=0.01)]. *)
Definition types (text : string) (ev : event) : bool :=
  match ev with
  | Called (BotTypeText t) (Ok _) => String.eqb t text
  | Called (Typewrite t interval_ms) (Ok _) =>
      String.eqb t text && (interval_ms =? 10)
  | _ => false
  end.

(** The texts typed into the document by the calls that returned. *)
Definition texts_typed (evs : list event) : list string :=
  omap (fun ev => match ev with
                  | Called (BotTypeText t) (Ok _) => Some t
                  | Called (Typewrite t interval_ms) (Ok _) =>
                      if interval_ms =? 10 then Some t else None
                  | _ => None
                  end) evs.

(** The keystroke that opens the save dialogue. *)
Definition is_save_key (o : op) : bool :=
  match o with
  | Hotkey key1 key2 => String.eqb key1 "ctrl" && String.eqb key2 "s"
  | _ => false
  end.

Definition opens_save (ev : event) : bool :=
  match ev with
  | Called o _ => is_save_key o
  | Logged _ _ => false
  end.

(** The decoding of the response, returned. *)
Definition decodes (ev : event) : bool :=
  match decoded_by ev with
  | Some _ => true
  | None => false
  end.

(** The record that opens an iteration. *)
Definition marks_iteration (ev : event) : bool := negb (no_mark ev).

(** Precedence in a run: every event that satisfies [q] comes after an
    event that satisfies [p]; [seen] tells whether one has come already. *)
Fixpoint preceded (p q : event -> bool) (seen : bool) (evs : list event) : bool :=
  match evs with
  | [] => true
  | ev :: rest => (negb (q ev) || seen) && preceded p q (seen || p ev) rest
  end.


(** The fourteen lines of the f-string of [format_blog_post], written out. *)
Definition template_lines (post_id title user_id body : string) : list string :=
  ["BLOG POST #" ++ post_id;
   "============================================================";
   "";
   "TITLE: " ++ title;
   "";
   "AUTHOR: User #" ++ user_id;
   "";
   "BLOG CONTENT:";
   body;
   "";
   "============================================================";
   "Source: JSONPlaceholder API - https://jsonplaceholder.typicode.com/posts/"
     ++ post_id;
   "Generated by Automated Data Entry Bot";
   "============================================================"].

(** Lines, each closed by a newline. *)
Fixpoint unlines (lines : list string) : string :=
  match lines with
  | [] => ""
  | line :: rest => line ++ nl ++ unlines rest
  end.

(** The title of a record, when it has one, is a string (as in
    [title_is_text]), and [title_line] is what [title()] makes of it; it is
    pinned on ASCII text. *)
Definition title_line_of (fields : gmap string value) (title_line : string) : Prop :=
  match fields !! "title" with
  | Some (VStr t) => is_ascii t = true -> title_line = str_title t
  | Some _ => False
  | None => title_line = "Untitled"
  end.


(** * Properties *)

(** ** Runs of [bind] and [try_except] *)

Lemma bind_run {A B} (m : M A) (k : A -> M B) st :
  bind m k st =
    match result (m st) with
    | Ok a =>
        {| result := result (k a (final (m st)));
           emitted := emitted (m st) ++ emitted (k a (final (m st)));
           final := final (k a (final (m st))) |}
    | Raise e =>
        {| result := Raise e; emitted := emitted (m st); final := final (m st) |}
    end.
Proof.
  unfold bind. destruct (m st) as [[a|e] evs st1]; simpl; [|reflexivity].
  destruct (k a st1); reflexivity.
Qed.

Lemma try_except_run {A} (m : M A) (handler : exn -> option (M A)) st :
  try_except m handler st =
    match result (m st) with
    | Ok _ => m st
    | Raise e =>
        match handler e with
        | Some h =>
            {| result := result (h (final (m st)));
               emitted := emitted (m st) ++ emitted (h (final (m st)));
               final := final (h (final (m st))) |}
        | None => m st
        end
    end.
Proof.
  unfold try_except. destruct (m st) as [[a|e] evs st1]; simpl; [reflexivity|].
  destruct (handler e) as [h|]; [|reflexivity].
  destruct (h st1); reflexivity.
Qed.

Lemma calls_app evs1 evs2 :
  calls (evs1 ++ evs2) = (calls evs1 ++ calls evs2)%list.
Proof. apply omap_app. Qed.

(** ** Confinement *)

Section Within.

Variable env : environment.

Lemma within_weaken {A} l l' (m : M A) :
  l `sublist_of` l' -> within l m -> within l' m.
Proof. intros Hl Hm st. etrans; [apply Hm | exact Hl]. Qed.

Lemma within_ret {A} l (a : A) : within l (ret a).
Proof. intros st. apply sublist_nil_l. Qed.

Lemma within_raise {A} l e : within l (@raise A e).
Proof. intros st. apply sublist_nil_l. Qed.

Lemma within_log l lvl msg : within l (log lvl msg).
Proof. intros st. apply sublist_nil_l. Qed.

Lemma within_lift {A} l (x : outcome A) : within l (lift x).
Proof. intros st. destruct x; apply sublist_nil_l. Qed.

Lemma within_get_state l : within l get_state.
Proof. intros st. apply sublist_nil_l. Qed.

Lemma within_reset_counters l : within l reset_counters.
Proof. intros st. apply sublist_nil_l. Qed.

Lemma within_incr_successful l : within l incr_successful.
Proof. intros st. apply sublist_nil_l. Qed.

Lemma within_incr_failed l : within l incr_failed.
Proof. intros st. apply sublist_nil_l. Qed.

Lemma within_call o l : within (o :: l) (call env o).
Proof.
  intros st. simpl. apply sublist_skip || apply sublist_cons.
  apply sublist_nil_l.
Qed.

Lemma within_skip {A} o l (m : M A) : within l m -> within (o :: l) m.
Proof. intros Hm st. apply sublist_cons, Hm. Qed.

Lemma within_bind {A B} l1 l2 (m : M A) (k : A -> M B) :
  within l1 m -> (forall a, within l2 (k a)) -> within (l1 ++ l2) (bind m k).
Proof.
  intros Hm Hk st. rewrite bind_run.
  pose proof (Hm st) as H1.
  destruct (result (m st)) as [a|e]; simpl.
  - rewrite calls_app. apply sublist_app; [exact H1 | apply Hk].
  - apply sublist_inserts_r, H1.
Qed.

Lemma within_try {A} l1 l2 (m : M A) handler :
  within l1 m ->
  (forall e h, handler e = Some h -> within l2 h) ->
  within (l1 ++ l2) (try_except m handler).
Proof.
  intros Hm Hh st. rewrite try_except_run.
  pose proof (Hm st) as H1.
  destruct (result (m st)) as [a|e]; [apply sublist_inserts_r, H1|].
  destruct (handler e) as [h|] eqn:He; [|apply sublist_inserts_r, H1].
  simpl. rewrite calls_app. apply sublist_app; [exact H1 | eapply Hh, He].
Qed.

(** A step that makes no call leaves the list to what follows. *)
Lemma within_then {A B} l (m : M A) (k : A -> M B) :
  within [] m -> (forall a, within l (k a)) -> within l (bind m k).
Proof. intros Hm Hk. apply (within_bind [] l); assumption. Qed.

Lemma within_call_then {B} o l (k : res o -> M B) :
  (forall a, within l (k a)) -> within (o :: l) (bind (call env o) k).
Proof.
  intros Hk. apply (within_bind [o] l); [apply within_call | exact Hk].
Qed.

Lemma within_raise_then {A B} l e (k : A -> M B) : within l (bind (raise e) k).
Proof. intros st. apply sublist_nil_l. Qed.

(** A pure step hands its value on, or stops the run. *)
Lemma within_lift_then {A B} l (x : outcome A) (k : A -> M B) :
  (forall a, x = Ok a -> within l (k a)) -> within l (bind (lift x) k).
Proof.
  intros Hk st. rewrite bind_run. destruct x as [a|e]; simpl.
  - apply (Hk a eq_refl).
  - apply sublist_nil_l.
Qed.

(** A handler that makes no call. *)
Lemma within_guarded {A} l (m : M A) handler :
  within l m ->
  (forall e h, handler e = Some h -> within [] h) ->
  within l (try_except m handler).
Proof.
  intros Hm Hh. rewrite <- (app_nil_r l). apply within_try; assumption.
Qed.

Lemma within_except_Exception {A} l (h : exn -> M A) e h' :
  (forall e, within l (h e)) -> except_Exception h e = Some h' -> within l h'.
Proof.
  unfold except_Exception. intros Hh He.
  destruct (is_Exception e); [|discriminate]. injection He as <-. apply Hh.
Qed.

Lemma within_except_all {A} l (h : M A) e h' :
  within l h -> except_all h e = Some h' -> within l h'.
Proof. unfold except_all. intros Hh He. injection He as <-. exact Hh. Qed.

End Within.

(** The calls of each method, in the order of its source. *)

Create HintDb within discriminated.

Ltac confine_step env :=
  first
    [ apply within_ret | apply within_raise | apply within_log
    | apply within_lift | apply within_get_state
    | apply within_reset_counters
    | apply within_incr_successful | apply within_incr_failed
    | apply (within_call env)
    | apply (within_call_then env); intros ?
    | apply within_then; [solve [apply within_log | apply within_lift
                                | apply within_get_state
                                | apply within_reset_counters
                                | apply within_incr_successful
                                | apply within_incr_failed] | intros ?]
    | match goal with
      | |- within _ (if negb ?b then _ else _) => destruct b; cbn [negb]
      | |- within _ (if ?b then _ else _) => destruct b
      end
    | apply within_skip ].

Ltac confine env := repeat confine_step env.

(** A [try] whose handler only logs and returns. *)
Ltac confine_guarded env :=
  apply within_guarded;
  [ | intros ? ? ?; eapply within_except_Exception; [|eassumption];
      intros ?; confine env ].

Section Confined.

Variable self : bot.
Variable env : environment.

Lemma fetch_posts_data_within : within fetch_ops (fetch_posts_data env).
Proof.
  unfold fetch_posts_data, fetch_ops. apply within_guarded.
  - confine env.
  - intros e h He.
    destruct (is_ConnectionError e); [injection He as <-; confine env|].
    destruct (is_Timeout e); [injection He as <-; confine env|].
    destruct (is_RequestException e); [injection He as <-; confine env|].
    destruct (is_JSONDecodeError e); [injection He as <-; confine env|].
    discriminate.
Qed.

Lemma launch_notepad_botcity_within :
  within [BotExecute "notepad.exe"; BotWait 3000] (launch_notepad_botcity env).
Proof. unfold launch_notepad_botcity. confine_guarded env. confine env. Qed.

Lemma launch_notepad_pyautogui_within :
  within [Hotkey "win" "r"; Sleep 1000; Typewrite "notepad" 100; Press "enter";
          Sleep 2000; Hotkey "win" "up"; Sleep 1000]
         (launch_notepad_pyautogui env).
Proof. unfold launch_notepad_pyautogui. confine_guarded env. confine env. Qed.

Lemma launch_notepad_within : within launch_ops (launch_notepad env).
Proof.
  unfold launch_notepad. confine_guarded env.
  apply (within_bind [BotExecute "notepad.exe"; BotWait 3000]).
  - apply launch_notepad_botcity_within.
  - intros [|]; [apply within_ret|].
    apply within_then; [apply within_log|]. intros _.
    apply launch_notepad_pyautogui_within.
Qed.

Lemma type_text_botcity_within text :
  within [BotTypeText text] (type_text_botcity env text).
Proof. unfold type_text_botcity. confine_guarded env. confine env. Qed.

Lemma type_text_pyautogui_within text :
  within [Hotkey "ctrl" "a"; Sleep 200; Press "delete"; Sleep 200;
          Typewrite text 10]
         (type_text_pyautogui env text).
Proof. unfold type_text_pyautogui. confine_guarded env. confine env. Qed.

Lemma type_text_hybrid_within text :
  within (typing_ops text) (type_text_hybrid env text).
Proof.
  unfold type_text_hybrid. confine_guarded env.
  apply (within_bind [BotTypeText text]).
  - apply type_text_botcity_within.
  - intros [|]; [apply within_ret|].
    apply within_then; [apply within_log|]. intros _.
    apply type_text_pyautogui_within.
Qed.

(** The best-effort keystroke and pause that answer a prompt. *)
Lemma prompt_within key l :
  within (Press key :: Sleep 500 :: l)
    (try_except (bind (call env (Press key)) (fun _ => call env (Sleep 500)))
                (except_all (ret tt))).
Proof.
  apply within_guarded.
  - confine env.
  - intros e h He. eapply within_except_all; [|exact He]. apply within_ret.
Qed.

Lemma save_document_within filename :
  within (save_ops (project_path self filename)) (save_document self env filename).
Proof.
  unfold save_document, save_ops. confine_guarded env.
  do 7 confine_step env.
  apply (within_bind [Press "enter"; Sleep 500]); [apply prompt_within|].
  intros _. confine env.
Qed.

Lemma create_new_document_within :
  within new_document_ops (create_new_document env).
Proof.
  unfold create_new_document, new_document_ops. confine_guarded env.
  do 2 confine_step env. apply prompt_within.
Qed.

Lemma close_notepad_within : within close_ops (close_notepad env).
Proof.
  unfold close_notepad, close_ops. confine_guarded env.
  do 2 confine_step env. apply prompt_within.
Qed.

End Confined.

Section Pass.

Variable self : bot.
Variable env : environment.

Lemma process_single_post_within post i :
  within (match dict_get post "id" (VInt (Z.of_nat i)), format_blog_post post with
          | Ok post_id, Ok text =>
              typing_ops text
              ++ save_ops (project_path self (post_filename post_id))
              ++ new_document_ops
          | _, _ => []
          end)
         (process_single_post self env post i).
Proof.
  unfold process_single_post. apply within_guarded.
  - apply within_lift_then. intros post_id ->.
    apply within_then; [apply within_log|]. intros _.
    apply within_lift_then. intros fetched_title _.
    apply within_lift_then. intros preview _.
    apply within_then; [apply within_log|]. intros _.
    apply within_lift_then. intros text ->.
    apply within_bind; [apply type_text_hybrid_within|].
    intros [|]; cbn [negb]; [|confine env].
    apply within_bind; [apply save_document_within|].
    intros [|]; cbn [negb]; [|confine env].
    rewrite <- (app_nil_r new_document_ops).
    apply within_bind.
    + destruct (i <? 10)%nat;
        [apply create_new_document_within | apply within_ret].
    + intros _. confine env.
  - intros e h He. eapply within_except_Exception; [|exact He].
    intros e'. confine env.
Qed.

Lemma process_item_within post i :
  within (item_ops self post i) (process_item self env post i).
Proof.
  unfold process_item, item_ops.
  apply within_then; [apply within_log|]. intros _.
  rewrite app_assoc. apply within_try.
  - apply within_bind; [apply process_single_post_within|].
    intros processed. apply within_then.
    + destruct processed; [apply within_incr_successful | apply within_incr_failed].
    + intros _. confine env.
  - intros e h He.
    destruct (is_KeyboardInterrupt e); [injection He as <-; confine env|].
    destruct (is_Exception e); [injection He as <-|discriminate].
    apply within_then; [apply within_incr_failed|]. intros _.
    apply within_then; [apply within_log|]. intros _.
    rewrite <- (app_nil_r new_document_ops). apply within_bind.
    + apply within_guarded; [apply create_new_document_within|].
      intros e' h' He'. eapply within_except_all; [|exact He']. apply within_ret.
    + intros _. apply within_ret.
Qed.

Lemma process_posts_within posts i :
  within (items_ops self posts i) (process_posts self env posts i).
Proof.
  revert i. induction posts as [|post rest IH]; intros i; simpl.
  - apply within_ret.
  - apply within_bind; [apply process_item_within|].
    intros [|]; [apply IH | apply within_ret].
Qed.

Lemma list_created_files_within names :
  within (map (fun name => StatSize (project_path self name)) names)
         (list_created_files self env names).
Proof.
  induction names as [|name rest IH]; simpl; [apply within_ret|].
  apply within_call_then. intros size.
  apply within_then; [apply within_log|]. intros _. exact IH.
Qed.

(** The report lists the files the directory holds when it is written. *)
Lemma final_report_confined st :
  exists names,
    calls (emitted (final_report self env st)) `sublist_of` report_ops self names.
Proof.
  unfold final_report.
  destruct (env (clock st) (Glob "post *.txt")) as [created|e] eqn:Hglob.
  - exists (sorted (path_key self) created).
    unfold bind at 1. simpl.
    repeat (rewrite bind_run; simpl).
    rewrite Hglob; simpl.
    repeat (rewrite bind_run; simpl).
    pose proof (list_created_files_within (sorted (path_key self) created)
                  (tick st)) as Hfiles.
    destruct (result (list_created_files self env _ (tick st))); simpl.
    + rewrite !calls_app. simpl. rewrite app_nil_r.
      apply sublist_skip, Hfiles.
    + apply sublist_skip, Hfiles.
  - exists []. unfold bind at 1. simpl.
    repeat (rewrite bind_run; simpl). rewrite Hglob. simpl.
    apply sublist_skip, sublist_nil_l.
Qed.

End Pass.

Section Order.

Variable self : bot.
Variable env : environment.

Lemma bind_confined {A B} (m : M A) (k : A -> M B) st l1
    (l2 : list string -> list op) :
  calls (emitted (m st)) `sublist_of` l1 ->
  (forall a, result (m st) = Ok a ->
     exists names, calls (emitted (k a (final (m st)))) `sublist_of` l2 names) ->
  exists names, calls (emitted (bind m k st)) `sublist_of` (l1 ++ l2 names)%list.
Proof.
  intros H1 H2. rewrite bind_run.
  destruct (result (m st)) as [a|e]; simpl.
  - destruct (H2 a eq_refl) as [names Hnames]. exists names.
    rewrite calls_app. apply sublist_app; assumption.
  - exists []. apply sublist_inserts_r, H1.
Qed.

Lemma announce_within : within [] announce.
Proof. unfold announce. confine env. Qed.

Lemma step_fetch_within : within fetch_ops (step_fetch env).
Proof.
  unfold step_fetch. apply within_guarded; [apply fetch_posts_data_within|].
  intros e h He. eapply within_except_Exception; [|exact He].
  intros e'. confine env.
Qed.

Lemma step_fetch_result st posts :
  result (step_fetch env st) = Ok posts -> fetched env st = posts.
Proof.
  unfold step_fetch, fetched. rewrite try_except_run.
  destruct (result (fetch_posts_data env st)) as [ps|e] eqn:Hr.
  - rewrite Hr. congruence.
  - unfold except_Exception. destruct (is_Exception e); simpl.
    + discriminate.
    + rewrite Hr. discriminate.
Qed.

Lemma step_launch_within : within launch_ops (step_launch env).
Proof.
  unfold step_launch. apply within_guarded.
  - rewrite <- (app_nil_r launch_ops).
    apply within_bind; [apply launch_notepad_within|].
    intros [|]; simpl; [apply within_ret | apply within_raise].
  - intros e h He. eapply within_except_Exception; [|exact He].
    intros e'. confine env.
Qed.

Lemma step_process_within posts :
  within (items_ops self posts 1) (step_process self env posts).
Proof.
  unfold step_process.
  apply within_then; [apply within_reset_counters|]. intros _.
  apply within_then; [apply within_log|]. intros _.
  apply process_posts_within.
Qed.

Lemma on_abort_within e h : on_abort env e = Some h -> within close_ops h.
Proof.
  unfold on_abort. intros He.
  destruct (is_KeyboardInterrupt e).
  - injection He as <-. apply within_then; [apply within_log|]. intros _.
    apply close_notepad_within.
  - destruct (is_Exception e); [injection He as <-|discriminate].
    apply within_then; [apply within_log|]. intros _.
    rewrite <- (app_nil_r close_ops).
    apply within_bind; [apply close_notepad_within|].
    intros _. apply within_raise.
Qed.

(** Whatever the environment answers, the calls of a run are taken in order
    from the sequence fetch, launch, then for each fetched record typing, save,
    new document and pause, then close and report. *)
Lemma run_automation_within st :
  exists names,
    calls (emitted (run_automation self env st))
      `sublist_of` single_pass self (fetched env st) names.
Proof.
  assert (Hbody : exists names,
    calls (emitted
      ((announce ;;;
        posts_data <- step_fetch env ;;
        step_launch env ;;;
        step_process self env posts_data ;;;
        close_notepad env ;;;
        final_report self env) st))
    `sublist_of`
      ([] ++ fetch_ops ++ launch_ops ++ items_ops self (fetched env st) 1
       ++ close_ops ++ report_ops self names)%list).
  { apply (bind_confined _ _ _ []
             (fun names => fetch_ops ++ launch_ops
                           ++ items_ops self (fetched env st) 1
                           ++ close_ops ++ report_ops self names)%list);
      [apply announce_within|].
    intros [] Hannounce.
    assert (final (announce st) = st) as -> by reflexivity.
    apply (bind_confined _ _ _ fetch_ops
             (fun names => launch_ops ++ items_ops self (fetched env st) 1
                           ++ close_ops ++ report_ops self names)%list);
      [apply step_fetch_within|].
    intros posts Hposts. apply step_fetch_result in Hposts as ->.
    apply (bind_confined _ _ _ launch_ops
             (fun names => items_ops self posts 1
                           ++ close_ops ++ report_ops self names)%list);
      [apply step_launch_within|].
    intros _ _.
    apply (bind_confined _ _ _ (items_ops self posts 1)
             (fun names => close_ops ++ report_ops self names)%list);
      [apply step_process_within|].
    intros _ _.
    apply (bind_confined _ _ _ close_ops (report_ops self));
      [apply close_notepad_within|].
    intros _ _. apply final_report_confined. }
  destruct Hbody as [names Hbody]. exists names.
  unfold run_automation, single_pass. rewrite try_except_run.
  rewrite app_nil_l in Hbody.
  assert (Hsplit :
    (fetch_ops ++ launch_ops ++ items_ops self (fetched env st) 1
     ++ close_ops ++ report_ops self names ++ close_ops
     = (fetch_ops ++ launch_ops ++ items_ops self (fetched env st) 1
        ++ close_ops ++ report_ops self names) ++ close_ops)%list).
  { rewrite <- !app_assoc. reflexivity. }
  rewrite Hsplit.
  match goal with
  | |- context [result (?body st)] =>
      destruct (result (body st)) as [[]|e];
      [apply sublist_inserts_r, Hbody|]
  end.
  destruct (on_abort env e) as [h|] eqn:He;
    [|apply sublist_inserts_r, Hbody].
  cbn [emitted]. rewrite calls_app. apply sublist_app; [exact Hbody|].
  eapply on_abort_within, He.
Qed.

End Order.

(** When every call returns, the whole pass is made, without the fallbacks. *)
Example pass_on_two_records :
  calls (emitted (run_automation desk (serving two_records) start))
  = (fetch_ops
     ++ [BotExecute "notepad.exe"; BotWait 3000]
     ++ (BotTypeText (blog_template "1" "Sunt Aut Facere" "1" "quia et suscipit")
         :: save_ops (project_path desk "post 1.txt")
         ++ new_document_ops ++ [Sleep 1000])
     ++ (BotTypeText (blog_template "2" "Qui Est Esse" "1" "est rerum tempore vitae")
         :: save_ops (project_path desk "post 2.txt")
         ++ new_document_ops ++ [Sleep 1000])
     ++ close_ops
     ++ [Glob "post *.txt"])%list.
Proof. vm_compute. reflexivity. Qed.

(** ** What a run emits, raises and leaves behind *)

Section Respects.

Variable env : environment.
Variable p : event -> bool.
Variable q : exn -> bool.
Variable R : state -> state -> Prop.

Hypothesis R_refl : forall st, R st st.
Hypothesis R_trans : forall st1 st2 st3, R st1 st2 -> R st2 st3 -> R st1 st3.
Hypothesis R_tick : forall st, R st (tick st).
Hypothesis env_q : forall n o e, env n o = Raise e -> q e = true.
Hypothesis q_Exception : forall e, is_Exception e = true -> q e = true.
Hypothesis p_calls :
  forall o r, is_exists_check o = false -> p (Called o r) = true.
Hypothesis p_logs :
  forall lvl msg, is_iteration_mark msg = false -> p (Logged lvl msg) = true.

Lemma respects_ret {A} (a : A) : respects p q R (ret a).
Proof. intros st. simpl. split_and!; [reflexivity | apply R_refl | discriminate]. Qed.

Lemma respects_raise {A} e : q e = true -> respects p q R (@raise A e).
Proof.
  intros He st. simpl. split_and!; [reflexivity | apply R_refl |].
  intros e' [= <-]. exact He.
Qed.

Lemma respects_log lvl msg :
  is_iteration_mark msg = false -> respects p q R (log lvl msg).
Proof.
  intros Hmsg st. simpl. rewrite (p_logs _ _ Hmsg).
  split_and!; [reflexivity | apply R_refl | discriminate].
Qed.

Lemma respects_lift {A} (x : outcome A) :
  (forall e, x = Raise e -> is_Exception e = true) -> respects p q R (lift x).
Proof.
  intros Hx. destruct x as [a|e]; [apply respects_ret|].
  apply respects_raise, q_Exception, Hx. reflexivity.
Qed.

Lemma respects_get_state : respects p q R get_state.
Proof. intros st. simpl. split_and!; [reflexivity | apply R_refl | discriminate]. Qed.

Lemma respects_call_with o :
  (forall r, p (Called o r) = true) -> respects p q R (call env o).
Proof.
  intros Ho st. unfold call. cbn [emitted result final forallb].
  rewrite Ho. split_and!; [reflexivity | apply R_tick | apply env_q].
Qed.

Lemma respects_call o : is_exists_check o = false -> respects p q R (call env o).
Proof. intros Ho. apply respects_call_with. intros r. apply p_calls, Ho. Qed.

Lemma respects_bind {A B} (m : M A) (k : A -> M B) :
  respects p q R m -> (forall a, respects p q R (k a)) ->
  respects p q R (bind m k).
Proof.
  intros Hm Hk st. rewrite bind_run.
  destruct (Hm st) as (Hp1 & HR1 & Hq1).
  destruct (result (m st)) as [a|e]; cbn [emitted result final].
  - destruct (Hk a (final (m st))) as (Hp2 & HR2 & Hq2).
    rewrite forallb_app, Hp1, Hp2.
    split_and!; [reflexivity | eapply R_trans; eassumption | exact Hq2].
  - split_and!; [exact Hp1 | exact HR1 |].
    intros e' [= <-]. apply Hq1. reflexivity.
Qed.

Lemma respects_try {A} (m : M A) handler :
  respects p q R m ->
  (forall e h, q e = true -> handler e = Some h -> respects p q R h) ->
  respects p q R (try_except m handler).
Proof.
  intros Hm Hh st. rewrite try_except_run.
  destruct (Hm st) as (Hp1 & HR1 & Hq1).
  destruct (result (m st)) as [a|e] eqn:Hr.
  - rewrite Hr. split_and!; [exact Hp1 | exact HR1 | discriminate].
  - destruct (handler e) as [h|] eqn:He.
    + destruct (Hh e h (Hq1 e eq_refl) He (final (m st))) as (Hp2 & HR2 & Hq2).
      cbn [emitted result final]. rewrite forallb_app, Hp1, Hp2.
      split_and!; [reflexivity | eapply R_trans; eassumption | exact Hq2].
    + rewrite Hr. split_and!; [exact Hp1 | exact HR1 | exact Hq1].
Qed.

Lemma respects_except_Exception {A} (h : exn -> M A) e h' :
  (forall e, respects p q R (h e)) ->
  except_Exception h e = Some h' -> respects p q R h'.
Proof.
  unfold except_Exception. intros Hh He.
  destruct (is_Exception e); [|discriminate]. injection He as <-. apply Hh.
Qed.

Lemma respects_except_all {A} (h : M A) e h' :
  respects p q R h -> except_all h e = Some h' -> respects p q R h'.
Proof. unfold except_all. intros Hh He. injection He as <-. exact Hh. Qed.

(** What the script itself raises is an [Exception]. *)
Lemma dict_get_raises post key default e :
  dict_get post key default = Raise e -> is_Exception e = true.
Proof.
  destruct post as [fields|v]; simpl.
  - destruct (fields !! key); discriminate.
  - intros [= <-]. reflexivity.
Qed.

Lemma value_title_raises v e : value_title v = Raise e -> is_Exception e = true.
Proof. destruct v; simpl; intros [= <-]; reflexivity. Qed.

Lemma value_slice_to_raises n v e :
  value_slice_to n v = Raise e -> is_Exception e = true.
Proof. destruct v; simpl; intros [= <-]; reflexivity. Qed.

Lemma format_blog_post_raises post e :
  format_blog_post post = Raise e -> is_Exception e = true.
Proof.
  unfold format_blog_post.
  destruct (dict_get post "id" _) eqn:H1; [|intros [= <-]; eapply dict_get_raises, H1].
  destruct (dict_get post "title" _) eqn:H2; [|intros [= <-]; eapply dict_get_raises, H2].
  destruct (value_title _) eqn:H3; [|intros [= <-]; eapply value_title_raises, H3].
  destruct (dict_get post "body" _) eqn:H4; [|intros [= <-]; eapply dict_get_raises, H4].
  destruct (dict_get post "userId" _) eqn:H5; [|intros [= <-]; eapply dict_get_raises, H5].
  discriminate.
Qed.

Ltac respect_leaf :=
  solve
    [ apply respects_ret
    | apply respects_get_state
    | apply respects_log; reflexivity
    | apply respects_call; reflexivity
    | apply respects_raise; first [assumption | apply q_Exception; reflexivity]
    | apply respects_lift;
      first [apply dict_get_raises | apply value_slice_to_raises
            | apply format_blog_post_raises] ].

Ltac respect_step :=
  first
    [ respect_leaf
    | apply respects_bind; [respect_leaf | intros ?]
    | match goal with
      | |- respects _ _ _ (if negb ?b then _ else _) => destruct b; cbn [negb]
      | |- respects _ _ _ (if ?b then _ else _) => destruct b
      end ].

Ltac respect := repeat respect_step.

(** A [try] under [except Exception] whose handler does not raise again. *)
Ltac respect_guarded :=
  apply respects_try;
  [ | intros ? ? ? ?; eapply respects_except_Exception; [|eassumption];
      intros ?; respect ].

Lemma fetch_posts_data_respects : respects p q R (fetch_posts_data env).
Proof.
  unfold fetch_posts_data. apply respects_try; [respect|].
  intros e h Hq He.
  destruct (is_ConnectionError e); [injection He as <-; respect|].
  destruct (is_Timeout e); [injection He as <-; respect|].
  destruct (is_RequestException e); [injection He as <-; respect|].
  destruct (is_JSONDecodeError e); [injection He as <-; respect|].
  discriminate.
Qed.

Lemma launch_notepad_botcity_respects : respects p q R (launch_notepad_botcity env).
Proof. unfold launch_notepad_botcity. respect_guarded. respect. Qed.

Lemma launch_notepad_pyautogui_respects :
  respects p q R (launch_notepad_pyautogui env).
Proof. unfold launch_notepad_pyautogui. respect_guarded. respect. Qed.

Lemma launch_notepad_respects : respects p q R (launch_notepad env).
Proof.
  unfold launch_notepad. respect_guarded.
  apply respects_bind; [apply launch_notepad_botcity_respects|].
  intros [|]; [apply respects_ret|].
  apply respects_bind; [apply respects_log; reflexivity|]. intros _.
  apply launch_notepad_pyautogui_respects.
Qed.

Lemma type_text_botcity_respects text : respects p q R (type_text_botcity env text).
Proof. unfold type_text_botcity. respect_guarded. respect. Qed.

Lemma type_text_pyautogui_respects text :
  respects p q R (type_text_pyautogui env text).
Proof. unfold type_text_pyautogui. respect_guarded. respect. Qed.

Lemma type_text_hybrid_respects text : respects p q R (type_text_hybrid env text).
Proof.
  unfold type_text_hybrid. respect_guarded.
  apply respects_bind; [apply type_text_botcity_respects|].
  intros [|]; [apply respects_ret|].
  apply respects_bind; [apply respects_log; reflexivity|]. intros _.
  apply type_text_pyautogui_respects.
Qed.

Lemma prompt_respects key :
  respects p q R
    (try_except (bind (call env (Press key)) (fun _ => call env (Sleep 500)))
                (except_all (ret tt))).
Proof.
  apply respects_try; [respect|].
  intros e h _ He. eapply respects_except_all; [|exact He]. apply respects_ret.
Qed.

Lemma create_new_document_respects : respects p q R (create_new_document env).
Proof.
  unfold create_new_document. respect_guarded.
  respect. apply prompt_respects.
Qed.

Lemma close_notepad_respects : respects p q R (close_notepad env).
Proof.
  unfold close_notepad. respect_guarded.
  respect. apply prompt_respects.
Qed.

Lemma save_document_respects self filename :
  (forall path r, p (Called (PathExists path) r) = true) ->
  respects p q R (save_document self env filename).
Proof.
  intros p_exists. unfold save_document. respect_guarded.
  respect.
  apply respects_bind; [apply prompt_respects|]. intros _.
  apply respects_bind; [apply respects_call_with, p_exists|]. intros present.
  respect.
Qed.

Lemma process_single_post_respects self post i :
  (forall path r, p (Called (PathExists path) r) = true) ->
  respects p q R (process_single_post self env post i).
Proof.
  intros p_exists. unfold process_single_post. respect_guarded.
  respect.
  apply respects_bind; [apply type_text_hybrid_respects|].
  intros [|]; cbn [negb]; [|respect].
  apply respects_bind; [apply save_document_respects, p_exists|].
  intros [|]; cbn [negb]; [|respect].
  apply respects_bind; [|intros _; respect].
  destruct (i <? 10)%nat; [apply create_new_document_respects | apply respects_ret].
Qed.

Lemma list_created_files_respects self names :
  respects p q R (list_created_files self env names).
Proof.
  induction names as [|name rest IH]; simpl; [apply respects_ret|].
  respect. exact IH.
Qed.

Lemma announce_respects : respects p q R announce.
Proof. unfold announce. respect. Qed.

Lemma step_fetch_respects : respects p q R (step_fetch env).
Proof.
  unfold step_fetch. apply respects_try; [apply fetch_posts_data_respects|].
  intros e h Hq He. unfold except_Exception in He.
  destruct (is_Exception e); [injection He as <-|discriminate]. respect.
Qed.

Lemma step_launch_respects : respects p q R (step_launch env).
Proof.
  unfold step_launch. apply respects_try.
  - apply respects_bind; [apply launch_notepad_respects|].
    intros [|]; cbn [negb]; respect.
  - intros e h Hq He. unfold except_Exception in He.
    destruct (is_Exception e); [injection He as <-|discriminate]. respect.
Qed.

Lemma on_abort_respects e h :
  q e = true -> on_abort env e = Some h -> respects p q R h.
Proof.
  unfold on_abort. intros Hq He.
  destruct (is_KeyboardInterrupt e).
  - injection He as <-. respect. apply close_notepad_respects.
  - destruct (is_Exception e); [injection He as <-|discriminate].
    respect. apply respects_bind; [apply close_notepad_respects|].
    intros _. respect.
Qed.

Lemma final_report_respects self : respects p q R (final_report self env).
Proof.
  unfold final_report. respect.
  apply respects_bind; [apply list_created_files_respects|]. intros _.
  respect.
Qed.

End Respects.

(** ** Primary method and fallback *)

(** A [try] under [except Exception] whose handler returns lets no
    [Exception] out. *)
Lemma guarded_lets_no_Exception_out {A} (m : M A) (h : exn -> M A) st e :
  (forall e' st', exists a, result (h e' st') = Ok a) ->
  result (try_except m (except_Exception h) st) = Raise e ->
  is_Exception e = false.
Proof.
  intros Hh. rewrite try_except_run.
  destruct (result (m st)) as [a|e'] eqn:Hr; [rewrite Hr; discriminate|].
  unfold except_Exception. destruct (is_Exception e') eqn:He'.
  - cbn [result]. destruct (Hh e' (final (m st))) as [a ->]. discriminate.
  - rewrite Hr. intros [= <-]. exact He'.
Qed.

Lemma log_then_ret_returns {A} lvl msg (a : A) st :
  exists a', result ((log lvl msg ;;; ret a) st) = Ok a'.
Proof. exists a. reflexivity. Qed.

Lemma launch_notepad_botcity_lets_no_Exception_out env st e :
  result (launch_notepad_botcity env st) = Raise e -> is_Exception e = false.
Proof.
  apply guarded_lets_no_Exception_out. intros; apply log_then_ret_returns.
Qed.

Lemma launch_notepad_pyautogui_lets_no_Exception_out env st e :
  result (launch_notepad_pyautogui env st) = Raise e -> is_Exception e = false.
Proof.
  apply guarded_lets_no_Exception_out. intros; apply log_then_ret_returns.
Qed.

Lemma type_text_botcity_lets_no_Exception_out env text st e :
  result (type_text_botcity env text st) = Raise e -> is_Exception e = false.
Proof.
  apply guarded_lets_no_Exception_out. intros; apply log_then_ret_returns.
Qed.

Lemma type_text_pyautogui_lets_no_Exception_out env text st e :
  result (type_text_pyautogui env text st) = Raise e -> is_Exception e = false.
Proof.
  apply guarded_lets_no_Exception_out. intros; apply log_then_ret_returns.
Qed.

(** The shape shared by [launch_notepad] and [type_text_hybrid]. *)
Lemma fallback_chain (primary fallback : M bool) notice h st :
  (forall e, result (primary st) = Raise e -> is_Exception e = false) ->
  (forall e, result (fallback (final (primary st))) = Raise e ->
             is_Exception e = false) ->
  try_except
    (done <- primary ;;
     if done : bool then ret true else log INFO notice ;;; fallback)
    (except_Exception h) st
  = match result (primary st) with
    | Ok false => after_notice (primary st) notice (fallback (final (primary st)))
    | _ => primary st
    end.
Proof.
  intros Hp Hf. unfold try_except, bind, after_notice, except_Exception.
  destruct (primary st) as [[[|]|e] evs st1]; cbn in *.
  - rewrite app_nil_r. reflexivity.
  - destruct (fallback st1) as [[b|e] evs2 st2]; cbn in *; [reflexivity|].
    rewrite (Hf e eq_refl). reflexivity.
  - rewrite (Hp e eq_refl). reflexivity.
Qed.

(** C6.  For the launch and for the text entry alike, the run of the combined
    operation is the run of the BotCity method alone whenever that method
    returns [True] (or is interrupted), and is that run followed by the notice
    and by the run of the PyAutoGUI method whenever the BotCity method returns
    [False]; so the fallback runs exactly when the primary method has failed.
    The combined operation returns [True] exactly when the primary method does,
    or it fails and the fallback does. *)
Theorem fallback_exactly_on_failure env st text :
  (launch_notepad env st
   = match result (launch_notepad_botcity env st) with
     | Ok false =>
         after_notice (launch_notepad_botcity env st)
           " Trying PyAutoGUI fallback..."
           (launch_notepad_pyautogui env (final (launch_notepad_botcity env st)))
     | _ => launch_notepad_botcity env st
     end)
  /\ succeeded (launch_notepad env st)
     = succeeded (launch_notepad_botcity env st)
       || gave_up (launch_notepad_botcity env st)
          && succeeded (launch_notepad_pyautogui env
                          (final (launch_notepad_botcity env st)))
  /\ (type_text_hybrid env text st
      = match result (type_text_botcity env text st) with
        | Ok false =>
            after_notice (type_text_botcity env text st)
              " Using PyAutoGUI for typing..."
              (type_text_pyautogui env text
                 (final (type_text_botcity env text st)))
        | _ => type_text_botcity env text st
        end)
  /\ succeeded (type_text_hybrid env text st)
     = succeeded (type_text_botcity env text st)
       || gave_up (type_text_botcity env text st)
          && succeeded (type_text_pyautogui env text
                          (final (type_text_botcity env text st))).
Proof.
  assert (Hlaunch : launch_notepad env st
   = match result (launch_notepad_botcity env st) with
     | Ok false =>
         after_notice (launch_notepad_botcity env st)
           " Trying PyAutoGUI fallback..."
           (launch_notepad_pyautogui env (final (launch_notepad_botcity env st)))
     | _ => launch_notepad_botcity env st
     end).
  { unfold launch_notepad. apply fallback_chain.
    - apply launch_notepad_botcity_lets_no_Exception_out.
    - apply launch_notepad_pyautogui_lets_no_Exception_out. }
  assert (Htype : type_text_hybrid env text st
      = match result (type_text_botcity env text st) with
        | Ok false =>
            after_notice (type_text_botcity env text st)
              " Using PyAutoGUI for typing..."
              (type_text_pyautogui env text
                 (final (type_text_botcity env text st)))
        | _ => type_text_botcity env text st
        end).
  { unfold type_text_hybrid. apply fallback_chain.
    - apply type_text_botcity_lets_no_Exception_out.
    - apply type_text_pyautogui_lets_no_Exception_out. }
  split_and!; [exact Hlaunch | | exact Htype | ].
  - rewrite Hlaunch. unfold succeeded, gave_up.
    destruct (launch_notepad_botcity env st) as [[[|]|e] evs st1]; reflexivity.
  - rewrite Htype. unfold succeeded, gave_up.
    destruct (type_text_botcity env text st) as [[[|]|e] evs st1]; reflexivity.
Qed.

(** ** The text of a post and the name of its file *)

(** A position prints the same as an [int] and as a count. *)
Lemma pretty_Z_of_nat (i : nat) : pretty (Z.of_nat i) = pretty i.
Proof. destruct i; reflexivity. Qed.

Lemma dict_get_obj fields key default :
  dict_get (Obj fields) key default = Ok (field_or fields key default).
Proof. unfold dict_get, field_or. destruct (fields !! key); reflexivity. Qed.

Lemma format_blog_post_obj fields title :
  field_or fields "title" (VStr "Untitled") = VStr title ->
  format_blog_post (Obj fields)
  = Ok (blog_template
          (py_str (field_or fields "id" (VStr "Unknown")))
          (str_title title)
          (py_str (field_or fields "userId" (VStr "Unknown")))
          (py_str (field_or fields "body" (VStr "No content available")))).
Proof.
  intros Htitle. unfold format_blog_post.
  rewrite !dict_get_obj, Htitle. reflexivity.
Qed.


Ltac pick_call H :=
  apply sublist_subseteq in H;
  match goal with
  | Hin : _ ∈ calls _ |- _ => apply H in Hin;
      unfold typing_ops, save_ops, new_document_ops in Hin;
      rewrite ?elem_of_app, ?elem_of_cons, ?elem_of_nil in Hin;
      repeat (destruct Hin as [Hin|Hin]);
      first [ discriminate Hin | contradiction
            | injection Hin; intros; subst; reflexivity ]
  end.


(** C9, as stated, fails on the dictionary [{"title": null}]: formatting it
    raises. *)
Lemma null_title_raises :
  ~ exists text, format_blog_post (Obj (<["title" := VNone]> ∅)) = Ok text.
Proof. intros [text H]. vm_compute in H. discriminate. Qed.

(** ** Saving *)

(** Case analysis on the answers of the environment, call after call. *)
Ltac answer env :=
  match goal with
  | |- context [env ?n ?o] =>
      let a := fresh "a" in
      let e := fresh "e" in
      destruct (env n o) as [a|e]; [try destruct a|]; cbn
  | |- context [is_Exception ?e] => destruct (is_Exception e) eqn:?; cbn
  end.

(** C10, as stated, fails when the keystroke that answers the overwrite
    prompt raises: [save_document] still returns [True] if the file is found,
    although a step of the sequence has raised. *)
Lemma saved_though_a_step_raised :
  ~ (forall o e,
       Called o (Raise e)
         ∈ emitted (save_document desk (raising_at 6 fail_safe (serving []))
                      "post 1.txt" start) ->
       result (save_document desk (raising_at 6 fail_safe (serving []))
                 "post 1.txt" start) = Ok false).
Proof.
  intros H. specialize (H (Press "enter") fail_safe).
  assert (Hin : Called (Press "enter") (Raise fail_safe)
                  ∈ emitted (save_document desk
                               (raising_at 6 fail_safe (serving []))
                               "post 1.txt" start)).
  { apply list_elem_of_lookup. exists 7%nat. reflexivity. }
  apply H in Hin. vm_compute in Hin. discriminate.
Qed.

(** A save that returns [True] has seen its file in place, once. *)
Lemma save_document_found self env st filename :
  result (save_document self env filename st) = Ok true ->
  files_found (emitted (save_document self env filename st))
  = [project_path self filename].
Proof.
  unfold save_document, try_except, bind, call, log, ret, except_Exception,
    except_all.
  cbn. repeat answer env.
  all: intros; simplify_eq; done.
Qed.

(** C10, amended.  [save_document] returns [True] only after the save
    keystrokes have been sent and the existence check has found the file; it
    returns [False], with an ERROR record as its last act, when the check does
    not find the file and when the last call it made raised an [Exception];
    what the answer to the overwrite prompt raises is ignored, and an
    exception that is not an [Exception] is not turned into [False]. *)
Theorem save_document_verdict self env st filename :
  let r := save_document self env filename st in
  let path := project_path self filename in
  (result r = Ok true ->
     files_found (emitted r) = [path]
     /\ exists prompt,
          calls (emitted r)
          = (save_keys path ++ prompt ++ [PathExists path; StatSize path])%list)
  /\ (files_missed (emitted r) = [path] ->
      result r = Ok false
      /\ last (emitted r)
         = Some (Logged ERROR (" File not found after save: " ++ filename)))
  /\ (forall e,
        last_call_raised (emitted r) = Some e -> is_Exception e = true ->
        result r = Ok false
        /\ last (emitted r)
           = Some (Logged ERROR (" Save failed for " ++ filename ++ ": "
                                 ++ exn_text e)))
  /\ (forall e, result r = Raise e -> is_Exception e = false).
Proof.
  cbv zeta.
  unfold save_document, try_except, bind, call, log, ret, except_Exception,
    except_all.
  cbn. repeat answer env.
  all: split_and!; intros; simplify_eq; try done; try congruence.
  all: try (split; [reflexivity|]).
  all: first [ by exists [Press "enter"; Sleep 500] | by exists [Press "enter"] ].
Qed.

Lemma save_document_verdict_witness :
  files_found (emitted (save_document desk (serving []) "post 1.txt" start))
  = ["C:\Users\op\Desktop\tjm-project\post 1.txt"].
Proof.
  destruct (save_document_verdict desk (serving []) start "post 1.txt")
    as [Hfound _].
  apply Hfound. reflexivity.
Defined.

(** ** Instances of the judgement *)

Lemma same_counters_refl st : same_counters st st.
Proof. split; reflexivity. Qed.

Lemma same_counters_trans st1 st2 st3 :
  same_counters st1 st2 -> same_counters st2 st3 -> same_counters st1 st3.
Proof. intros [H1 H2] [H3 H4]. split; congruence. Qed.

Lemma same_counters_tick st : same_counters st (tick st).
Proof. split; reflexivity. Qed.

Lemma no_mark_calls o r : is_exists_check o = false -> no_mark (Called o r) = true.
Proof. reflexivity. Qed.

Lemma no_mark_logs lvl msg :
  is_iteration_mark msg = false -> no_mark (Logged lvl msg) = true.
Proof. intros H. unfold no_mark. simpl. rewrite H. reflexivity. Qed.

Lemma no_mark_exists path r : no_mark (Called (PathExists path) r) = true.
Proof. reflexivity. Qed.

Lemma no_file_calls o r : is_exists_check o = false -> no_file (Called o r) = true.
Proof. destruct o; try reflexivity. discriminate. Qed.

Lemma no_file_logs lvl msg :
  is_iteration_mark msg = false -> no_file (Logged lvl msg) = true.
Proof. reflexivity. Qed.

Lemma Exception_is_no_interrupt e :
  is_Exception e = true -> is_KeyboardInterrupt e = false.
Proof.
  unfold is_Exception, is_KeyboardInterrupt.
  destruct (exn_cls e); intros; congruence.
Qed.

(** The side conditions of the rules, for the instances used below. *)
Ltac side_conditions :=
  first
    [ exact same_counters_refl | exact same_counters_trans
    | exact same_counters_tick
    | exact no_mark_calls | exact no_mark_logs | exact no_mark_exists
    | exact no_file_calls | exact no_file_logs
    | assumption
    | intros; exact I
    | intros; reflexivity
    | intros; assumption ].

Lemma iterations_app evs1 evs2 :
  iterations (evs1 ++ evs2) = (iterations evs1 ++ iterations evs2)%list.
Proof. apply omap_app. Qed.

Lemma files_found_app evs1 evs2 :
  files_found (evs1 ++ evs2) = (files_found evs1 ++ files_found evs2)%list.
Proof. apply omap_app. Qed.

Lemma no_mark_iterations evs : forallb no_mark evs = true -> iterations evs = [].
Proof.
  induction evs as [|ev evs IH]; [reflexivity|].
  cbn [forallb]. intros [Hev Hevs]%andb_true_iff.
  unfold iterations in *. simpl. unfold no_mark in Hev.
  destruct (opens_iteration ev); [discriminate|]. apply IH, Hevs.
Qed.

Lemma no_file_files_found evs : forallb no_file evs = true -> files_found evs = [].
Proof.
  induction evs as [|ev evs IH]; [reflexivity|].
  cbn [forallb]. intros [Hev Hevs]%andb_true_iff.
  unfold files_found in *. simpl. unfold no_file in Hev.
  destruct (found_by ev); [discriminate|]. apply IH, Hevs.
Qed.

(** A run that respects [is_Exception] and lets no [Exception] out returns. *)
Lemma close_notepad_returns env st :
  uninterrupted env -> result (close_notepad env st) = Ok tt.
Proof.
  intros Henv.
  destruct (result (close_notepad env st)) as [[]|e] eqn:Hr; [reflexivity|].
  assert (is_Exception e = true) as He.
  { eapply (close_notepad_respects env (fun _ => true) is_Exception any_state);
      [side_conditions..|exact Hr]. }
  assert (is_Exception e = false) as He'.
  { revert Hr. apply guarded_lets_no_Exception_out.
    intros e' st'. exists tt. reflexivity. }
  congruence.
Qed.

Lemma create_new_document_returns env st :
  uninterrupted env -> result (create_new_document env st) = Ok tt.
Proof.
  intros Henv.
  destruct (result (create_new_document env st)) as [[]|e] eqn:Hr; [reflexivity|].
  assert (is_Exception e = true) as He.
  { eapply (create_new_document_respects env (fun _ => true) is_Exception any_state);
      [side_conditions..|exact Hr]. }
  assert (is_Exception e = false) as He'.
  { revert Hr. apply guarded_lets_no_Exception_out.
    intros e' st'. exists tt. reflexivity. }
  congruence.
Qed.

(** ** Runs, step by step *)

Lemma bind_ok {A B} (m : M A) (k : A -> M B) st a :
  result (m st) = Ok a ->
  bind m k st
  = {| result := result (k a (final (m st)));
       emitted := emitted (m st) ++ emitted (k a (final (m st)));
       final := final (k a (final (m st))) |}.
Proof. intros H. rewrite bind_run, H. reflexivity. Qed.

Lemma bind_raise {A B} (m : M A) (k : A -> M B) st e :
  result (m st) = Raise e ->
  bind m k st
  = {| result := Raise e; emitted := emitted (m st); final := final (m st) |}.
Proof. intros H. rewrite bind_run, H. reflexivity. Qed.

Lemma try_ok {A} (m : M A) handler st a :
  result (m st) = Ok a -> try_except m handler st = m st.
Proof. intros H. rewrite try_except_run, H. reflexivity. Qed.

Lemma try_caught {A} (m : M A) handler st e h :
  result (m st) = Raise e -> handler e = Some h ->
  try_except m handler st
  = {| result := result (h (final (m st)));
       emitted := emitted (m st) ++ emitted (h (final (m st)));
       final := final (h (final (m st))) |}.
Proof. intros H Hh. rewrite try_except_run, H, Hh. reflexivity. Qed.

Lemma try_passed {A} (m : M A) handler st e :
  result (m st) = Raise e -> handler e = None ->
  try_except m handler st = m st.
Proof. intros H Hh. rewrite try_except_run, H, Hh. reflexivity. Qed.

Lemma step_fetch_failure env st e :
  result (fetch_posts_data env st) = Raise e -> is_Exception e = true ->
  step_fetch env st
  = {| result := Raise e;
       emitted := emitted (fetch_posts_data env st)
                  ++ [Logged ERROR (" API fetch failed: " ++ exn_text e)];
       final := final (fetch_posts_data env st) |}.
Proof.
  intros Hr He. unfold step_fetch.
  erewrite try_caught; [|exact Hr|unfold except_Exception; rewrite He; reflexivity].
  reflexivity.
Qed.

Lemma run_after_fetch_failure self env st e :
  result (fetch_posts_data env st) = Raise e -> is_Exception e = true ->
  run_automation self env st
  = {| result :=
         match result (close_notepad env (final (fetch_posts_data env st))) with
         | Ok _ => Raise e
         | Raise e' => Raise e'
         end;
       emitted :=
         (emitted (announce st)
          ++ emitted (fetch_posts_data env st)
          ++ [Logged ERROR (" API fetch failed: " ++ exn_text e)])
         ++ Logged ERROR (" Automation failed: " ++ exn_text e)
            :: emitted (close_notepad env (final (fetch_posts_data env st)));
       final := final (close_notepad env (final (fetch_posts_data env st))) |}.
Proof.
  intros Hr He.
  pose proof (step_fetch_failure env st e Hr He) as Hstep.
  assert (Hres : result (step_fetch env st) = Raise e)
    by (rewrite Hstep; reflexivity).
  assert (Hbody :
    (announce ;;;
     posts_data <- step_fetch env ;;
     step_launch env ;;;
     step_process self env posts_data ;;;
     close_notepad env ;;;
     final_report self env) st
    = {| result := Raise e;
         emitted := emitted (announce st) ++ emitted (step_fetch env st);
         final := final (step_fetch env st) |}).
  { rewrite (bind_ok announce _ st tt eq_refl).
    change (final (announce st)) with st.
    rewrite (bind_raise (step_fetch env) _ st e Hres). reflexivity. }
  unfold run_automation.
  rewrite (try_caught _ _ st e
             (log ERROR (" Automation failed: " ++ exn_text e) ;;;
              close_notepad env ;;; raise e)).
  - rewrite Hbody, Hstep. cbn [result emitted final].
    rewrite !bind_run. cbn [result emitted final log].
    destruct (close_notepad env (final (fetch_posts_data env st)))
      as [[[]|e'] evs st']; cbn [result emitted final raise];
      rewrite ?app_nil_r; reflexivity.
  - rewrite Hbody. reflexivity.
  - unfold on_abort. rewrite (Exception_is_no_interrupt e He), He. reflexivity.
Qed.

Lemma serving_uninterrupted body : uninterrupted (serving body).
Proof. intros n o e. destruct o; discriminate. Qed.

Lemma raising_at_uninterrupted k e env :
  is_Exception e = true -> uninterrupted env -> uninterrupted (raising_at k e env).
Proof.
  intros He Henv n o e'. unfold raising_at.
  destruct (n =? k)%nat; [intros [= <-]; exact He | apply Henv].
Qed.

Lemma fetch_posts_data_raises_Exception env st e :
  uninterrupted env ->
  result (fetch_posts_data env st) = Raise e -> is_Exception e = true.
Proof.
  intros Henv.
  eapply (fetch_posts_data_respects env (fun _ => true) is_Exception any_state);
    side_conditions.
Qed.

(** ** A failed fetch *)

(** C2.  In every run in which the fetch fails (and which no operator
    interrupt disturbs, the case of C8), the exception of the fetch is raised
    out of [run_automation], no iteration of the loop is opened, and the only
    calls made are those of the fetch and of the closing attempt: Notepad is
    not launched, nothing is typed and nothing is saved. *)
Theorem fetch_failure_aborts self env st e :
  uninterrupted env ->
  result (fetch_posts_data env st) = Raise e ->
  result (run_automation self env st) = Raise e
  /\ iterations (emitted (run_automation self env st)) = []
  /\ calls (emitted (run_automation self env st))
       `sublist_of` (fetch_ops ++ close_ops)%list.
Proof.
  intros Henv Hr.
  pose proof (fetch_posts_data_raises_Exception env st e Henv Hr) as He.
  rewrite (run_after_fetch_failure self env st e Hr He).
  cbn [result emitted final]. split_and!.
  - rewrite (close_notepad_returns env _ Henv). reflexivity.
  - apply no_mark_iterations. rewrite !forallb_app. cbn [forallb].
    assert (Hfetch : respects no_mark any_exn any_state (fetch_posts_data env))
      by (apply fetch_posts_data_respects; side_conditions).
    assert (Hclose : respects no_mark any_exn any_state (close_notepad env))
      by (apply close_notepad_respects; side_conditions).
    destruct (Hfetch st) as (-> & _ & _).
    destruct (Hclose (final (fetch_posts_data env st))) as (-> & _ & _).
    reflexivity.
  - rewrite !calls_app. change (calls (emitted (announce st))) with (@nil op).
    change (calls [Logged ERROR (" API fetch failed: " ++ exn_text e)])
      with (@nil op).
    rewrite app_nil_l, app_nil_r.
    change (calls (Logged ERROR (" Automation failed: " ++ exn_text e)
                   :: ?evs)) with (calls evs).
    apply sublist_app; [apply fetch_posts_data_within|].
    apply close_notepad_within.
Qed.

Lemma fetch_failure_aborts_witness :
  result (run_automation desk (raising_at 0 connection_refused (serving [])) start)
  = Raise connection_refused.
Proof.
  apply (fetch_failure_aborts desk (raising_at 0 connection_refused (serving []))
           start connection_refused).
  - apply raising_at_uninterrupted; [reflexivity | apply serving_uninterrupted].
  - reflexivity.
Defined.

(** ** One item of the loop *)

Section Item.

Variable self : bot.
Variable env : environment.

Lemma guarded_new_document_run st :
  try_except (create_new_document env) (except_all (ret tt)) st
  = {| result := Ok tt;
       emitted := emitted (create_new_document env st);
       final := final (create_new_document env st) |}.
Proof.
  unfold try_except, except_all, ret.
  destruct (create_new_document env st) as [[[]|e] evs st1]; cbn;
    rewrite ?app_nil_r; reflexivity.
Qed.

Lemma iteration_mark_is_mark i : is_iteration_mark (iteration_mark i) = true.
Proof. reflexivity. Qed.

Lemma process_item_run post i st :
  let p := process_single_post self env post i st in
  let r := process_item self env post i st in
  successful_posts (final r)
  = (successful_posts st + (if succeeded p then 1 else 0))%nat
  /\ (failed_posts st <= failed_posts (final r))%nat
  /\ files_found (emitted r) = files_found (emitted p)
  /\ iterations (emitted r) = [iteration_mark i]
  /\ (exists rest, emitted r = Logged INFO (iteration_mark i) :: emitted p ++ rest)%list
  /\ (uninterrupted env ->
      result r = Ok Next
      /\ match result p with
         | Ok true => True
         | Ok false => (failed_posts st < failed_posts (final r))%nat
         | Raise e =>
             failed_posts (final r) = S (failed_posts st)
             /\ Logged ERROR (" Post " ++ pretty i ++ " failed: " ++ exn_text e)
                  ∈ emitted r
         end).
Proof.
  cbv zeta.
  assert (Hp : respects no_mark any_exn same_counters
                 (process_single_post self env post i))
    by (apply process_single_post_respects; side_conditions).
  assert (Hq : uninterrupted env ->
               respects (fun _ => true) is_Exception any_state
                 (process_single_post self env post i))
    by (intros; apply process_single_post_respects; side_conditions).
  assert (Hn : respects no_mark any_exn same_counters (create_new_document env))
    by (apply create_new_document_respects; side_conditions).
  assert (Hf : respects no_file any_exn any_state (create_new_document env))
    by (apply create_new_document_respects; side_conditions).
  specialize (Hp st). 
  assert (Hq' : uninterrupted env -> forall e,
            result (process_single_post self env post i st) = Raise e ->
            is_Exception e = true)
    by (intros Henv; apply (Hq Henv st)).
  clear Hq.
  pose proof (no_mark_iterations _ (proj1 Hp)) as Hmark.
  destruct Hp as (_ & [Hs Hf'] & _).
  unfold process_item, try_except, bind, call, log, ret, incr_successful,
    incr_failed, except_all, succeeded.
  remember (process_single_post self env post i st) as p eqn:Ep.
  destruct p as [[b|e] evp stp]; cbn [result emitted final] in *;
    [destruct b; cbn [result emitted final clock successful_posts failed_posts];
     destruct (env (clock stp) (Sleep 1000)) as [[]|e] eqn:Hsleep|];
    cbn [result emitted final clock successful_posts failed_posts tick];
    try (destruct (is_KeyboardInterrupt e) eqn:Hki;
         [|destruct (is_Exception e) eqn:Hex];
         cbn [result emitted final clock successful_posts failed_posts tick]);
    try match goal with
        | |- context [create_new_document env ?s] =>
            pose proof (no_mark_iterations _ (proj1 (Hn s))) as Hn1;
            pose proof (no_file_files_found _ (proj1 (Hf s))) as Hf1;
            destruct (Hn s) as (_ & [Hn2 Hn3] & _);
            remember (create_new_document env s) as d eqn:Ed;
            destruct d as [[[]|e2] evd std];
            cbn [result emitted final clock successful_posts failed_posts tick] in *
        end.
  all: split_and!.
  all: try lia.
  all: try (rewrite !files_found_app, ?Hf1; cbn; rewrite ?app_nil_r; reflexivity).
  all: try (rewrite !iterations_app, Hmark, ?Hn1; reflexivity).
  all: try (rewrite <- ?app_assoc; eexists; reflexivity).
  all: try (exists []; rewrite app_nil_r; reflexivity).
  all: intros Henv.
  all: try (apply Henv in Hsleep).
  all: try (specialize (Hq' Henv e eq_refl)).
  all: try (rewrite Exception_is_no_interrupt in Hki by assumption).
  all: try congruence.
  all: split_and!; try reflexivity; try exact I; try lia.
  all: rewrite ?elem_of_app, ?elem_of_cons; auto 10.
Qed.

End Item.

(** ** The loop *)

Section Loop.

Variable self : bot.
Variable env : environment.

(** Without interrupt the loop opens one iteration per element, in order,
    and returns. *)
Lemma process_posts_uninterrupted posts i st :
  uninterrupted env ->
  result (process_posts self env posts i st) = Ok tt
  /\ iterations (emitted (process_posts self env posts i st))
     = map iteration_mark (seq i (length posts)).
Proof.
  intros Henv. revert i st.
  induction posts as [|post rest IH]; intros i st; [split; reflexivity|].
  cbn [process_posts length seq map].
  destruct (process_item_run self env post i st)
    as (_ & _ & _ & Hmarks & _ & Hnext).
  destruct (Hnext Henv) as [Hres _].
  rewrite (bind_ok _ _ st Next Hres). cbn [result emitted final].
  destruct (IH (S i) (final (process_item self env post i st))) as [-> Hrest].
  split; [reflexivity|].
  rewrite iterations_app, Hmarks, Hrest. reflexivity.
Qed.

(** A post that is processed with success has been seen in place under its
    own file name, and under no other. *)
Lemma process_single_post_found post i st :
  result (process_single_post self env post i st) = Ok true ->
  files_found (emitted (process_single_post self env post i st))
  = [item_file self post i].
Proof.
  assert (Htype : forall text st',
            files_found (emitted (type_text_hybrid env text st')) = []).
  { intros text st'. apply no_file_files_found.
    apply (type_text_hybrid_respects env no_file any_exn any_state);
      side_conditions. }
  assert (Hnew : forall st',
            files_found (emitted (create_new_document env st')) = []).
  { intros st'. apply no_file_files_found.
    apply (create_new_document_respects env no_file any_exn any_state);
      side_conditions. }
  unfold process_single_post, item_file, try_except, bind, lift, log, ret, raise,
    except_Exception.
  destruct (dict_get post "id" (VInt (Z.of_nat i))) as [post_id|e0] eqn:Hid;
    cbn [result emitted final];
    [|destruct (is_Exception e0); cbn; discriminate].
  destruct (dict_get post "title" (VStr "No title")) as [title|e1];
    cbn [result emitted final];
    [|destruct (is_Exception e1); cbn; discriminate].
  destruct (value_slice_to 50 title) as [preview|e2];
    cbn [result emitted final];
    [|destruct (is_Exception e2); cbn; discriminate].
  destruct (format_blog_post post) as [text|e3];
    cbn [result emitted final];
    [|destruct (is_Exception e3); cbn; discriminate].
  specialize (Htype text st).
  remember (type_text_hybrid env text st) as t eqn:Et.
  destruct t as [[[|]|e4] evt stt]; cbn [result emitted final negb] in *;
    [| discriminate | destruct (is_Exception e4); cbn; discriminate].
  pose proof (save_document_found self env stt (post_filename post_id))
    as Hsaved.
  remember (save_document self env (post_filename post_id) stt) as s eqn:Es.
  destruct s as [[[|]|e5] evs sts]; cbn [result emitted final negb] in *;
    [| discriminate | destruct (is_Exception e5); cbn; discriminate].
  pose proof (Hsaved eq_refl) as Hfound.
  destruct (i <? 10)%nat.
  - specialize (Hnew sts).
    remember (create_new_document env sts) as d eqn:Ed.
    destruct d as [[[]|e6] evd std]; cbn [result emitted final] in *.
    + intros _. rewrite !files_found_app, Htype, Hfound, Hnew. reflexivity.
    + destruct (is_Exception e6); cbn; discriminate.
  - cbn [result emitted final]. intros _.
    rewrite !files_found_app, Htype, Hfound. reflexivity.
Qed.


End Loop.

(** ** The shape of a run whose fetch succeeds *)

Lemma try_bind_ok {A B} (m : M A) (k : A -> M B) handler st a :
  result (m st) = Ok a ->
  try_except (bind m k) handler st
  = prepend (emitted (m st)) (try_except (k a) handler (final (m st))).
Proof.
  unfold try_except, bind, prepend.
  destruct (m st) as [[a'|e] evs st1]; cbn; [|discriminate].
  intros [= ->].
  destruct (k a st1) as [[b|e] evs2 st2]; cbn; [reflexivity|].
  destruct (handler e) as [h|]; [|reflexivity].
  destruct (h st2) as [r evs3 st3]; cbn. rewrite app_assoc. reflexivity.
Qed.

Lemma try_bind_raise {A B} (m : M A) (k : A -> M B) handler handler' st e :
  result (m st) = Raise e ->
  (forall e, handler e = handler' e) ->
  try_except (bind m k) handler st
  = match handler' e with
    | Some h => prepend (emitted (m st)) (h (final (m st)))
    | None =>
        {| result := Raise e; emitted := emitted (m st); final := final (m st) |}
    end.
Proof.
  unfold try_except, bind, prepend.
  destruct (m st) as [[a'|e'] evs st1]; cbn; [discriminate|].
  intros [= ->] Hh. rewrite Hh.
  destruct (handler' e) as [h|]; [|reflexivity].
  destruct (h st1) as [r evs3 st3]; reflexivity.
Qed.

Lemma bind_assoc {A B C} (m : M A) (k : A -> M B) (k' : B -> M C) st :
  bind (bind m k) k' st = bind m (fun a => bind (k a) k') st.
Proof.
  unfold bind.
  destruct (m st) as [[a|e] evs st1]; cbn; [|reflexivity].
  destruct (k a st1) as [[b|e] evs2 st2]; cbn; [|reflexivity].
  destruct (k' b st2) as [r evs3 st3]; cbn. rewrite app_assoc. reflexivity.
Qed.

Lemma prepend_prepend {A} evs1 evs2 (r : run A) :
  prepend evs1 (prepend evs2 r) = prepend (evs1 ++ evs2) r.
Proof. unfold prepend. cbn. rewrite app_assoc. reflexivity. Qed.

Section Shape.

Variable self : bot.
Variable env : environment.

Lemma step_fetch_ok st posts :
  result (fetch_posts_data env st) = Ok posts ->
  step_fetch env st = fetch_posts_data env st.
Proof. intros H. unfold step_fetch. eapply try_ok, H. Qed.

Lemma step_launch_ok st :
  result (launch_notepad env st) = Ok true ->
  step_launch env st
  = {| result := Ok tt;
       emitted := emitted (launch_notepad env st);
       final := final (launch_notepad env st) |}.
Proof.
  intros H. unfold step_launch, try_except, bind.
  destruct (launch_notepad env st) as [[[|]|e] evs st1]; cbn in *;
    try discriminate.
  rewrite app_nil_r. reflexivity.
Qed.

Lemma run_after_fetch st posts :
  result (fetch_posts_data env st) = Ok posts ->
  run_automation self env st
  = prepend (emitted (announce st) ++ emitted (fetch_posts_data env st))
      (after_fetch self env posts (final (fetch_posts_data env st))).
Proof.
  intros Hposts. unfold run_automation, after_fetch.
  rewrite (try_bind_ok announce _ _ st tt eq_refl).
  change (final (announce st)) with st.
  assert (Hstep : result (step_fetch env st) = Ok posts)
    by (rewrite (step_fetch_ok st posts Hposts); exact Hposts).
  rewrite (try_bind_ok (step_fetch env) _ _ st posts Hstep).
  rewrite prepend_prepend, (step_fetch_ok st posts Hposts). reflexivity.
Qed.

Lemma after_launch st posts :
  result (step_launch env st) = Ok tt ->
  after_fetch self env posts st
  = prepend (emitted (step_launch env st)
             ++ [Logged INFO (" Processing " ++ pretty (length posts)
                              ++ " posts...")])
      (try_except
         (process_posts self env posts 1 ;;;
          close_notepad env ;;;
          final_report self env)
         (on_abort env)
         (counters_reset (final (step_launch env st)))).
Proof.
  intros Hlaunch. unfold after_fetch.
  rewrite (try_bind_ok (step_launch env) _ _ st tt Hlaunch).
  unfold step_process.
  assert (Hassoc : forall st',
    try_except
      ((reset_counters ;;;
        log INFO (" Processing " ++ pretty (length posts) ++ " posts...") ;;;
        process_posts self env posts 1) ;;;
       close_notepad env ;;; final_report self env) (on_abort env) st'
    = try_except
        (reset_counters ;;;
         log INFO (" Processing " ++ pretty (length posts) ++ " posts...") ;;;
         process_posts self env posts 1 ;;;
         close_notepad env ;;; final_report self env) (on_abort env) st').
  { intros st'. unfold try_except.
    rewrite bind_assoc.
    replace ((reset_counters ;;;
              (log INFO (" Processing " ++ pretty (length posts) ++ " posts...") ;;;
               process_posts self env posts 1) ;;;
              close_notepad env ;;; final_report self env) st')
      with ((reset_counters ;;;
             log INFO (" Processing " ++ pretty (length posts) ++ " posts...") ;;;
             process_posts self env posts 1 ;;;
             close_notepad env ;;; final_report self env) st');
      [reflexivity|].
    unfold bind at 1 5. cbn [reset_counters result emitted final].
    rewrite bind_assoc. reflexivity. }
  rewrite Hassoc.
  rewrite (try_bind_ok reset_counters _ _ _ tt eq_refl).
  rewrite (try_bind_ok (log INFO _) _ _ _ tt eq_refl).
  rewrite !prepend_prepend. cbn [reset_counters log emitted final].
  rewrite app_nil_r. reflexivity.
Qed.

End Shape.

(** ** The first ten records, one iteration each *)

Lemma fetch_posts_data_decoded env st body :
  decoded (emitted (fetch_posts_data env st)) = Some body ->
  result (fetch_posts_data env st) = Ok (take 10 body).
Proof.
  unfold fetch_posts_data, try_except, bind, call, log, ret, raise. cbn.
  destruct (env (clock st) (RequestsGet api_url 30)) as [[]|e1]; cbn.
  - destruct (env (S (clock st)) RaiseForStatus) as [[]|e2]; cbn.
    + destruct (env (S (S (clock st))) ResponseJson) as [posts|e3]; cbn.
      * intros [= ->]. reflexivity.
      * destruct (is_ConnectionError e3), (is_Timeout e3),
          (is_RequestException e3), (is_JSONDecodeError e3); cbn; discriminate.
    + destruct (is_ConnectionError e2), (is_Timeout e2),
        (is_RequestException e2), (is_JSONDecodeError e2); cbn; discriminate.
  - destruct (is_ConnectionError e1), (is_Timeout e1),
      (is_RequestException e1), (is_JSONDecodeError e1); cbn; discriminate.
Qed.

Lemma after_loop_no_mark self env st :
  iterations (emitted (after_loop self env st)) = [].
Proof.
  apply no_mark_iterations.
  assert (H : respects no_mark any_exn any_state (after_loop self env)).
  { unfold after_loop. apply respects_try; try side_conditions.
    - apply respects_bind; try side_conditions.
      + apply close_notepad_respects; side_conditions.
      + intros _. apply final_report_respects; side_conditions.
    - intros e h Hq He. eapply on_abort_respects; [side_conditions..|exact He]. }
  apply H.
Qed.

(** C5.  Whenever the decoding of the response returns an array,
    [fetch_posts_data] returns its first ten elements in their order (all of
    them when there are fewer), and the loop opens one iteration per element
    it is given, in order: in a run that no operator interrupt disturbs (the
    case of C8) and whose launch succeeds, the iterations of [run_automation]
    are those of the returned elements, numbered from 1. *)
Theorem first_ten_one_iteration_each self env st body :
  uninterrupted env ->
  decoded (emitted (fetch_posts_data env st)) = Some body ->
  result (fetch_posts_data env st) = Ok (take 10 body)
  /\ (forall posts i st',
        iterations (emitted (process_posts self env posts i st'))
        = map iteration_mark (seq i (length posts)))
  /\ (result (launch_notepad env (final (fetch_posts_data env st))) = Ok true ->
      iterations (emitted (run_automation self env st))
      = map iteration_mark (seq 1 (length (take 10 body)))).
Proof.
  intros Henv Hbody.
  pose proof (fetch_posts_data_decoded env st body Hbody) as Hposts.
  split_and!; [exact Hposts | |].
  - intros posts i st'.
    apply (process_posts_uninterrupted self env posts i st' Henv).
  - intros Hlaunch.
    rewrite (run_after_fetch self env st _ Hposts).
    pose proof (step_launch_ok env _ Hlaunch) as Hstep.
    rewrite (after_launch self env _ _ ltac:(rewrite Hstep; reflexivity)).
    destruct (process_posts_uninterrupted self env (take 10 body) 1
                (counters_reset
                   (final (step_launch env (final (fetch_posts_data env st)))))
                Henv) as [Hloop Hmarks].
    rewrite (try_bind_ok _ _ _ _ tt Hloop).
    fold (after_loop self env).
    unfold prepend. cbn [emitted].
    rewrite !iterations_app, Hmarks, after_loop_no_mark.
    assert (Hfetch : respects no_mark any_exn any_state (fetch_posts_data env))
      by (apply fetch_posts_data_respects; side_conditions).
    assert (Hl : respects no_mark any_exn any_state (step_launch env))
      by (apply step_launch_respects; side_conditions).
    rewrite (no_mark_iterations _ (proj1 (Hfetch st))).
    rewrite (no_mark_iterations _ (proj1 (Hl _))).
    change (iterations (emitted (announce st))) with (@nil string).
    change (iterations [Logged INFO (" Processing "
                                     ++ pretty (length (take 10 body))
                                     ++ " posts...")]) with (@nil string).
    rewrite !app_nil_r. reflexivity.
Qed.

Lemma first_ten_one_iteration_each_witness :
  result (fetch_posts_data (serving ten_records) start) = Ok ten_records
  /\ iterations (emitted (run_automation desk (serving ten_records) start))
     = map iteration_mark (seq 1 10).
Proof.
  destruct (first_ten_one_iteration_each desk (serving ten_records) start
              ten_records (serving_uninterrupted ten_records) eq_refl)
    as (Hfetch & _ & Hrun).
  split; [exact Hfetch | apply Hrun; reflexivity].
Defined.

(** ** Ten files, one per post *)

Lemma fetch_posts_data_at_most_ten env st posts :
  result (fetch_posts_data env st) = Ok posts -> (length posts <= 10)%nat.
Proof.
  unfold fetch_posts_data, try_except, bind, call, log, ret, raise. cbn.
  destruct (env (clock st) (RequestsGet api_url 30)) as [[]|e1]; cbn.
  - destruct (env (S (clock st)) RaiseForStatus) as [[]|e2]; cbn.
    + destruct (env (S (S (clock st))) ResponseJson) as [body|e3]; cbn.
      * intros [= <-]. rewrite length_take. lia.
      * destruct (is_ConnectionError e3), (is_Timeout e3),
          (is_RequestException e3), (is_JSONDecodeError e3); cbn; discriminate.
    + destruct (is_ConnectionError e2), (is_Timeout e2),
        (is_RequestException e2), (is_JSONDecodeError e2); cbn; discriminate.
  - destruct (is_ConnectionError e1), (is_Timeout e1),
      (is_RequestException e1), (is_JSONDecodeError e1); cbn; discriminate.
Qed.

Section Files.

Variable self : bot.
Variable env : environment.

(** Outside the loop nothing checks for a file and nothing counts. *)
Lemma fetch_posts_data_quiet :
  respects no_file any_exn same_counters (fetch_posts_data env).
Proof. apply fetch_posts_data_respects; side_conditions. Qed.

Lemma step_launch_quiet : respects no_file any_exn same_counters (step_launch env).
Proof. apply step_launch_respects; side_conditions. Qed.

Lemma after_loop_quiet :
  respects no_file any_exn same_counters (after_loop self env).
Proof.
  unfold after_loop. apply respects_try; try side_conditions.
  - apply respects_bind; try side_conditions.
    + apply close_notepad_respects; side_conditions.
    + intros _. apply final_report_respects; side_conditions.
  - intros e h Hq He. eapply on_abort_respects; [side_conditions..|exact He].
Qed.

Lemma on_abort_quiet e h :
  on_abort env e = Some h -> respects no_file any_exn same_counters h.
Proof. intros He. eapply on_abort_respects; [side_conditions..|exact He]. Qed.

Lemma files_found_logged lvl msg evs :
  files_found (Logged lvl msg :: evs) = files_found evs.
Proof. reflexivity. Qed.

Lemma announce_finds_nothing st : files_found (emitted (announce st)) = [].
Proof. reflexivity. Qed.

(** Either the run stops before the loop, or it ends with the counter and
    the files of its loop. *)
Lemma run_counts_and_files st posts :
  result (fetch_posts_data env st) = Ok posts ->
  successful_posts (final (run_automation self env st)) = successful_posts st
  \/ (successful_posts (final (run_automation self env st))
      = successful_posts
          (final (process_posts self env posts 1
                    (counters_reset
                       (final (step_launch env
                                 (final (fetch_posts_data env st)))))))
      /\ files_found (emitted (run_automation self env st))
         = files_found
             (emitted (process_posts self env posts 1
                         (counters_reset
                            (final (step_launch env
                                      (final (fetch_posts_data env st)))))))).
Proof.
  intros Hposts. rewrite (run_after_fetch self env st posts Hposts).
  destruct (fetch_posts_data_quiet st) as (Hf1 & [Hf2 _] & _).
  apply no_file_files_found in Hf1.
  set (sf := final (fetch_posts_data env st)) in *.
  destruct (step_launch_quiet sf) as (Hl1 & [Hl2 _] & _).
  apply no_file_files_found in Hl1.
  destruct (result (step_launch env sf)) as [[]|e] eqn:Hlaunch.
  - right. rewrite (after_launch self env sf posts Hlaunch).
    set (s0 := counters_reset (final (step_launch env sf))).
    destruct (result (process_posts self env posts 1 s0)) as [[]|e] eqn:Hloop.
    + rewrite (try_bind_ok _ _ _ _ tt Hloop). fold (after_loop self env).
      destruct (after_loop_quiet (final (process_posts self env posts 1 s0)))
        as (Ha1 & [Ha2 _] & _).
      apply no_file_files_found in Ha1.
      unfold prepend. cbn [emitted final].
      rewrite !files_found_app, !files_found_logged, announce_finds_nothing,
        Hf1, Hl1, Ha1, !app_nil_r.
      split; [exact Ha2 | reflexivity].
    + rewrite (try_bind_raise _ _ _ (on_abort env) _ e Hloop)
        by reflexivity.
      destruct (on_abort env e) as [h|] eqn:He.
      * destruct (on_abort_quiet e h He
                    (final (process_posts self env posts 1 s0)))
          as (Hh1 & [Hh2 _] & _).
        apply no_file_files_found in Hh1.
        unfold prepend. cbn [emitted final].
        rewrite !files_found_app, !files_found_logged, announce_finds_nothing,
          Hf1, Hl1, Hh1, !app_nil_r.
        split; [exact Hh2 | reflexivity].
      * unfold prepend. cbn [emitted final].
        rewrite !files_found_app, !files_found_logged, announce_finds_nothing,
          Hf1, Hl1, ?app_nil_r. split; reflexivity.
  - left. unfold after_fetch.
    rewrite (try_bind_raise _ _ _ (on_abort env) _ e Hlaunch) by reflexivity.
    destruct (on_abort env e) as [h|] eqn:He.
    + destruct (on_abort_quiet e h He (final (step_launch env sf)))
        as (_ & [Hh2 _] & _).
      unfold prepend. cbn [final]. congruence.
    + unfold prepend. cbn [final]. congruence.
Qed.



End Files.


(** ** Failures *)

Lemma errors_logged_app evs1 evs2 :
  errors_logged (evs1 ++ evs2) = (errors_logged evs1 ++ errors_logged evs2)%list.
Proof. apply omap_app. Qed.

Lemma error_logged_in evs msg :
  Logged ERROR msg ∈ evs -> errors_logged evs <> [].
Proof.
  intros (evs1 & evs2 & ->)%list_elem_of_split.
  rewrite errors_logged_app. cbn. destruct (errors_logged evs1); discriminate.
Qed.

(** An item that is reported as failed has left an ERROR record. *)
Ltac failed_with_error :=
  first
    [ discriminate
    | intros _; eapply error_logged_in;
      rewrite ?elem_of_app, ?elem_of_cons; auto 20 ].

Lemma process_single_post_failure_logged self env post i st :
  result (process_single_post self env post i st) = Ok false ->
  errors_logged (emitted (process_single_post self env post i st)) <> [].
Proof.
  unfold process_single_post, try_except, bind, lift, log, ret, raise,
    except_Exception.
  destruct (dict_get post "id" (VInt (Z.of_nat i))) as [post_id|e0] eqn:Hid;
    cbn [result emitted final];
    [|destruct (is_Exception e0); cbn; failed_with_error].
  destruct (dict_get post "title" (VStr "No title")) as [title|e1];
    cbn [result emitted final];
    [|destruct (is_Exception e1); cbn; failed_with_error].
  destruct (value_slice_to 50 title) as [preview|e2];
    cbn [result emitted final];
    [|destruct (is_Exception e2); cbn; failed_with_error].
  destruct (format_blog_post post) as [text|e3];
    cbn [result emitted final];
    [|destruct (is_Exception e3); cbn; failed_with_error].
  destruct (type_text_hybrid env text st) as [[[|]|e4] evt stt];
    cbn [result emitted final negb];
    [| failed_with_error
     | destruct (is_Exception e4); cbn; failed_with_error].
  destruct (save_document self env (post_filename post_id) stt)
    as [[[|]|e5] evs sts];
    cbn [result emitted final negb];
    [| failed_with_error
     | destruct (is_Exception e5); cbn; failed_with_error].
  destruct (i <? 10)%nat.
  - destruct (create_new_document env sts) as [[[]|e6] evd std];
      cbn [result emitted final]; [discriminate|].
    destruct (is_Exception e6); cbn; failed_with_error.
  - cbn. discriminate.
Qed.

(** C3, as stated, fails on a network error: the failed call is logged, but
    no fallback is tried and no item is counted as failed. *)
Lemma network_error_not_absorbed :
  ~ every_failure_absorbed
      (run_automation desk (raising_at 0 connection_refused (serving ten_records))
         start).
Proof.
  intros H.
  destruct (H (RequestsGet api_url 30) connection_refused) as (_ & [Htried|Hcount]).
  - apply list_elem_of_lookup. exists 11%nat. reflexivity.
  - reflexivity.
  - vm_compute in Htried. discriminate.
  - vm_compute in Hcount. lia.
Qed.

(** C3, amended.  In runs without operator interrupt, nothing escapes the
    body of the loop: each item yields [Next], so the loop goes on to the next
    item and opens an iteration for every element; an item whose processing
    reports failure or raises is counted as failed and leaves an ERROR record,
    a successful one is counted as successful.  A failure of the fetch is
    logged too, but then raised again out of [run_automation]. *)
Theorem item_failures_are_counted self env post i st :
  uninterrupted env ->
  result (process_item self env post i st) = Ok Next
  /\ match result (process_single_post self env post i st) with
     | Ok true =>
         successful_posts (final (process_item self env post i st))
         = S (successful_posts st)
     | Ok false =>
         (failed_posts st < failed_posts (final (process_item self env post i st)))%nat
         /\ errors_logged (emitted (process_item self env post i st)) <> []
     | Raise e =>
         is_Exception e = true
         /\ failed_posts (final (process_item self env post i st))
            = S (failed_posts st)
         /\ Logged ERROR (" Post " ++ pretty i ++ " failed: " ++ exn_text e)
              ∈ emitted (process_item self env post i st)
     end
  /\ (forall posts j st',
        result (process_posts self env posts j st') = Ok tt
        /\ iterations (emitted (process_posts self env posts j st'))
           = map iteration_mark (seq j (length posts)))
  /\ (forall e,
        result (fetch_posts_data env st) = Raise e ->
        result (run_automation self env st) = Raise e
        /\ Logged ERROR (" API fetch failed: " ++ exn_text e)
             ∈ emitted (run_automation self env st)).
Proof.
  intros Henv.
  destruct (process_item_run self env post i st)
    as (Hs & _ & _ & _ & [rest Hemitted] & Hnext).
  destruct (Hnext Henv) as [Hres Hcases].
  split_and!.
  - exact Hres.
  - pose proof (process_single_post_failure_logged self env post i st) as Hlog.
    assert (Hexc : forall e,
              result (process_single_post self env post i st) = Raise e ->
              is_Exception e = true).
    { apply (process_single_post_respects env (fun _ => true) is_Exception
               any_state); side_conditions. }
    unfold succeeded in Hs. revert Hs Hcases Hlog Hexc.
    destruct (result (process_single_post self env post i st)) as [[|]|e];
      intros Hs Hcases Hlog Hexc.
    + lia.
    + split; [exact Hcases|]. rewrite Hemitted.
      change (Logged INFO (iteration_mark i) :: emitted _ ++ rest)
        with ([Logged INFO (iteration_mark i)]
              ++ emitted (process_single_post self env post i st) ++ rest)%list.
      rewrite !errors_logged_app. intros Hnil.
      apply app_eq_nil in Hnil as [_ Hnil].
      apply app_eq_nil in Hnil as [Hnil _]. exact (Hlog eq_refl Hnil).
    + split; [apply Hexc; reflexivity | exact Hcases].
  - intros posts j st'. apply (process_posts_uninterrupted self env posts j st' Henv).
  - intros e Hfetch.
    pose proof (fetch_posts_data_raises_Exception env st e Henv Hfetch) as He.
    rewrite (run_after_fetch_failure self env st e Hfetch He).
    cbn [result emitted]. rewrite (close_notepad_returns env _ Henv).
    split; [reflexivity|].
    rewrite !elem_of_app, elem_of_cons. auto.
Qed.

Lemma item_failures_are_counted_witness :
  result (process_item desk (serving []) (NonObj VNone) 1 start) = Ok Next.
Proof.
  apply (item_failures_are_counted desk (serving []) (NonObj VNone) 1 start).
  apply serving_uninterrupted.
Defined.

(** ** Operator interrupt *)

(** C8 is not met by the code.  On two records, an interrupt raised by the
    keystroke that answers the overwrite prompt of the first save is caught by
    the bare [except] around it: the run goes on to the second record, counts
    both as successful and returns. *)
Theorem interrupt_during_prompt_is_swallowed :
  emitted (run_automation desk (raising_at 12 ctrl_c (serving two_records)) start)
    !! 33%nat
  = Some (Called (Press "enter") (Raise ctrl_c))
  /\ emitted (run_automation desk (raising_at 12 ctrl_c (serving two_records)) start)
       !! 43%nat
     = Some (Logged INFO (iteration_mark 2))
  /\ files_found
       (emitted (run_automation desk (raising_at 12 ctrl_c (serving two_records))
                   start))
     = [project_path desk "post 1.txt"; project_path desk "post 2.txt"]
  /\ successful_posts
       (final (run_automation desk (raising_at 12 ctrl_c (serving two_records))
                 start)) = 2%nat
  /\ result (run_automation desk (raising_at 12 ctrl_c (serving two_records)) start)
     = Ok tt.
Proof. split_and!; vm_compute; reflexivity. Qed.

(** * Edge cases, invariants and the script around the bot *)

(** ** Title case *)

Lemma is_cased_to_lower c : is_cased (to_lower c) = is_cased c.
Proof. destruct c as [[] [] [] [] [] [] [] []]; reflexivity. Qed.

Lemma to_lower_to_lower c : to_lower (to_lower c) = to_lower c.
Proof. destruct c as [[] [] [] [] [] [] [] []]; reflexivity. Qed.

Lemma to_upper_to_lower c : to_upper (to_lower c) = to_upper c.
Proof. destruct c as [[] [] [] [] [] [] [] []]; reflexivity. Qed.

Lemma title_from_lower b s : title_from b (str_lower s) = title_from b s.
Proof.
  revert b. induction s as [|c s IH]; intros b; [reflexivity|].
  cbn [str_lower title_from].
  rewrite is_cased_to_lower, IH, to_lower_to_lower, to_upper_to_lower.
  reflexivity.
Qed.

Lemma format_blog_post_title fields t :
  format_blog_post (Obj (<["title" := VStr t]> fields))
  = Ok (blog_template
          (py_str (field_or fields "id" (VStr "Unknown")))
          (str_title t)
          (py_str (field_or fields "userId" (VStr "Unknown")))
          (py_str (field_or fields "body" (VStr "No content available")))).
Proof.
  rewrite (format_blog_post_obj _ t).
  - unfold field_or. rewrite !lookup_insert_ne by discriminate. reflexivity.
  - unfold field_or. rewrite lookup_insert_eq. reflexivity.
Qed.

(** X1.  On ASCII titles, the text formatted for a post does not depend on
    the letter case of the title: two records whose titles are ASCII text and
    differ only in the case of their letters are formatted, and therefore
    typed, alike. *)
Theorem title_case_is_forgotten fields t1 t2 :
  is_ascii t1 = true ->
  is_ascii t2 = true ->
  str_lower t1 = str_lower t2 ->
  format_blog_post (Obj (<["title" := VStr t1]> fields))
  = format_blog_post (Obj (<["title" := VStr t2]> fields)).
Proof.
  intros _ _ Hlower. rewrite !format_blog_post_title. unfold str_title.
  rewrite <- (title_from_lower false t1), <- (title_from_lower false t2), Hlower.
  reflexivity.
Qed.

Lemma title_case_is_forgotten_witness :
  format_blog_post (Obj (<["title" := VStr "qui EST esse"]> ∅))
  = format_blog_post (Obj (<["title" := VStr "QUI est Esse"]> ∅)).
Proof.
  apply (title_case_is_forgotten ∅ "qui EST esse" "QUI est Esse"); reflexivity.
Defined.

(** ** Records the loop cannot type *)

(** X2.  A record whose title is present but is not a string is given up
    before anything is typed: slicing the title for the log raises, the
    handler of [process_single_post] logs it and returns [False], and no call
    is made. *)
Theorem title_without_text_is_skipped self env fields v i st :
  fields !! "title" = Some v ->
  (forall s, v <> VStr s) ->
  process_single_post self env (Obj fields) i st
  = {| result := Ok false;
       emitted :=
         [Logged INFO (" Processing Post #" ++ pretty i ++ ": ID "
                       ++ py_str (field_or fields "id" (VInt (Z.of_nat i))));
          Logged ERROR (" Failed to process post "
                        ++ py_str (field_or fields "id" (VInt (Z.of_nat i)))
                        ++ ": '" ++ type_name v
                        ++ "' object is not subscriptable")];
       final := st |}.
Proof.
  intros Htitle Hv.
  unfold process_single_post, try_except, bind, lift, log, ret, raise,
    except_Exception.
  assert (Ht : field_or fields "title" (VStr "No title") = v)
    by (unfold field_or; rewrite Htitle; reflexivity).
  rewrite !dict_get_obj, Ht. cbn [result emitted final].
  destruct v as [| b | n | s]; try (exfalso; apply (Hv s); reflexivity); reflexivity.
Qed.

Lemma title_without_text_is_skipped_witness :
  result (process_single_post desk (serving [])
            (Obj (<["title" := VInt 7]> ∅)) 1 start) = Ok false.
Proof.
  rewrite (title_without_text_is_skipped desk (serving [])
             (<["title" := VInt 7]> ∅) (VInt 7) 1 start).
  - reflexivity.
  - reflexivity.
  - discriminate.
Defined.

(** X3.  An element of the array that is not an object is not absorbed by
    [process_single_post]: its handler reads the id of the post again for its
    message and raises in turn, so the [AttributeError] leaves the method
    with nothing logged and no call made.  The loop catches it: the item is
    counted as failed, once, a new document is asked for and the loop goes on,
    whatever the environment answers. *)
Theorem element_without_fields_fails_in_the_loop self env v i st :
  let e := {| exn_cls := AttributeError;
              exn_text := "'" ++ type_name v ++ "' object has no attribute 'get'" |} in
  let st1 := {| clock := clock st;
                successful_posts := successful_posts st;
                failed_posts := S (failed_posts st) |} in
  process_single_post self env (NonObj v) i st
  = {| result := Raise e; emitted := []; final := st |}
  /\ process_item self env (NonObj v) i st
     = {| result := Ok Next;
          emitted :=
            Logged INFO (iteration_mark i)
            :: Logged ERROR (" Post " ++ pretty i ++ " failed: " ++ exn_text e)
            :: emitted (create_new_document env st1);
          final := final (create_new_document env st1) |}
  /\ successful_posts (final (process_item self env (NonObj v) i st))
     = successful_posts st
  /\ failed_posts (final (process_item self env (NonObj v) i st))
     = S (failed_posts st).
Proof.
  cbv zeta.
  assert (Hp : process_single_post self env (NonObj v) i st
    = {| result := Raise {| exn_cls := AttributeError;
              exn_text := "'" ++ type_name v ++ "' object has no attribute 'get'" |};
         emitted := []; final := st |}) by reflexivity.
  assert (Hi : process_item self env (NonObj v) i st
     = {| result := Ok Next;
          emitted :=
            Logged INFO (iteration_mark i)
            :: Logged ERROR (" Post " ++ pretty i ++ " failed: "
                 ++ "'" ++ type_name v ++ "' object has no attribute 'get'")
            :: emitted (create_new_document env
                 {| clock := clock st;
                successful_posts := successful_posts st;
                failed_posts := S (failed_posts st) |});
          final := final (create_new_document env {| clock := clock st;
                successful_posts := successful_posts st;
                failed_posts := S (failed_posts st) |}) |}).
  { unfold process_item. rewrite bind_run. cbn [log result emitted final].
    rewrite try_except_run, bind_run, Hp. cbn [result emitted final].
    cbn [is_KeyboardInterrupt is_Exception exn_cls].
    rewrite !bind_run. cbn [incr_failed log result emitted final].
    rewrite guarded_new_document_run. cbn [result emitted final ret].
    rewrite app_nil_r. reflexivity. }
  split_and!; [exact Hp | exact Hi | |].
  - rewrite Hi. cbn [final].
    assert (H : respects (fun _ => true) any_exn same_counters (create_new_document env))
      by (apply create_new_document_respects; side_conditions).
    destruct (H {| clock := clock st;
                successful_posts := successful_posts st;
                failed_posts := S (failed_posts st) |}) as (_ & [Hs _] & _).
    exact Hs.
  - rewrite Hi. cbn [final].
    assert (H : respects (fun _ => true) any_exn same_counters (create_new_document env))
      by (apply create_new_document_respects; side_conditions).
    destruct (H {| clock := clock st;
                successful_posts := successful_posts st;
                failed_posts := S (failed_posts st) |}) as (_ & [_ Hf] & _).
    exact Hf.
Qed.

(** ** The new document between two posts *)

Lemma process_single_post_last_within self env post i :
  (i <? 10)%nat = false ->
  within (match dict_get post "id" (VInt (Z.of_nat i)), format_blog_post post with
          | Ok post_id, Ok text =>
              typing_ops text
              ++ save_ops (project_path self (post_filename post_id))
          | _, _ => []
          end)
         (process_single_post self env post i).
Proof.
  intros Hi. unfold process_single_post. rewrite Hi. apply within_guarded.
  - apply within_lift_then. intros post_id ->.
    apply within_then; [apply within_log|]. intros _.
    apply within_lift_then. intros fetched_title _.
    apply within_lift_then. intros preview _.
    apply within_then; [apply within_log|]. intros _.
    apply within_lift_then. intros text ->.
    apply within_bind; [apply type_text_hybrid_within|].
    intros [|]; cbn [negb]; [|confine env].
    rewrite <- (app_nil_r (save_ops _)).
    apply within_bind; [apply save_document_within|].
    intros [|]; cbn [negb]; confine env.
  - intros e h He. eapply within_except_Exception; [|exact He].
    intros e'. confine env.
Qed.

(** X4.  A new document is asked for after each of the first nine posts and
    not after the tenth: processing a post at position ten or later never
    sends ctrl+n, and a post at a position below ten that is processed with
    success has sent it. *)
Theorem new_document_between_posts_only self env post i st :
  ((10 <= i)%nat ->
   Hotkey "ctrl" "n" ∉ calls (emitted (process_single_post self env post i st)))
  /\ ((i < 10)%nat ->
      result (process_single_post self env post i st) = Ok true ->
      Hotkey "ctrl" "n" ∈ calls (emitted (process_single_post self env post i st))).
Proof.
  split.
  - intros Hi Hin.
    assert (Hlt : (i <? 10)%nat = false) by (apply Nat.ltb_ge; exact Hi).
    pose proof (process_single_post_last_within self env post i Hlt st) as H.
    apply sublist_subseteq in H. apply H in Hin.
    destruct (dict_get post "id" (VInt (Z.of_nat i))) as [post_id|];
      [|apply elem_of_nil in Hin; exact Hin].
    destruct (format_blog_post post) as [text|];
      [|apply elem_of_nil in Hin; exact Hin].
    unfold typing_ops, save_ops in Hin.
    rewrite ?elem_of_app, ?elem_of_cons, ?elem_of_nil in Hin.
    repeat (destruct Hin as [Hin|Hin]); first [discriminate Hin | contradiction].
  - intros Hi.
    assert (Hlt : (i <? 10)%nat = true) by (apply Nat.ltb_lt; exact Hi).
    unfold process_single_post, try_except, bind, lift, log, ret, raise,
      except_Exception.
    rewrite Hlt.
    destruct (dict_get post "id" (VInt (Z.of_nat i))) as [post_id|e0];
      cbn [result emitted final];
      [|destruct (is_Exception e0); cbn; discriminate].
    destruct (dict_get post "title" (VStr "No title")) as [title|e1];
      cbn [result emitted final];
      [|destruct (is_Exception e1); cbn; discriminate].
    destruct (value_slice_to 50 title) as [preview|e2];
      cbn [result emitted final];
      [|destruct (is_Exception e2); cbn; discriminate].
    destruct (format_blog_post post) as [text|e3];
      cbn [result emitted final];
      [|destruct (is_Exception e3); cbn; discriminate].
    destruct (type_text_hybrid env text st) as [[[|]|e4] evt stt];
      cbn [result emitted final negb];
      [| discriminate | destruct (is_Exception e4); cbn; discriminate].
    destruct (save_document self env (post_filename post_id) stt)
      as [[[|]|e5] evs sts];
      cbn [result emitted final negb];
      [| discriminate | destruct (is_Exception e5); cbn; discriminate].
    assert (Hnew : Hotkey "ctrl" "n" ∈ calls (emitted (create_new_document env sts))).
    { unfold create_new_document, try_except, bind, call, log, ret,
        except_Exception, except_all. cbn.
      repeat answer env; cbn; rewrite ?elem_of_cons; auto. }
    destruct (create_new_document env sts) as [[[]|e6] evd std];
      cbn [result emitted final] in *.
    + intros _. rewrite !calls_app, !elem_of_app. auto 15.
    + destruct (is_Exception e6); cbn; discriminate.
Qed.

Lemma new_document_between_posts_only_witness :
  (Hotkey "ctrl" "n"
     ∉ calls (emitted (process_single_post desk (serving [])
                         (record 10 "qui est esse" "est rerum") 10 start)))
  /\ (Hotkey "ctrl" "n"
        ∈ calls (emitted (process_single_post desk (serving [])
                            (record 9 "qui est esse" "est rerum") 9 start))).
Proof.
  split.
  - apply (new_document_between_posts_only desk (serving [])
             (record 10 "qui est esse" "est rerum") 10 start). lia.
  - apply (new_document_between_posts_only desk (serving [])
             (record 9 "qui est esse" "est rerum") 9 start); [lia|].
    vm_compute. reflexivity.
Defined.

(** ** The two counters *)

Section Counters.

Variable self : bot.
Variable env : environment.

Hypothesis env_uninterrupted : uninterrupted env.
Hypothesis env_sleeps : sleep_returns env.

Lemma process_item_counts post i st :
  result (process_item self env post i st) = Ok Next
  /\ (successful_posts (final (process_item self env post i st))
      + failed_posts (final (process_item self env post i st))
      = S (successful_posts st + failed_posts st))%nat.
Proof.
  destruct (process_item_run self env post i st) as (_ & _ & _ & _ & _ & Hnext).
  destruct (Hnext env_uninterrupted) as [Hres _]. split; [exact Hres|].
  assert (Hp : respects (fun _ => true) is_Exception same_counters
                 (process_single_post self env post i))
    by (apply process_single_post_respects; side_conditions).
  assert (Hn : respects (fun _ => true) is_Exception same_counters
                 (create_new_document env))
    by (apply create_new_document_respects; side_conditions).
  destruct (Hp st) as (_ & [Hs Hf] & He).
  unfold process_item, try_except, bind, call, log, ret, incr_successful,
    incr_failed, except_all.
  destruct (process_single_post self env post i st) as [[b|e] evp stp];
    cbn [result emitted final] in *.
  - destruct b; cbn [result emitted final clock]; rewrite env_sleeps;
      cbn [final tick successful_posts failed_posts]; lia.
  - rewrite (Exception_is_no_interrupt e (He e eq_refl)), (He e eq_refl).
    cbn [result emitted final].
    match goal with
    | |- context [create_new_document env ?s] =>
        destruct (Hn s) as (_ & [Hn2 Hn3] & _);
        destruct (create_new_document env s) as [[[]|e2] evd std];
        cbn [result emitted final clock successful_posts failed_posts] in *
    end; lia.
Qed.

Lemma process_posts_counts posts i st :
  result (process_posts self env posts i st) = Ok tt
  /\ (successful_posts (final (process_posts self env posts i st))
      + failed_posts (final (process_posts self env posts i st))
      = successful_posts st + failed_posts st + length posts)%nat.
Proof.
  revert i st. induction posts as [|post rest IH]; intros i st.
  - cbn. split; [reflexivity | lia].
  - cbn [process_posts length].
    destruct (process_item_counts post i st) as [Hres Hcount].
    rewrite (bind_ok _ _ st Next Hres). cbn [result emitted final].
    destruct (IH (S i) (final (process_item self env post i st))) as [-> Hrest].
    split; [reflexivity | lia].
Qed.

End Counters.

(** ** A run that reaches its report *)

Section Through.

Variable self : bot.
Variable env : environment.

(** The state in which the loop of a run starts. *)
Lemma run_through_loop st posts :
  result (fetch_posts_data env st) = Ok posts ->
  result (launch_notepad env (final (fetch_posts_data env st))) = Ok true ->
  let s0 := loop_start env st in
  result (process_posts self env posts 1 s0) = Ok tt ->
  run_automation self env st
  = prepend
      (emitted (announce st)
       ++ emitted (fetch_posts_data env st)
       ++ emitted (launch_notepad env (final (fetch_posts_data env st)))
       ++ [Logged INFO (" Processing " ++ pretty (length posts) ++ " posts...")]
       ++ emitted (process_posts self env posts 1 s0))
      (after_loop self env (final (process_posts self env posts 1 s0))).
Proof.
  intros Hposts Hlaunch s0 Hloop. subst s0. unfold loop_start in *.
  rewrite (run_after_fetch self env st _ Hposts).
  pose proof (step_launch_ok env _ Hlaunch) as Hstep.
  rewrite (after_launch self env _ _ ltac:(rewrite Hstep; reflexivity)).
  rewrite Hstep in *. cbn [emitted final] in *.
  rewrite (try_bind_ok _ _ _ _ tt Hloop).
  fold (after_loop self env).
  rewrite !prepend_prepend. rewrite <- !app_assoc. reflexivity.
Qed.

End Through.

(** X5.  When no call is interrupted and [time.sleep] returns, every post
    handed to the loop is counted exactly once, as successful or as failed;
    so the two counts of the final report of a run whose fetch and launch
    succeed add up to the number of posts fetched, which is at most ten. *)
Theorem every_post_is_counted_once self env st posts :
  uninterrupted env ->
  sleep_returns env ->
  (forall items i st',
     (successful_posts (final (process_posts self env items i st'))
      + failed_posts (final (process_posts self env items i st'))
      = successful_posts st' + failed_posts st' + length items)%nat)
  /\ (result (fetch_posts_data env st) = Ok posts ->
      result (launch_notepad env (final (fetch_posts_data env st))) = Ok true ->
      (successful_posts (final (run_automation self env st))
       + failed_posts (final (run_automation self env st))
       = length posts)%nat
      /\ (length posts <= 10)%nat).
Proof.
  intros Henv Hsleep. split.
  - intros items i st'.
    apply (process_posts_counts self env Henv Hsleep items i st').
  - intros Hposts Hlaunch.
    split; [|apply (fetch_posts_data_at_most_ten env st posts Hposts)].
    destruct (process_posts_counts self env Henv Hsleep posts 1 (loop_start env st))
      as [Hloop Hcount].
    rewrite (run_through_loop self env st posts Hposts Hlaunch Hloop).
    unfold prepend. cbn [final].
    destruct (after_loop_quiet self env
                (final (process_posts self env posts 1 (loop_start env st))))
      as (_ & [-> ->] & _).
    rewrite Hcount. unfold loop_start, counters_reset. cbn. lia.
Qed.

Lemma every_post_is_counted_once_witness :
  (successful_posts (final (run_automation desk (serving two_records) start))
   + failed_posts (final (run_automation desk (serving two_records) start))
   = 2)%nat.
Proof.
  destruct (every_post_is_counted_once desk (serving two_records) start two_records
              (serving_uninterrupted two_records)) as [_ Hrun].
  - intros n ms. reflexivity.
  - apply Hrun; reflexivity.
Defined.

(** ** A failed launch *)

Lemma step_launch_failure env st :
  result (launch_notepad env st) = Ok false ->
  step_launch env st
  = {| result := Raise launch_failed;
       emitted := emitted (launch_notepad env st)
                  ++ [Logged ERROR (" Application launch failed: "
                                    ++ exn_text launch_failed)];
       final := final (launch_notepad env st) |}.
Proof.
  intros H. unfold step_launch, try_except, bind.
  destruct (launch_notepad env st) as [[[|]|e] evs st1]; cbn in *;
    try discriminate.
  rewrite app_nil_r. reflexivity.
Qed.

Lemma run_after_launch_failure self env st posts :
  result (fetch_posts_data env st) = Ok posts ->
  result (launch_notepad env (final (fetch_posts_data env st))) = Ok false ->
  let sl := final (launch_notepad env (final (fetch_posts_data env st))) in
  run_automation self env st
  = {| result :=
         match result (close_notepad env sl) with
         | Ok _ => Raise launch_failed
         | Raise e' => Raise e'
         end;
       emitted :=
         emitted (announce st)
         ++ emitted (fetch_posts_data env st)
         ++ emitted (launch_notepad env (final (fetch_posts_data env st)))
         ++ Logged ERROR (" Application launch failed: " ++ exn_text launch_failed)
            :: Logged ERROR (" Automation failed: " ++ exn_text launch_failed)
            :: emitted (close_notepad env sl);
       final := final (close_notepad env sl) |}.
Proof.
  intros Hposts Hlaunch sl. subst sl.
  rewrite (run_after_fetch self env st _ Hposts).
  pose proof (step_launch_failure env _ Hlaunch) as Hstep.
  unfold after_fetch.
  rewrite (try_bind_raise _ _ _ (on_abort env) _ launch_failed)
    by (rewrite ?Hstep; reflexivity).
  rewrite Hstep. cbn [on_abort is_KeyboardInterrupt is_Exception launch_failed exn_cls
                      result emitted final].
  unfold prepend. rewrite !bind_run. cbn [result emitted final log].
  destruct (close_notepad env _) as [[[]|e'] evs st']; cbn [result emitted final raise];
    rewrite ?app_nil_r, <- ?app_assoc; reflexivity.
Qed.

(** X6.  When the records have been fetched but neither method brings
    Notepad up, the run is aborted: [run_automation] raises
    "Failed to launch Notepad application", logged once by the launch step and
    once by the run, no iteration of the loop is opened, and the only calls
    made are those of the fetch, of the two launch methods and of the closing
    attempt. *)
Theorem launch_failure_aborts self env st posts :
  uninterrupted env ->
  result (fetch_posts_data env st) = Ok posts ->
  result (launch_notepad env (final (fetch_posts_data env st))) = Ok false ->
  result (run_automation self env st) = Raise launch_failed
  /\ iterations (emitted (run_automation self env st)) = []
  /\ calls (emitted (run_automation self env st))
       `sublist_of` (fetch_ops ++ launch_ops ++ close_ops)%list
  /\ [" Application launch failed: Failed to launch Notepad application";
      " Automation failed: Failed to launch Notepad application"]
       `sublist_of` errors_logged (emitted (run_automation self env st)).
Proof.
  intros Henv Hposts Hlaunch.
  rewrite (run_after_launch_failure self env st posts Hposts Hlaunch).
  cbn [result emitted final]. split_and!.
  - rewrite (close_notepad_returns env _ Henv). reflexivity.
  - apply no_mark_iterations. rewrite !forallb_app. cbn [forallb].
    assert (Hfetch : respects no_mark any_exn any_state (fetch_posts_data env))
      by (apply fetch_posts_data_respects; side_conditions).
    assert (Hl : respects no_mark any_exn any_state (launch_notepad env))
      by (apply launch_notepad_respects; side_conditions).
    assert (Hclose : respects no_mark any_exn any_state (close_notepad env))
      by (apply close_notepad_respects; side_conditions).
    destruct (Hfetch st) as (-> & _ & _).
    destruct (Hl (final (fetch_posts_data env st))) as (-> & _ & _).
    destruct (Hclose (final (launch_notepad env (final (fetch_posts_data env st)))))
      as (-> & _ & _).
    reflexivity.
  - rewrite !calls_app. change (calls (emitted (announce st))) with (@nil op).
    rewrite app_nil_l.
    change (calls (Logged ERROR ?a :: Logged ERROR ?b :: ?evs)) with (calls evs).
    apply sublist_app; [apply fetch_posts_data_within|].
    apply sublist_app; [apply launch_notepad_within | apply close_notepad_within].
  - rewrite !errors_logged_app.
    change (errors_logged (Logged ERROR ?a :: Logged ERROR ?b :: ?evs))
      with (a :: b :: errors_logged evs).
    do 3 apply sublist_inserts_l.
    do 2 apply sublist_skip. apply sublist_nil_l.
Qed.

Lemma launch_failure_aborts_witness :
  result (run_automation desk
            (raising_at 10 fail_safe (raising_at 3 fail_safe (serving two_records)))
            start)
  = Raise launch_failed.
Proof.
  apply (launch_failure_aborts desk
           (raising_at 10 fail_safe (raising_at 3 fail_safe (serving two_records)))
           start two_records).
  - apply raising_at_uninterrupted; [reflexivity|].
    apply raising_at_uninterrupted; [reflexivity | apply serving_uninterrupted].
  - reflexivity.
  - vm_compute. reflexivity.
Defined.

(** ** An interrupt inside the loop *)

(** X7.  An operator interrupt that comes out of the processing of a post
    ends the loop at once: the run of the loop is the opening record of that
    iteration, the run of the interrupted post and the record of the
    interrupt; the posts that follow are not touched, the interrupted post is
    counted neither as successful nor as failed, and the loop itself returns,
    so that [run_automation] goes on to close Notepad and to write its
    report. *)
Theorem interrupt_ends_the_loop self env post rest i st e :
  result (process_single_post self env post i st) = Raise e ->
  is_KeyboardInterrupt e = true ->
  process_posts self env (post :: rest) i st
  = {| result := Ok tt;
       emitted :=
         Logged INFO (iteration_mark i)
         :: emitted (process_single_post self env post i st)
         ++ [Logged INFO " User interrupted automation"];
       final := final (process_single_post self env post i st) |}
  /\ iterations (emitted (process_posts self env (post :: rest) i st))
     = [iteration_mark i]
  /\ same_counters st (final (process_posts self env (post :: rest) i st)).
Proof.
  intros Hp He.
  assert (Hrun : process_posts self env (post :: rest) i st
    = {| result := Ok tt;
         emitted :=
           Logged INFO (iteration_mark i)
           :: emitted (process_single_post self env post i st)
           ++ [Logged INFO " User interrupted automation"];
         final := final (process_single_post self env post i st) |}).
  { cbn [process_posts]. unfold process_item.
    rewrite !bind_run. cbn [log result emitted final].
    rewrite try_except_run, bind_run, Hp. cbn [result emitted final].
    rewrite He. cbn [result emitted final].
    rewrite !bind_run. cbn [log ret result emitted final].
    rewrite !app_nil_r. reflexivity. }
  assert (Hq : respects no_mark any_exn same_counters
                 (process_single_post self env post i))
    by (apply process_single_post_respects; side_conditions).
  destruct (Hq st) as (Hmarks & Hsame & _).
  split_and!; [exact Hrun | |].
  - rewrite Hrun. cbn [emitted].
    change (Logged INFO (iteration_mark i) :: ?evs)
      with ([Logged INFO (iteration_mark i)] ++ evs)%list.
    rewrite !iterations_app, (no_mark_iterations _ Hmarks). reflexivity.
  - rewrite Hrun. exact Hsame.
Qed.

Lemma interrupt_ends_the_loop_witness :
  iterations
    (emitted (process_posts desk (raising_at 0 ctrl_c (serving [])) two_records 1
                start))
  = [iteration_mark 1].
Proof.
  apply (interrupt_ends_the_loop desk (raising_at 0 ctrl_c (serving []))
           (record 1 "sunt aut facere" "quia et suscipit")
           [record 2 "qui est esse" "est rerum tempore vitae"] 1 start ctrl_c).
  - vm_compute. reflexivity.
  - reflexivity.
Defined.

(** ** What a failed fetch logs *)

(** X8.  A fetch that ends in an exception has logged at most one ERROR
    record, which is then the last thing it emits: one record when the
    exception is a [requests] exception or a JSON decoding error, none
    otherwise.  The clauses are tried in the order of the source, so a
    connection error (a connect timeout included) is reported as a network
    error, and "Invalid JSON response" is logged only for a decoding error
    that is not a [requests] exception. *)
Theorem fetch_failure_is_logged_once env st e :
  result (fetch_posts_data env st) = Raise e ->
  let evs := emitted (fetch_posts_data env st) in
  (is_RequestException e || is_JSONDecodeError e = true ->
   exists msg, errors_logged evs = [msg] /\ last evs = Some (Logged ERROR msg))
  /\ (is_RequestException e || is_JSONDecodeError e = false ->
      errors_logged evs = [])
  /\ (is_ConnectionError e = true ->
      errors_logged evs
      = [" Network connection error - check internet connection"])
  /\ (errors_logged evs = [" Invalid JSON response: " ++ exn_text e] ->
      exn_cls e = JSONDecodeError).
Proof.
  cbv zeta.
  unfold fetch_posts_data, try_except, bind, call, log, ret, raise. cbn.
  repeat match goal with
         | |- context [env ?n ?o] =>
             let a := fresh "a" in
             let e' := fresh "e" in
             destruct (env n o) as [a|e'] eqn:?; [try destruct a|]; cbn
         end.
  all: try discriminate.
  all: match goal with
       | |- context [is_ConnectionError ?x] => destruct x as [[] text]
       end; cbn; intros [= <-]; cbn.
  all: split_and!; intros; try discriminate; try reflexivity; eauto.
Qed.

Lemma fetch_failure_is_logged_once_witness :
  errors_logged
    (emitted (fetch_posts_data (raising_at 0 connection_refused (serving [])) start))
  = [" Network connection error - check internet connection"].
Proof.
  destruct (fetch_failure_is_logged_once
              (raising_at 0 connection_refused (serving [])) start
              connection_refused eq_refl) as (_ & _ & H & _).
  apply H. reflexivity.
Defined.

(** ** Closing Notepad *)

(** The closing keystroke is sent whatever the environment answers. *)
Lemma close_notepad_first env st :
  exists r rest,
    emitted (close_notepad env st) = Called (Hotkey "alt" "f4") r :: rest.
Proof.
  unfold close_notepad, try_except, bind, call, log, ret, except_Exception,
    except_all. cbn.
  repeat answer env; eexists; eexists; reflexivity.
Qed.

Lemma close_notepad_lets_no_Exception_out env st e :
  result (close_notepad env st) = Raise e -> is_Exception e = false.
Proof.
  apply guarded_lets_no_Exception_out. intros e' st'. exists tt. reflexivity.
Qed.

(** X9.  Whenever [run_automation] raises an [Exception], it has logged it
    as " Automation failed" and has then sent alt+F4, whether or not Notepad
    was ever launched: in particular a run whose fetch fails launches nothing
    and still sends the closing keystroke. *)
Theorem every_abort_sends_the_closing_key self env st e :
  result (run_automation self env st) = Raise e ->
  is_Exception e = true ->
  (exists before r after,
     emitted (run_automation self env st)
     = (before ++ Logged ERROR (" Automation failed: " ++ exn_text e)
               :: Called (Hotkey "alt" "f4") r :: after)%list)
  /\ (forall e', result (fetch_posts_data env st) = Raise e' ->
      (BotExecute "notepad.exe" ∉ calls (emitted (run_automation self env st)))
      /\ (Hotkey "alt" "f4" ∈ calls (emitted (run_automation self env st)))).
Proof.
  intros Hr He.
  assert (Hshape : exists before r after,
     emitted (run_automation self env st)
     = (before ++ Logged ERROR (" Automation failed: " ++ exn_text e)
               :: Called (Hotkey "alt" "f4") r :: after)%list).
  { revert Hr. unfold run_automation. rewrite try_except_run.
    match goal with
    | |- context [result (?body st)] => set (b := body st)
    end.
    destruct (result b) as [[]|e0] eqn:Hb; [rewrite Hb; discriminate|].
    unfold on_abort.
    destruct (is_KeyboardInterrupt e0) eqn:Hki.
    - cbn [result]. rewrite bind_run. cbn [log result emitted final].
      intros Hclose. apply close_notepad_lets_no_Exception_out in Hclose.
      congruence.
    - destruct (is_Exception e0) eqn:Hex.
      + cbn [result emitted]. rewrite !bind_run. cbn [log result emitted final].
        destruct (close_notepad_first env (final b)) as (r & rest & Hfirst).
        destruct (result (close_notepad env (final b))) as [[]|e1] eqn:Hclose.
        * cbn [result emitted raise]. intros [= <-].
          exists (emitted b), r, rest. rewrite Hfirst, app_nil_r. reflexivity.
        * cbn [result]. intros [= <-].
          apply close_notepad_lets_no_Exception_out in Hclose. congruence.
      + rewrite Hb. intros [= <-]. congruence. }
  split; [exact Hshape|].
  intros e' Hfetch.
  destruct Hshape as (before & r & after & Hshape).
  split.
  - intros Hin.
    assert (Hcalls : calls (emitted (run_automation self env st))
                       `sublist_of` (fetch_ops ++ close_ops)%list).
    { destruct (is_Exception e') eqn:He'.
      - rewrite (run_after_fetch_failure self env st e' Hfetch He').
        cbn [emitted]. rewrite !calls_app.
        change (calls (emitted (announce st))) with (@nil op).
        change (calls [Logged ERROR (" API fetch failed: " ++ exn_text e')])
          with (@nil op).
        rewrite app_nil_l, app_nil_r.
        change (calls (Logged ERROR (" Automation failed: " ++ exn_text e')
                       :: ?evs)) with (calls evs).
        apply sublist_app; [apply fetch_posts_data_within|].
        apply close_notepad_within.
      - exfalso. revert Hr. unfold run_automation.
        rewrite (try_bind_ok announce _ _ st tt eq_refl).
        change (final (announce st)) with st.
        assert (Hstep : result (step_fetch env st) = Raise e').
        { unfold step_fetch. rewrite try_except_run, Hfetch.
          unfold except_Exception. rewrite He'. exact Hfetch. }
        rewrite (try_bind_raise _ _ _ (on_abort env) _ e' Hstep) by reflexivity.
        unfold on_abort. rewrite He'.
        destruct (is_KeyboardInterrupt e') eqn:Hki.
        + unfold prepend. cbn [result]. rewrite bind_run. cbn [log result final].
          intros Hclose. apply close_notepad_lets_no_Exception_out in Hclose.
          congruence.
        + unfold prepend. cbn [result]. intros [= <-]. congruence. }
    apply sublist_subseteq in Hcalls. apply Hcalls in Hin.
    unfold fetch_ops, close_ops in Hin.
    rewrite ?elem_of_app, ?elem_of_cons, ?elem_of_nil in Hin.
    repeat (destruct Hin as [Hin|Hin]); first [discriminate Hin | contradiction].
  - rewrite Hshape, calls_app, elem_of_app. right. cbn. apply elem_of_cons. auto.
Qed.

Lemma every_abort_sends_the_closing_key_witness :
  Hotkey "alt" "f4"
    ∈ calls (emitted (run_automation desk
                        (raising_at 0 connection_refused (serving [])) start)).
Proof.
  destruct (every_abort_sends_the_closing_key desk
              (raising_at 0 connection_refused (serving [])) start
              connection_refused eq_refl eq_refl) as [_ H].
  apply (H connection_refused). reflexivity.
Defined.

Ltac escapes env :=
  cbn;
  repeat match goal with
         | |- context [env ?n ?o] =>
             let a := fresh "a" in
             let e := fresh "e" in
             destruct (env n o) as [a|e]; [try destruct a|]; cbn
         | |- context [is_Exception ?e] => destruct (is_Exception e) eqn:?; cbn
         end;
  (split;
   [ intros H;
     first [ discriminate H
           | injection H as Heq; subst;
             first [congruence | split; [congruence | auto]] ]
   | intros [? [?|[? ?]]]; congruence ]).

(** X10.  [close_notepad] and [create_new_document] return whatever happens
    while they answer the prompt that may follow their keystroke, an operator
    interrupt included, and they absorb every [Exception]: the only thing
    they let out is an exception outside [Exception] raised by their first
    keystroke or by the pause that follows it. *)
Theorem only_the_first_steps_can_interrupt env st e :
  (result (close_notepad env st) = Raise e <->
   is_Exception e = false
   /\ (env (clock st) (Hotkey "alt" "f4") = Raise e
       \/ env (clock st) (Hotkey "alt" "f4") = Ok tt
          /\ env (S (clock st)) (Sleep 500) = Raise e))
  /\ (result (create_new_document env st) = Raise e <->
      is_Exception e = false
      /\ (env (clock st) (Hotkey "ctrl" "n") = Raise e
          \/ env (clock st) (Hotkey "ctrl" "n") = Ok tt
             /\ env (S (clock st)) (Sleep 500) = Raise e)).
Proof.
  split.
  - unfold close_notepad, try_except, bind, call, log, ret, except_Exception,
      except_all.
    escapes env.
  - unfold create_new_document, try_except, bind, call, log, ret,
      except_Exception, except_all.
    escapes env.
Qed.

(** ** Successes and files *)

Lemma process_posts_successes_found self env posts i st :
  (successful_posts (final (process_posts self env posts i st))
   <= successful_posts st
      + length (files_found (emitted (process_posts self env posts i st))))%nat.
Proof.
  revert i st. induction posts as [|post rest IH]; intros i st.
  - cbn. lia.
  - cbn [process_posts].
    destruct (process_item_run self env post i st)
      as (Hs & _ & Hfiles & _ & _ & _).
    pose proof (process_single_post_found self env post i st) as Hfound.
    unfold succeeded in Hs.
    assert (Hitem : (successful_posts (final (process_item self env post i st))
                     <= successful_posts st
                        + length (files_found
                                    (emitted (process_item self env post i st))))%nat).
    { rewrite Hfiles, Hs.
      destruct (result (process_single_post self env post i st)) as [[|]|e'];
        [rewrite Hfound by reflexivity; cbn; lia | lia | lia]. }
    rewrite bind_run.
    specialize (IH (S i) (final (process_item self env post i st))).
    destruct (result (process_item self env post i st)) as [[|]|e];
      cbn [result emitted final ret]; rewrite ?files_found_app, ?length_app;
      cbn [files_found omap length]; lia.
Qed.

(** X11.  A post is counted as successful only after its file has been seen
    in place: at the end of the loop, and of a run started with fresh
    counters, the count of successes never exceeds the number of existence
    checks that found their file. *)
Theorem no_success_without_a_file self env posts :
  (forall i st,
     (successful_posts (final (process_posts self env posts i st))
      <= successful_posts st
         + length (files_found (emitted (process_posts self env posts i st))))%nat)
  /\ (result (fetch_posts_data env start) = Ok posts ->
      (successful_posts (final (run_automation self env start))
       <= length (files_found (emitted (run_automation self env start))))%nat).
Proof.
  split; [apply process_posts_successes_found|].
  intros Hposts.
  destruct (run_counts_and_files self env start posts Hposts)
    as [-> | [-> ->]]; [cbn; lia|].
  etrans; [apply process_posts_successes_found|].
  cbn. lia.
Qed.

Lemma no_success_without_a_file_witness :
  (successful_posts (final (run_automation desk (serving two_records) start))
   <= length (files_found
                (emitted (run_automation desk (serving two_records) start))))%nat.
Proof.
  apply (no_success_without_a_file desk (serving two_records) two_records).
  reflexivity.
Defined.

(** ** The closing keystroke, counted *)

Lemma closing_keys_app evs1 evs2 :
  closing_keys (evs1 ++ evs2) = (closing_keys evs1 + closing_keys evs2)%nat.
Proof.
  unfold closing_keys. rewrite calls_app, List.filter_app, length_app.
  reflexivity.
Qed.

Lemma closing_keys_sublist l1 l2 :
  l1 `sublist_of` l2 ->
  (length (List.filter is_closing_key l1)
   <= length (List.filter is_closing_key l2))%nat.
Proof.
  induction 1 as [|o l1 l2 _ IH|o l1 l2 _ IH]; cbn [List.filter length];
    [lia | | ]; destruct (is_closing_key o); cbn [length]; lia.
Qed.

Lemma within_no_closing_key {A} l (m : M A) st :
  within l m -> List.filter is_closing_key l = [] -> closing_keys (emitted (m st)) = 0%nat.
Proof.
  intros Hm Hl. unfold closing_keys.
  pose proof (closing_keys_sublist _ _ (Hm st)) as H.
  rewrite Hl in H. cbn [length] in H. lia.
Qed.

Lemma items_ops_no_closing_key self posts i :
  List.filter is_closing_key (items_ops self posts i) = [].
Proof.
  revert i. induction posts as [|post rest IH]; intros i; [reflexivity|].
  cbn [items_ops]. rewrite List.filter_app, IH, app_nil_r.
  unfold item_ops.
  destruct (dict_get post "id" (VInt (Z.of_nat i))) as [post_id|];
    [|reflexivity].
  destruct (format_blog_post post) as [text|]; reflexivity.
Qed.

Lemma report_ops_no_closing_key self names :
  List.filter is_closing_key (report_ops self names) = [].
Proof.
  unfold report_ops. cbn. induction names as [|name rest IH]; [reflexivity|].
  cbn. exact IH.
Qed.

Lemma close_notepad_one_closing_key env st :
  closing_keys (emitted (close_notepad env st)) = 1%nat.
Proof.
  unfold close_notepad, try_except, bind, call, log, ret, except_Exception,
    except_all. cbn.
  repeat answer env; reflexivity.
Qed.

Lemma final_report_no_closing_key self env st :
  closing_keys (emitted (final_report self env st)) = 0%nat.
Proof.
  destruct (final_report_confined self env st) as [names Hnames].
  pose proof (closing_keys_sublist _ _ Hnames) as H.
  rewrite report_ops_no_closing_key in H. unfold closing_keys.
  cbn [length] in H. lia.
Qed.

(** X12.  In a run that no interrupt disturbs and whose fetch and launch
    succeed, alt+F4 is sent once when the final report is written to its end,
    and twice when the report fails (a listing or a size that cannot be
    read): the handler of [run_automation] closes again a Notepad that has
    already been closed, and raises the failure of the report. *)
Theorem failed_report_closes_twice self env st posts :
  uninterrupted env ->
  result (fetch_posts_data env st) = Ok posts ->
  result (launch_notepad env (final (fetch_posts_data env st))) = Ok true ->
  match result (final_report self env (report_start self env posts st)) with
  | Ok _ =>
      result (run_automation self env st) = Ok tt
      /\ closing_keys (emitted (run_automation self env st)) = 1%nat
  | Raise e =>
      result (run_automation self env st) = Raise e
      /\ closing_keys (emitted (run_automation self env st)) = 2%nat
  end.
Proof.
  intros Henv Hposts Hlaunch.
  destruct (process_posts_uninterrupted self env posts 1 (loop_start env st) Henv)
    as [Hloop _].
  rewrite (run_through_loop self env st posts Hposts Hlaunch Hloop).
  unfold report_start.
  set (sl := final (process_posts self env posts 1 (loop_start env st))).
  pose proof (close_notepad_returns env sl Henv) as Hclose.
  unfold after_loop. rewrite (try_bind_ok _ _ _ _ tt Hclose).
  rewrite prepend_prepend.
  assert (Hbefore :
    closing_keys
      (emitted (announce st)
       ++ emitted (fetch_posts_data env st)
       ++ emitted (launch_notepad env (final (fetch_posts_data env st)))
       ++ [Logged INFO (" Processing " ++ pretty (length posts) ++ " posts...")]
       ++ emitted (process_posts self env posts 1 (loop_start env st)))
    = 0%nat).
  { rewrite !closing_keys_app.
    rewrite (within_no_closing_key fetch_ops _ st (fetch_posts_data_within env) eq_refl).
    rewrite (within_no_closing_key launch_ops _ _ (launch_notepad_within env) eq_refl).
    rewrite (within_no_closing_key _ _ _ (process_posts_within self env posts 1)
               (items_ops_no_closing_key self posts 1)).
    reflexivity. }
  match type of Hbefore with
  | closing_keys ?b = _ => set (before := b) in *
  end.
  set (sr := final (close_notepad env sl)).
  pose proof (final_report_no_closing_key self env sr) as Hreport.
  rewrite try_except_run.
  destruct (result (final_report self env sr)) as [[]|e] eqn:Hr.
  - unfold prepend. cbn [result emitted]. split; [exact Hr|].
    rewrite !closing_keys_app, Hbefore, Hreport, close_notepad_one_closing_key.
    reflexivity.
  - assert (He : is_Exception e = true).
    { eapply (final_report_respects env (fun _ => true) is_Exception any_state);
        [side_conditions..|exact Hr]. }
    unfold on_abort. rewrite (Exception_is_no_interrupt e He), He.
    unfold prepend. cbn [result emitted]. rewrite !bind_run.
    cbn [log result emitted final].
    rewrite (close_notepad_returns env _ Henv). cbn [result emitted raise].
    split; [reflexivity|].
    rewrite !closing_keys_app, Hbefore, Hreport, !close_notepad_one_closing_key.
    reflexivity.
Qed.

Lemma failed_report_closes_twice_witness :
  closing_keys
    (emitted (run_automation desk (raising_at 9 disk_error (serving [])) start))
  = 2%nat.
Proof.
  pose proof (failed_report_closes_twice desk
                (raising_at 9 disk_error (serving [])) start []) as H.
  apply H.
  - apply raising_at_uninterrupted; [reflexivity | apply serving_uninterrupted].
  - reflexivity.
  - reflexivity.
Defined.

(** ** What a run raises *)

Lemma after_loop_raises_Exception self env st e :
  uninterrupted env ->
  result (after_loop self env st) = Raise e -> is_Exception e = true.
Proof.
  intros Henv.
  assert (H : respects (fun _ => true) is_Exception any_state (after_loop self env)).
  { unfold after_loop. apply respects_try; try side_conditions.
    - apply respects_bind; try side_conditions.
      + apply close_notepad_respects; side_conditions.
      + intros _. apply final_report_respects; side_conditions.
    - intros e' h Hq He.
      apply (on_abort_respects env (fun _ => true) is_Exception any_state)
        with (e := e'); first [exact Hq | exact He | side_conditions]. }
  apply H.
Qed.

Lemma launch_notepad_returns env st :
  uninterrupted env -> exists launched, result (launch_notepad env st) = Ok launched.
Proof.
  intros Henv.
  destruct (result (launch_notepad env st)) as [launched|e] eqn:Hr;
    [exists launched; reflexivity|].
  assert (is_Exception e = true) as He.
  { eapply (launch_notepad_respects env (fun _ => true) is_Exception any_state);
      [side_conditions..|exact Hr]. }
  assert (is_Exception e = false) as He'.
  { revert Hr. apply guarded_lets_no_Exception_out.
    intros e' st'. apply log_then_ret_returns. }
  congruence.
Qed.

(** Without interrupt, what [run_automation] raises is an [Exception]. *)
Lemma run_automation_raises_Exception self env st e :
  uninterrupted env ->
  result (run_automation self env st) = Raise e -> is_Exception e = true.
Proof.
  intros Henv.
  destruct (result (fetch_posts_data env st)) as [posts|e'] eqn:Hfetch.
  - destruct (launch_notepad_returns env (final (fetch_posts_data env st)) Henv)
      as [[|] Hlaunch].
    + destruct (process_posts_uninterrupted self env posts 1 (loop_start env st) Henv)
        as [Hloop _].
      rewrite (run_through_loop self env st posts Hfetch Hlaunch Hloop).
      unfold prepend. cbn [result]. apply after_loop_raises_Exception, Henv.
    + rewrite (run_after_launch_failure self env st posts Hfetch Hlaunch).
      cbn [result]. rewrite (close_notepad_returns env _ Henv).
      intros [= <-]. reflexivity.
  - pose proof (fetch_posts_data_raises_Exception env st e' Henv Hfetch) as He'.
    rewrite (run_after_fetch_failure self env st e' Hfetch He').
    cbn [result]. rewrite (close_notepad_returns env _ Henv).
    intros [= <-]. exact He'.
Qed.

(** ** The script around the bot *)

(** Case analysis on the answers of the host, call after call. *)
Ltac host_answer h :=
  match goal with
  | |- context [h ?n ?o] =>
      let a := fresh "a" in
      let e := fresh "e" in
      destruct (h n o) as [a|e] eqn:?; [match type of a with unit => destruct a | _ => idtac end|]; cbn
  | |- context [is_Exception ?e] => destruct (is_Exception e) eqn:?; cbn
  end.

(** The same, when the host raises nothing but [Exception]s. *)
Ltac host_answer_in h Hh :=
  match goal with
  | |- context [h ?n ?o] =>
      let a := fresh "a" in
      let e := fresh "e" in
      let H := fresh "H" in
      destruct (h n o) as [a|e] eqn:H;
        [match type of a with unit => destruct a | _ => idtac end
        | rewrite ?(Hh _ _ _ H)]; cbn
  end.

(** X13.  [main] lets no [Exception] out: it returns, or it ends the process
    through [sys.exit(1)] after an ERROR record " Application failed" as its
    last act, or it passes on an exception outside [Exception].  When neither
    the host nor the libraries interrupt, the first two are the only cases. *)
Theorem main_returns_or_exits_with_1 fl platform h env n :
  let s := main fl platform h env n in
  (forall e, ended s = Raise e -> is_Exception e = false)
  /\ (host_uninterrupted h -> uninterrupted env ->
      match ended s with
      | Ok _ => True
      | Raise e =>
          e = exit_with 1
          /\ exists e0,
               is_Exception e0 = true
               /\ last (trace s)
                  = Some (Recorded (Logged ERROR (" Application failed: "
                                                  ++ exn_text e0)))
      end).
Proof.
  cbv zeta. split.
  - unfold main, __init__, setup_project_directory, sys_exit, script_try,
      script_bind, ask, script_log, script_ret, script_raise, print, run_bot.
    destruct (negb (String.eqb platform "win32")); cbn.
    all: repeat host_answer h.
    all: try (intros ? [= <-]; first [reflexivity | assumption]).
    all: match goal with
         | |- context [run_automation ?b ?v start] =>
             destruct (run_automation b v start) as [[[]|e1] evs st1]; cbn
         end; try discriminate.
    all: destruct (is_Exception e1) eqn:?; cbn; intros ? [= <-];
      first [reflexivity | assumption].
  - intros Hh Henv.
    unfold main, __init__, setup_project_directory, sys_exit, script_try,
      script_bind, ask, script_log, script_ret, script_raise, print, run_bot.
    destruct (negb (String.eqb platform "win32")); cbn.
    all: repeat host_answer_in h Hh.
    all: try (split; [reflexivity|]; eexists; split; [eapply Hh; eassumption|];
              reflexivity).
    all: match goal with
         | |- context [run_automation ?b ?v start] =>
             pose proof (run_automation_raises_Exception b v start) as Hrun;
             destruct (run_automation b v start) as [[[]|e1] evs st1]; cbn in *
         end.
    all: try exact I.
    all: rewrite (Hrun e1 Henv eq_refl); cbn.
    all: split; [reflexivity|]; exists e1; split; [apply (Hrun e1 Henv eq_refl)|].
    all: rewrite ?app_nil_r, ?app_assoc, ?app_comm_cons; apply last_snoc.
Qed.


Lemma at_the_desk_uninterrupted : host_uninterrupted at_the_desk.
Proof. intros n o e. destruct o; discriminate. Qed.

Lemma refusing_at_uninterrupted k e h :
  is_Exception e = true -> host_uninterrupted h ->
  host_uninterrupted (refusing_at k e h).
Proof.
  intros He Hh n o e'. unfold refusing_at.
  destruct (n =? k)%nat; [intros [= <-]; exact He | apply Hh].
Qed.

Lemma main_returns_or_exits_with_1_witness :
  match ended (main windows "win32" at_the_desk
                 (raising_at 0 connection_refused (serving [])) 0%nat) with
  | Ok _ => True
  | Raise e =>
      e = exit_with 1
      /\ exists e0,
           is_Exception e0 = true
           /\ last (trace (main windows "win32" at_the_desk
                             (raising_at 0 connection_refused (serving [])) 0%nat))
              = Some (Recorded (Logged ERROR (" Application failed: "
                                              ++ exn_text e0)))
  end.
Proof.
  apply (main_returns_or_exits_with_1 windows "win32" at_the_desk
           (raising_at 0 connection_refused (serving [])) 0%nat).
  - exact at_the_desk_uninterrupted.
  - apply raising_at_uninterrupted; [reflexivity | apply serving_uninterrupted].
Defined.

(** X14.  When the project directory cannot be created, nothing else is
    done: [setup_project_directory] logs the failure and raises it again,
    [main] logs it in turn and ends the process with status 1; no method of
    the bot runs, so nothing is fetched, launched or typed. *)
Theorem directory_failure_ends_the_session fl platform (h : host) env n home e :
  h n DesktopBotInit = Ok tt ->
  h (S n) PathHome = Ok home ->
  h (S (S n)) (Mkdir (joinpath fl (joinpath fl home "Desktop") "tjm-project"))
  = Raise e ->
  is_Exception e = true ->
  ended (main fl platform h env n) = Raise (exit_with 1)
  /\ recorded (trace (main fl platform h env n))
     = [Logged INFO " Initializing Windows Data Entry Bot...";
        Logged ERROR (" Failed to create project directory: " ++ exn_text e);
        Logged ERROR (" Application failed: " ++ exn_text e)]
  /\ asked (main fl platform h env n) = S (S (S n)).
Proof.
  intros Hinit Hhome Hmkdir He.
  unfold main, __init__, setup_project_directory, sys_exit, script_try,
    script_bind, ask, script_log, script_ret, script_raise, print, run_bot.
  destruct (negb (String.eqb platform "win32")); cbn;
    rewrite Hinit; cbn; rewrite Hhome; cbn; rewrite Hmkdir; cbn;
    rewrite He; cbn; rewrite He; cbn; split_and!; reflexivity.
Qed.

Lemma directory_failure_ends_the_session_witness :
  ended (main windows "win32" (refusing_at 2 disk_error at_the_desk)
           (serving ten_records) 0%nat)
  = Raise (exit_with 1).
Proof.
  apply (directory_failure_ends_the_session windows "win32"
           (refusing_at 2 disk_error at_the_desk) (serving ten_records) 0%nat
           "C:\Users\op" disk_error); reflexivity.
Defined.


Lemma printed_app tr1 tr2 :
  printed (tr1 ++ tr2) = (printed tr1 ++ printed tr2)%list.
Proof. apply omap_app. Qed.

Lemma printed_Recorded evs : printed (map Recorded evs) = [].
Proof. induction evs as [|ev evs IH]; [reflexivity | exact IH]. Qed.

Lemma recorded_app tr1 tr2 :
  recorded (tr1 ++ tr2) = (recorded tr1 ++ recorded tr2)%list.
Proof. apply omap_app. Qed.

(** [main] prints nothing but its notice about the platform. *)
Lemma main_prints fl platform h env n :
  printed (trace (main fl platform h env n))
  = if negb (String.eqb platform "win32")
    then [vs16 ++ " This script is optimized for Windows";
          "For cross-platform version, use the generic script"]
    else [].
Proof.
  unfold main, __init__, setup_project_directory, sys_exit, script_try,
    script_bind, ask, script_log, script_ret, script_raise, print, run_bot.
  destruct (negb (String.eqb platform "win32")); cbn.
  all: repeat host_answer h; try reflexivity.
  all: match goal with
       | |- context [run_automation ?b ?v start] =>
           destruct (run_automation b v start) as [[[]|e1] evs st1]; cbn
       end.
  all: try (destruct (is_Exception e1); cbn).
  all: change (Printed ?a :: Printed ?b :: ?l) with ([Printed a; Printed b] ++ l)%list.
  all: rewrite ?printed_app, ?printed_Recorded; reflexivity.
Qed.

(** X15.  How a session ends.  An operator interrupt at the first prompt
    cancels it before anything is logged or done, with exit status 0; so does
    an interrupt that comes out of [main].  The exit of [main] with status 1
    passes through the handler of the interrupt and ends the session with
    that status, and the line "Automation completed!" is printed exactly when
    [main] has returned. *)
Theorem how_a_session_ends fl platform (h : host) env home :
  h 0%nat PathHome = Ok home ->
  let s := __main__ fl platform h env 0%nat in
  let m := main fl platform h env 2%nat in
  match h 1%nat (Input start_prompt) with
  | Raise e =>
      ended s = Raise (session_end e)
      /\ recorded (trace s) = []
      /\ asked s = 2%nat
  | Ok _ =>
      match ended m with
      | Ok _ => completed_line ∈ printed (trace s)
      | Raise e =>
          ended s = Raise (session_end e)
          /\ (completed_line ∉ printed (trace s))
          /\ session_end (exit_with 1) = exit_with 1
      end
  end.
Proof.
  intros Hhome. cbv zeta.
  pose proof (main_prints fl platform h env 2%nat) as Hprints.
  unfold __main__, sys_exit, script_try, script_bind, ask, script_log,
    script_ret, script_raise, print, session_end.
  cbn [ended trace asked]. rewrite Hhome. cbn [ended trace asked].
  fold start_prompt.
  destruct (h 1%nat (Input start_prompt)) as [line|e]; cbn [ended trace asked].
  - destruct (main fl platform h env 2%nat) as [[[]|e] tr n']; cbn [ended trace asked] in *.
    + destruct (h n' (Input "Press Enter to exit...")) as [line'|e'];
        cbn [ended trace asked];
        [|destruct (is_KeyboardInterrupt e'); cbn [ended trace asked]].
      all: rewrite ?app_nil_r.
      all: unfold printed; rewrite !omap_app; cbn.
      all: repeat (rewrite elem_of_cons; right).
      all: rewrite !elem_of_app, ?elem_of_cons; auto.
    + destruct (is_KeyboardInterrupt e); cbn [ended trace asked].
      all: split_and!; try reflexivity.
      all: rewrite ?app_nil_r.
      all: unfold printed in *; rewrite !omap_app, ?Hprints.
      all: destruct (negb (String.eqb platform "win32")); cbn.
      all: intros Hin.
      all: rewrite ?elem_of_app, ?elem_of_cons, ?elem_of_nil in Hin.
      all: repeat (destruct Hin as [Hin|Hin]); try discriminate Hin;
        try contradiction.
  - destruct (is_KeyboardInterrupt e); cbn [ended trace asked];
      split_and!; reflexivity.
Qed.


Lemma how_a_session_ends_witness :
  ended (__main__ windows "win32" (refusing_at 1 ctrl_c at_the_desk)
           (serving ten_records) 0%nat)
  = Raise (exit_with 0)
  /\ recorded (trace (__main__ windows "win32" (refusing_at 1 ctrl_c at_the_desk)
                        (serving ten_records) 0%nat))
     = [].
Proof.
  destruct (how_a_session_ends windows "win32" (refusing_at 1 ctrl_c at_the_desk)
              (serving ten_records) "C:\Users\op" eq_refl) as (Hend & Hlog & _).
  split; [exact Hend | exact Hlog].
Defined.

(** ** Interrupts outside the loop *)

(** X16.  An operator interrupt leaves [run_automation] only when it is
    raised by the closing attempt of one of its two handlers.  An interrupt
    raised anywhere else is absorbed: one that stops the fetch, for instance,
    is answered by the record of the interruption and by the closing
    attempt, and the run returns as that attempt does. *)
Theorem interrupts_leave_only_from_the_closing_attempt self env st e :
  is_KeyboardInterrupt e = true ->
  (result (run_automation self env st) = Raise e ->
   exists before st',
     emitted (run_automation self env st)
     = (before ++ emitted (close_notepad env st'))%list
     /\ result (close_notepad env st') = Raise e)
  /\ (result (fetch_posts_data env st) = Raise e ->
      run_automation self env st
      = prepend
          (emitted (announce st) ++ emitted (fetch_posts_data env st)
           ++ [Logged INFO (vs16 ++ " Automation interrupted by user")])
          (close_notepad env (final (fetch_posts_data env st)))).
Proof.
  intros Hki.
  assert (Hex : is_Exception e = false)
    by (destruct e as [[] text]; cbn in *; congruence).
  split.
  - unfold run_automation. rewrite try_except_run.
    match goal with
    | |- context [result (?body st)] => set (b := body st)
    end.
    destruct (result b) as [[]|e0] eqn:Hb; [rewrite Hb; discriminate|].
    unfold on_abort.
    destruct (is_KeyboardInterrupt e0) eqn:Hki0.
    + cbn [result emitted]. rewrite bind_run. cbn [log result emitted final].
      intros Hclose.
      exists (emitted b ++ [Logged INFO (vs16 ++ " Automation interrupted by user")])%list,
        (final b).
      split; [rewrite <- app_assoc; reflexivity | exact Hclose].
    + destruct (is_Exception e0) eqn:Hex0.
      * cbn [result emitted]. rewrite !bind_run. cbn [log result emitted final].
        destruct (result (close_notepad env (final b))) as [[]|e1] eqn:Hclose;
          cbn [result emitted raise].
        -- intros [= <-]. congruence.
        -- intros [= <-].
           exists (emitted b ++ [Logged ERROR (" Automation failed: " ++ exn_text e0)])%list,
             (final b).
           split; [rewrite <- app_assoc; reflexivity | exact Hclose].
      * rewrite Hb. intros [= <-]. congruence.
  - intros Hfetch. unfold run_automation.
    rewrite (try_bind_ok announce _ _ st tt eq_refl).
    change (final (announce st)) with st.
    assert (Hstep : step_fetch env st = fetch_posts_data env st).
    { unfold step_fetch. rewrite try_except_run, Hfetch.
      unfold except_Exception. rewrite Hex. reflexivity. }
    rewrite (try_bind_raise _ _ _ (on_abort env) _ e)
      by (rewrite ?Hstep; first [exact Hfetch | reflexivity]).
    unfold on_abort. rewrite Hki, Hstep, !prepend_prepend.
    unfold prepend. rewrite bind_run. cbn [log result emitted final].
    rewrite <- !app_assoc. reflexivity.
Qed.

Lemma interrupts_leave_only_from_the_closing_attempt_witness :
  result (run_automation desk (raising_at 0 ctrl_c (serving ten_records)) start)
  = Ok tt.
Proof.
  destruct (interrupts_leave_only_from_the_closing_attempt desk
              (raising_at 0 ctrl_c (serving ten_records)) start ctrl_c eq_refl)
    as [_ H].
  rewrite (H eq_refl). reflexivity.
Defined.

(** ** The listing of the final report *)

Lemma insert_sorted_perm key x l : insert_sorted key x l ≡ₚ x :: l.
Proof.
  induction l as [|y l IH]; [reflexivity|]. cbn [insert_sorted].
  destruct (String.leb (key x) (key y)); [reflexivity|].
  rewrite IH. apply Permutation_swap.
Qed.

Lemma sorted_perm key l : sorted key l ≡ₚ l.
Proof.
  induction l as [|x l IH]; [reflexivity|].
  cbn [sorted foldr]. fold (sorted key l).
  rewrite insert_sorted_perm, IH. reflexivity.
Qed.

Lemma ascending_cons key x y l :
  String.leb (key x) (key y) = true -> ascending key (y :: l) ->
  ascending key (x :: y :: l).
Proof.
  intros Hxy Hl [|i] a b; cbn.
  - intros [= <-] [= <-]. exact Hxy.
  - apply (Hl i).
Qed.

Lemma ascending_tail key x l : ascending key (x :: l) -> ascending key l.
Proof. intros Hl i a b. apply (Hl (S i)). Qed.

Lemma insert_sorted_ascending key x l :
  ascending key l -> ascending key (insert_sorted key x l).
Proof.
  induction l as [|y l IH]; intros Hl.
  - intros [|i] a b; cbn; discriminate.
  - cbn [insert_sorted].
    destruct (String.leb (key x) (key y)) eqn:Hxy.
    + apply ascending_cons; assumption.
    + assert (Hyx : String.leb (key y) (key x) = true)
        by (destruct (String.leb_total (key x) (key y)); congruence).
      specialize (IH (ascending_tail key y l Hl)).
      destruct l as [|z l]; cbn [insert_sorted] in *.
      * apply ascending_cons; [exact Hyx | exact IH].
      * destruct (String.leb (key x) (key z)).
        -- apply ascending_cons; [exact Hyx | exact IH].
        -- apply ascending_cons; [apply (Hl 0%nat); reflexivity | exact IH].
Qed.

Lemma sorted_ascending key l : ascending key (sorted key l).
Proof.
  induction l as [|x l IH].
  - intros [|i] a b; cbn; discriminate.
  - cbn [sorted foldr]. fold (sorted key l). apply insert_sorted_ascending, IH.
Qed.

Lemma list_created_files_run self env names st :
  sizes_known env ->
  result (list_created_files self env names st) = Ok tt
  /\ calls (emitted (list_created_files self env names st))
     = map (fun name => StatSize (project_path self name)) names.
Proof.
  intros Hsizes. revert st. induction names as [|name rest IH]; intros st.
  - split; reflexivity.
  - cbn [list_created_files map]. rewrite !bind_run.
    cbn [call log result emitted final].
    destruct (Hsizes (clock st) (project_path self name)) as [size ->].
    cbn [result emitted final]. rewrite !bind_run.
    cbn [log result emitted final].
    destruct (IH (tick st)) as [-> Hcalls].
    split; [reflexivity|].
    cbn [app calls omap]. cbn. f_equal. exact Hcalls.
Qed.

(** X17.  When the sizes can be read, the final report is written to its
    end and asks for the size of every file that the listing of the project
    directory returned, once each, in ascending order of their names under
    the order of [pathlib]; the count it announces is the number of those
    files. *)
Theorem report_lists_every_file_once self env st files :
  env (clock st) (Glob "post *.txt") = Ok files ->
  sizes_known env ->
  let listed := sorted (path_key self) files in
  result (final_report self env st) = Ok tt
  /\ calls (emitted (final_report self env st))
     = Glob "post *.txt"
       :: map (fun name => StatSize (project_path self name)) listed
  /\ listed ≡ₚ files
  /\ ascending (path_key self) listed
  /\ Logged INFO (" Created files (" ++ pretty (length files) ++ "):")
       ∈ emitted (final_report self env st).
Proof.
  intros Hglob Hsizes. cbv zeta.
  destruct (list_created_files_run self env (sorted (path_key self) files)
              (tick st) Hsizes) as [Hres Hcalls].
  assert (Hrun : final_report self env st
    = prepend
        [Logged INFO (nl ++ str_repeat "=" 70);
         Logged INFO " AUTOMATION COMPLETED!";
         Logged INFO (" Successfully processed: " ++ pretty (successful_posts st)
                      ++ "/10 posts");
         Logged INFO (" Failed to process: " ++ pretty (failed_posts st)
                      ++ "/10 posts");
         Logged INFO (" Files location: " ++ project_dir self);
         Called (Glob "post *.txt") (Ok files);
         Logged INFO (" Created files (" ++ pretty (length files) ++ "):")]
        ((list_created_files self env (sorted (path_key self) files) ;;;
          log INFO (str_repeat "=" 70) ;;;
          log INFO (nl ++ " REQUIREMENTS VERIFICATION:") ;;;
          log INFO " BotCity and PyAutoGUI used" ;;;
          log INFO " Notepad launched and automated" ;;;
          log INFO " JSONPlaceholder API data fetched" ;;;
          log INFO " Blog post format with title and content" ;;;
          log INFO " Files saved in tjm-project directory" ;;;
          log INFO " 10 posts processed in loop" ;;;
          log INFO " Error handling implemented" ;;;
          log INFO " Files named: post 1.txt, post 2.txt, etc.") (tick st))).
  { unfold final_report. unfold bind at 1. cbn [get_state result emitted final].
    do 5 (unfold bind at 1; cbn [log result emitted final]).
    unfold bind at 1. cbn [call result emitted final]. rewrite Hglob.
    unfold bind at 1. cbn [log result emitted final].
    unfold prepend.
    destruct ((list_created_files self env (sorted (path_key self) files) ;;; _) (tick st))
      as [r evs st']. reflexivity. }
  rewrite Hrun. unfold prepend. cbn [result emitted].
  rewrite bind_run, Hres. cbn [result emitted].
  split_and!.
  - reflexivity.
  - cbn [app calls omap]. cbn. f_equal. rewrite calls_app, Hcalls.
    cbn. rewrite app_nil_r. reflexivity.
  - apply sorted_perm.
  - apply sorted_ascending.
  - apply elem_of_app. left. rewrite !elem_of_cons. auto 10.
Qed.


Lemma report_lists_every_file_once_witness :
  calls (emitted (final_report desk
                    (holding ["post 2.txt"; "post 10.txt"; "Post 1.txt"] (serving []))
                    start))
  = [Glob "post *.txt";
     StatSize (project_path desk "Post 1.txt");
     StatSize (project_path desk "post 10.txt");
     StatSize (project_path desk "post 2.txt")].
Proof.
  apply (report_lists_every_file_once desk
           (holding ["post 2.txt"; "post 10.txt"; "Post 1.txt"] (serving []))
           start ["post 2.txt"; "post 10.txt"; "Post 1.txt"]).
  - reflexivity.
  - intros n path. exists 0. reflexivity.
Defined.

(** ** A session and its run *)

Lemma recorded_Recorded evs : recorded (map Recorded evs) = evs.
Proof. induction evs as [|ev evs IH]; [reflexivity|]. cbn. f_equal. exact IH. Qed.

(** X18.  When the directory is in place, what a session logs and does is
    what [run_automation] logs and does on the bot whose project directory is
    the one just created, <home>/Desktop/tjm-project, between the three
    records of the start-up and, when the run raises an [Exception], the
    record " Application failed"; [main] returns when the run returns. *)
Theorem a_session_is_its_run fl platform (h : host) env n home :
  h n DesktopBotInit = Ok tt ->
  h (S n) PathHome = Ok home ->
  h (S (S n)) (Mkdir (project_dir (bot_of fl home))) = Ok tt ->
  let r := run_automation (bot_of fl home) env start in
  recorded (trace (main fl platform h env n))
  = ([Logged INFO " Initializing Windows Data Entry Bot...";
      Logged INFO (" Project directory ready: " ++ project_dir (bot_of fl home));
      Logged INFO "Bot initialized with BotCity and PyAutoGUI"]
     ++ emitted r
     ++ match result r with
        | Ok _ => []
        | Raise e =>
            if is_Exception e
            then [Logged ERROR (" Application failed: " ++ exn_text e)]
            else []
        end)%list
  /\ ended (main fl platform h env n)
     = match result r with
       | Ok _ => Ok tt
       | Raise e => Raise (if is_Exception e then exit_with 1 else e)
       end
  /\ Asked (Mkdir (project_dir (bot_of fl home))) (Ok tt)
       ∈ trace (main fl platform h env n).
Proof.
  intros Hinit Hhome Hmkdir. cbv zeta.
  unfold main, __init__, setup_project_directory, sys_exit, script_try,
    script_bind, ask, script_log, script_ret, script_raise, print, run_bot.
  unfold bot_of in *. cbn [project_dir] in *.
  destruct (negb (String.eqb platform "win32")); cbn;
    rewrite Hinit; cbn; rewrite Hhome; cbn; rewrite Hmkdir; cbn.
  all: match goal with
       | |- context [run_automation ?b ?v start] =>
           destruct (run_automation b v start) as [[[]|e1] evs st1]; cbn
       end.
  all: try (destruct (is_Exception e1); cbn).
  all: split_and!; try reflexivity.
  all: try (do 3 f_equal; rewrite ?recorded_app, ?recorded_Recorded, ?app_nil_r;
            reflexivity).
  all: rewrite ?elem_of_cons; auto 10.
Qed.

Lemma a_session_is_its_run_witness :
  ended (main windows "win32" at_the_desk (serving ten_records) 0%nat) = Ok tt.
Proof.
  destruct (a_session_is_its_run windows "win32" at_the_desk (serving ten_records)
              0%nat "C:\Users\op" eq_refl eq_refl eq_refl) as (_ & Hend & _).
  rewrite Hend. vm_compute. reflexivity.
Defined.

(** ** The verdict of a run *)

Lemma run_ends_as_its_report self env st posts :
  uninterrupted env ->
  result (fetch_posts_data env st) = Ok posts ->
  result (launch_notepad env (final (fetch_posts_data env st))) = Ok true ->
  result (run_automation self env st)
  = result (final_report self env (report_start self env posts st)).
Proof.
  intros Henv Hposts Hlaunch.
  destruct (process_posts_uninterrupted self env posts 1 (loop_start env st) Henv)
    as [Hloop _].
  rewrite (run_through_loop self env st posts Hposts Hlaunch Hloop).
  unfold report_start.
  set (sl := final (process_posts self env posts 1 (loop_start env st))).
  pose proof (close_notepad_returns env sl Henv) as Hclose.
  unfold after_loop. rewrite (try_bind_ok _ _ _ _ tt Hclose).
  rewrite prepend_prepend. unfold prepend. cbn [result].
  rewrite try_except_run.
  destruct (result (final_report self env (final (close_notepad env sl))))
    as [[]|e] eqn:Hr; [exact Hr|].
  assert (He : is_Exception e = true).
  { eapply (final_report_respects env (fun _ => true) is_Exception any_state);
      [side_conditions..|exact Hr]. }
  unfold on_abort. rewrite (Exception_is_no_interrupt e He), He.
  cbn [result]. rewrite !bind_run. cbn [log result emitted final].
  rewrite (close_notepad_returns env _ Henv). reflexivity.
Qed.

(** X19.  Without operator interrupt, the verdict of a run depends on its
    fetch, its launch and its report only: [run_automation] returns exactly
    when the fetch returns, [launch_notepad] returns [True] and the final
    report is written to its end.  The posts that fail are counted and never
    make the run fail. *)
Theorem posts_never_fail_the_run self env st :
  uninterrupted env ->
  (result (run_automation self env st) = Ok tt
   <-> exists posts,
         result (fetch_posts_data env st) = Ok posts
         /\ result (launch_notepad env (final (fetch_posts_data env st))) = Ok true
         /\ result (final_report self env (report_start self env posts st)) = Ok tt).
Proof.
  intros Henv. split.
  - intros Hrun.
    destruct (result (fetch_posts_data env st)) as [posts|e] eqn:Hfetch.
    + exists posts. split; [reflexivity|].
      destruct (launch_notepad_returns env (final (fetch_posts_data env st)) Henv)
        as [[|] Hlaunch].
      * split; [exact Hlaunch|].
        rewrite <- (run_ends_as_its_report self env st posts Henv Hfetch Hlaunch).
        exact Hrun.
      * rewrite (run_after_launch_failure self env st posts Hfetch Hlaunch) in Hrun.
        cbn [result] in Hrun. rewrite (close_notepad_returns env _ Henv) in Hrun.
        discriminate.
    + pose proof (fetch_posts_data_raises_Exception env st e Henv Hfetch) as He.
      rewrite (run_after_fetch_failure self env st e Hfetch He) in Hrun.
      cbn [result] in Hrun. rewrite (close_notepad_returns env _ Henv) in Hrun.
      discriminate.
  - intros (posts & Hfetch & Hlaunch & Hreport).
    rewrite (run_ends_as_its_report self env st posts Henv Hfetch Hlaunch).
    exact Hreport.
Qed.

Lemma posts_never_fail_the_run_witness :
  result (run_automation desk
            (raising_at 5 fail_safe (serving [NonObj VNone; Obj ∅])) start)
  = Ok tt.
Proof.
  apply (posts_never_fail_the_run desk
           (raising_at 5 fail_safe (serving [NonObj VNone; Obj ∅])) start).
  - apply raising_at_uninterrupted; [reflexivity | apply serving_uninterrupted].
  - exists [NonObj VNone; Obj ∅]. split_and!; vm_compute; reflexivity.
Defined.

(** ** Typing over what is there *)

(** X20.  The PyAutoGUI method never types into a document it has not
    cleared: when it reaches its [typewrite], the four calls before it
    (select all, pause, delete, pause) have been made in this order and have
    returned, and nothing else has been done. *)
Theorem fallback_clears_before_it_types env text st :
  Typewrite text 10 ∈ calls (emitted (type_text_pyautogui env text st)) ->
  exists r after,
    emitted (type_text_pyautogui env text st)
    = Called (Hotkey "ctrl" "a") (Ok tt)
      :: Called (Sleep 200) (Ok tt)
      :: Called (Press "delete") (Ok tt)
      :: Called (Sleep 200) (Ok tt)
      :: Called (Typewrite text 10) r
      :: after.
Proof.
  unfold type_text_pyautogui, try_except, bind, call, log, ret, except_Exception.
  cbn.
  repeat answer env.
  all: try (intros _; eexists; eexists; reflexivity).
  all: intros Hin; rewrite ?elem_of_cons, ?elem_of_nil in Hin.
  all: repeat (destruct Hin as [Hin|Hin]); try discriminate Hin; contradiction.
Qed.

Lemma fallback_clears_before_it_types_witness :
  exists r after,
    emitted (type_text_pyautogui (serving []) "BLOG POST #1" start)
    = Called (Hotkey "ctrl" "a") (Ok tt)
      :: Called (Sleep 200) (Ok tt)
      :: Called (Press "delete") (Ok tt)
      :: Called (Sleep 200) (Ok tt)
      :: Called (Typewrite "BLOG POST #1" 10) r
      :: after.
Proof.
  apply (fallback_clears_before_it_types (serving []) "BLOG POST #1" start).
  apply list_elem_of_lookup. exists 4%nat. reflexivity.
Defined.

(** * The order of a run and the keys of the save *)

(** ** Precedence *)

Lemma preceded_seen p q evs : preceded p q true evs = true.
Proof.
  induction evs as [|ev evs IH]; [reflexivity|].
  cbn [preceded]. rewrite orb_true_r. exact IH.
Qed.

Lemma preceded_quiet p q seen evs :
  forallb (fun ev => negb (q ev)) evs = true -> preceded p q seen evs = true.
Proof.
  revert seen. induction evs as [|ev evs IH]; intros seen; [reflexivity|].
  cbn [forallb preceded]. intros [-> Hevs]%andb_true_iff. apply IH, Hevs.
Qed.

Lemma preceded_app p q seen evs1 evs2 :
  preceded p q seen (evs1 ++ evs2)
  = preceded p q seen evs1 && preceded p q (seen || existsb p evs1) evs2.
Proof.
  revert seen. induction evs1 as [|ev evs1 IH]; intros seen.
  - cbn. rewrite orb_false_r. reflexivity.
  - cbn [app preceded existsb]. rewrite IH, orb_assoc, andb_assoc. reflexivity.
Qed.

(** Once something that satisfies [p] has come through events free of [q],
    whatever follows is in order. *)
Lemma preceded_once p q seen evs1 evs2 :
  forallb (fun ev => negb (q ev)) evs1 = true ->
  existsb p evs1 = true ->
  preceded p q seen (evs1 ++ evs2) = true.
Proof.
  intros Hquiet Hp.
  rewrite preceded_app, (preceded_quiet p q seen evs1 Hquiet), Hp, orb_true_r.
  apply preceded_seen.
Qed.

Lemma called_in_calls o r evs : Called o r ∈ evs -> o ∈ calls evs.
Proof.
  intros Hin. unfold calls. apply list_elem_of_omap.
  exists (Called o r). split; [exact Hin | reflexivity].
Qed.

(** A run confined to calls that do not open the save dialogue does not
    open it. *)
Lemma confined_opens_no_save l evs :
  calls evs `sublist_of` l ->
  forallb (fun o => negb (is_save_key o)) l = true ->
  forallb (fun ev => negb (opens_save ev)) evs = true.
Proof.
  intros Hsub Hl. apply forallb_forall.
  intros [o r|lvl msg] Hin%list_elem_of_In; [|reflexivity].
  apply called_in_calls in Hin. apply sublist_subseteq in Hsub. apply Hsub in Hin.
  rewrite forallb_forall in Hl. apply (Hl o), list_elem_of_In, Hin.
Qed.

Lemma no_mark_quiet evs :
  forallb no_mark evs = true ->
  forallb (fun ev => negb (marks_iteration ev)) evs = true.
Proof.
  induction evs as [|ev evs IH]; [reflexivity|].
  cbn [forallb]. intros [Hev Hevs]%andb_true_iff.
  unfold marks_iteration at 1. rewrite negb_involutive, Hev. apply IH, Hevs.
Qed.

(** ** The fetch before the items *)

Lemma step_fetch_decodes env st posts :
  result (step_fetch env st) = Ok posts ->
  existsb decodes (emitted (step_fetch env st)) = true.
Proof.
  unfold step_fetch, fetch_posts_data, try_except, bind, call, log, ret, raise,
    except_Exception. cbn.
  destruct (env (clock st) (RequestsGet api_url 30)) as [[]|e1]; cbn.
  - destruct (env (S (clock st)) RaiseForStatus) as [[]|e2]; cbn.
    + destruct (env (S (S (clock st))) ResponseJson) as [body|e3]; cbn;
        [reflexivity|].
      destruct (is_ConnectionError e3), (is_Timeout e3),
        (is_RequestException e3), (is_JSONDecodeError e3); cbn;
        try discriminate; destruct (is_Exception e3); cbn; discriminate.
    + destruct (is_ConnectionError e2), (is_Timeout e2),
        (is_RequestException e2), (is_JSONDecodeError e2); cbn;
        try discriminate; destruct (is_Exception e2); cbn; discriminate.
  - destruct (is_ConnectionError e1), (is_Timeout e1),
      (is_RequestException e1), (is_JSONDecodeError e1); cbn;
      try discriminate; destruct (is_Exception e1); cbn; discriminate.
Qed.

(** No iteration is opened before the response has been decoded. *)
Lemma decoding_precedes_iterations self env st :
  preceded decodes marks_iteration false (emitted (run_automation self env st))
  = true.
Proof.
  assert (Hfetch : respects no_mark any_exn any_state (step_fetch env))
    by (apply step_fetch_respects; side_conditions).
  destruct (Hfetch st) as (Hquiet & _ & _). apply no_mark_quiet in Hquiet.
  unfold run_automation.
  rewrite (try_bind_ok announce _ _ st tt eq_refl).
  change (final (announce st)) with st.
  unfold prepend. cbn [emitted].
  rewrite preceded_app.
  change (preceded decodes marks_iteration false (emitted (announce st))) with true.
  change (existsb decodes (emitted (announce st))) with false.
  cbn [orb andb].
  destruct (result (step_fetch env st)) as [posts|e] eqn:Hstep.
  - rewrite (try_bind_ok (step_fetch env) _ _ st posts Hstep).
    unfold prepend. cbn [emitted].
    apply preceded_once; [exact Hquiet | apply (step_fetch_decodes env st posts Hstep)].
  - rewrite (try_bind_raise _ _ _ (on_abort env) _ e Hstep) by reflexivity.
    apply preceded_quiet.
    destruct (on_abort env e) as [h|] eqn:He; [|exact Hquiet].
    unfold prepend. cbn [emitted]. rewrite forallb_app, Hquiet.
    apply no_mark_quiet.
    assert (Hh : respects no_mark any_exn any_state h)
      by (eapply on_abort_respects; [side_conditions..|exact He]).
    apply Hh.
Qed.

(** ** Typing before the save *)

Lemma type_text_hybrid_opens_no_save env text st :
  forallb (fun ev => negb (opens_save ev)) (emitted (type_text_hybrid env text st))
  = true.
Proof.
  apply (confined_opens_no_save (typing_ops text)); [|reflexivity].
  apply type_text_hybrid_within.
Qed.

Lemma type_text_hybrid_types env text st :
  result (type_text_hybrid env text st) = Ok true ->
  existsb (types text) (emitted (type_text_hybrid env text st)) = true
  /\ texts_typed (emitted (type_text_hybrid env text st)) = [text].
Proof.
  unfold type_text_hybrid, type_text_botcity, type_text_pyautogui, try_except,
    bind, call, log, ret, except_Exception. cbn.
  repeat answer env.
  all: intros; simplify_eq; cbn; rewrite ?String.eqb_refl; split; reflexivity.
Qed.

Lemma process_single_post_types_before_save self env post i st text :
  format_blog_post post = Ok text ->
  preceded (types text) opens_save false
    (emitted (process_single_post self env post i st)) = true.
Proof.
  intros Htext.
  pose proof (type_text_hybrid_opens_no_save env text st) as Hquiet.
  pose proof (type_text_hybrid_types env text st) as Htyped.
  unfold process_single_post, try_except, bind, lift, log, ret, raise,
    except_Exception.
  rewrite Htext.
  destruct (dict_get post "id" (VInt (Z.of_nat i))) as [post_id|e0];
    cbn [result emitted final];
    [|destruct (is_Exception e0); cbn; reflexivity].
  destruct (dict_get post "title" (VStr "No title")) as [title|e1];
    cbn [result emitted final];
    [|destruct (is_Exception e1); cbn; reflexivity].
  destruct (value_slice_to 50 title) as [preview|e2];
    cbn [result emitted final];
    [|destruct (is_Exception e2); cbn; reflexivity].
  destruct (type_text_hybrid env text st) as [[[|]|e4] evt stt];
    cbn [result emitted final negb] in *.
  - destruct (Htyped eq_refl) as [Hseen _].
    destruct (save_document self env (post_filename post_id) stt)
      as [[[|]|e5] evs sts]; cbn [result emitted final negb];
      [destruct (i <? 10)%nat;
       [destruct (create_new_document env sts) as [[[]|e6] evd std]|];
       cbn [result emitted final]
      | | ].
    all: try match goal with
             | |- context [is_Exception ?e] => destruct (is_Exception e)
             end.
    all: cbn [result emitted final app preceded opens_save types negb orb andb].
    all: rewrite <- ?app_assoc; apply preceded_once; assumption.
  - apply preceded_quiet.
    cbn [app forallb opens_save negb andb].
    rewrite forallb_app, Hquiet. reflexivity.
  - destruct (is_Exception e4); cbn [result emitted final app];
      apply preceded_quiet; cbn [app forallb opens_save negb andb];
      rewrite ?forallb_app, Hquiet; reflexivity.
Qed.

(** ** The pass, in order *)

Lemma process_posts_in_sequence self env post rest i st :
  emitted (process_posts self env (post :: rest) i st)
  = (emitted (process_item self env post i st)
     ++ match result (process_item self env post i st) with
        | Ok Next =>
            emitted (process_posts self env rest (S i)
                       (final (process_item self env post i st)))
        | _ => []
        end)%list.
Proof.
  cbn [process_posts]. rewrite bind_run.
  destruct (result (process_item self env post i st)) as [[|]|e];
    cbn [result emitted final ret]; rewrite ?app_nil_r; reflexivity.
Qed.

Lemma process_single_post_typed_text self env post i st text t :
  format_blog_post post = Ok text ->
  BotTypeText t ∈ calls (emitted (process_single_post self env post i st))
  \/ Typewrite t 10 ∈ calls (emitted (process_single_post self env post i st)) ->
  t = text.
Proof.
  intros Htext.
  pose proof (process_single_post_within self env post i st) as H.
  rewrite Htext in H.
  destruct (dict_get post "id" (VInt (Z.of_nat i))) as [post_id|e];
    intros [Hin|Hin]; pick_call H.
Qed.

Lemma process_single_post_unformatted self env post i st e :
  format_blog_post post = Raise e ->
  calls (emitted (process_single_post self env post i st)) = [].
Proof.
  intros Htext.
  pose proof (process_single_post_within self env post i st) as H.
  rewrite Htext in H.
  destruct (dict_get post "id" (VInt (Z.of_nat i))); apply sublist_nil_r, H.
Qed.

Lemma process_single_post_save_path self env post i st path :
  Typewrite path 20 ∈ calls (emitted (process_single_post self env post i st)) ->
  path = item_file self post i.
Proof.
  pose proof (process_single_post_within self env post i st) as H.
  unfold item_file.
  destruct (dict_get post "id" (VInt (Z.of_nat i))) as [post_id|e];
    [destruct (format_blog_post post) as [text|e]|]; intros Hin; pick_call H.
Qed.

(** A run whose fetch and launch succeed holds the events of its loop in
    one piece, after those of the fetch and of the launch. *)
Lemma run_contains_its_loop self env st posts :
  result (fetch_posts_data env st) = Ok posts ->
  result (launch_notepad env (final (fetch_posts_data env st))) = Ok true ->
  exists after,
    emitted (run_automation self env st)
    = (emitted (announce st)
       ++ emitted (fetch_posts_data env st)
       ++ emitted (launch_notepad env (final (fetch_posts_data env st)))
       ++ [Logged INFO (" Processing " ++ pretty (length posts) ++ " posts...")]
       ++ emitted (process_posts self env posts 1 (loop_start env st))
       ++ after)%list.
Proof.
  intros Hposts Hlaunch.
  rewrite (run_after_fetch self env st _ Hposts).
  pose proof (step_launch_ok env _ Hlaunch) as Hstep.
  rewrite (after_launch self env _ _ ltac:(rewrite Hstep; reflexivity)).
  rewrite Hstep. cbn [emitted final]. fold (loop_start env st).
  rewrite try_except_run.
  set (body := (process_posts self env posts 1 ;;;
                close_notepad env ;;; final_report self env) (loop_start env st)).
  assert (Hbody : exists rest,
            emitted body
            = (emitted (process_posts self env posts 1 (loop_start env st))
               ++ rest)%list).
  { subst body. rewrite bind_run.
    destruct (result (process_posts self env posts 1 (loop_start env st)))
      as [[]|e]; cbn [emitted].
    - eexists; reflexivity.
    - exists []. rewrite app_nil_r. reflexivity. }
  destruct Hbody as [rest Hbody].
  unfold prepend.
  destruct (result body) as [[]|e]; cbn [emitted].
  - rewrite Hbody. exists rest. rewrite <- !app_assoc. reflexivity.
  - destruct (on_abort env e) as [h|]; cbn [emitted]; rewrite Hbody.
    + eexists. rewrite <- !app_assoc. reflexivity.
    + exists rest. rewrite <- !app_assoc. reflexivity.
Qed.

(** C7.  Execution is one sequential pass.  Whatever the environment
    answers: the calls of a run are taken in order from the sequence fetch,
    launch, then for each fetched record typing, save, new document and pause,
    then close and report; no iteration is opened before the response has been
    decoded, so the fetch completes before any item is processed; for every
    item, the text is formatted first, since every text typed for the item is
    the text formatted from it, and nothing is done for an item whose text
    cannot be formatted; the save dialogue is opened only after a typing call
    for that text has returned, and the name typed into it is the one
    constructed for the item; the events of an item, which begin with the
    record that opens its iteration, all come before those of the next item;
    and the run holds the events of its loop in one piece, after those of
    its fetch and of its launch. *)
Theorem single_pass_in_order self env st :
  (exists names,
     calls (emitted (run_automation self env st))
       `sublist_of` single_pass self (fetched env st) names)
  /\ preceded decodes marks_iteration false (emitted (run_automation self env st))
     = true
  /\ (forall post i st',
        match format_blog_post post with
        | Ok text =>
            preceded (types text) opens_save false
              (emitted (process_single_post self env post i st')) = true
            /\ forall t,
                 BotTypeText t
                   ∈ calls (emitted (process_single_post self env post i st'))
                 \/ Typewrite t 10
                      ∈ calls (emitted (process_single_post self env post i st'))
                 -> t = text
        | Raise _ =>
            calls (emitted (process_single_post self env post i st')) = []
        end)
  /\ (forall post i st' path,
        Typewrite path 20
          ∈ calls (emitted (process_single_post self env post i st')) ->
        path = item_file self post i)
  /\ (forall post rest i st',
        emitted (process_posts self env (post :: rest) i st')
        = (emitted (process_item self env post i st')
           ++ match result (process_item self env post i st') with
              | Ok Next =>
                  emitted (process_posts self env rest (S i)
                             (final (process_item self env post i st')))
              | _ => []
              end)%list
        /\ exists after,
             emitted (process_item self env post i st')
             = (Logged INFO (iteration_mark i)
                :: emitted (process_single_post self env post i st') ++ after)%list)
  /\ (forall posts,
        result (fetch_posts_data env st) = Ok posts ->
        result (launch_notepad env (final (fetch_posts_data env st))) = Ok true ->
        exists after,
          emitted (run_automation self env st)
          = (emitted (announce st)
             ++ emitted (fetch_posts_data env st)
             ++ emitted (launch_notepad env (final (fetch_posts_data env st)))
             ++ [Logged INFO (" Processing " ++ pretty (length posts)
                              ++ " posts...")]
             ++ emitted (process_posts self env posts 1 (loop_start env st))
             ++ after)%list).
Proof.
  split_and!; [| | | | |apply run_contains_its_loop].
  - apply run_automation_within.
  - apply decoding_precedes_iterations.
  - intros post i st'.
    destruct (format_blog_post post) as [text|e] eqn:Htext.
    + split.
      * apply process_single_post_types_before_save, Htext.
      * intros t. apply process_single_post_typed_text, Htext.
    + eapply process_single_post_unformatted, Htext.
  - intros post i st' path. apply process_single_post_save_path.
  - intros post rest i st'. split.
    + apply process_posts_in_sequence.
    + destruct (process_item_run self env post i st')
        as (_ & _ & _ & _ & Hshape & _).
      exact Hshape.
Qed.

(** ** The keys of the save dialogue *)










(** ** The text of a post, line by line *)

Lemma blog_template_lines post_id title user_id body :
  blog_template post_id title user_id body
  = unlines (template_lines post_id title user_id body).
Proof. reflexivity. Qed.








(** C9, amended.  The construction of the file name is total over every post
    dictionary: reading the id never raises, a post without id is saved under
    the name built from its 1-based position in the loop, and the name typed
    into the save dialogue is always the one so constructed.
    [format_blog_post] returns on every post dictionary whose title, when
    present, is a string: a missing id, title, body or [userId] is replaced by
    'Unknown', 'Untitled', 'No content available' and 'Unknown'; the default
    title comes out of [title()] unchanged, and an ASCII title comes out in
    title case. *)
Theorem missing_fields_take_defaults self env st fields i :
  dict_get (Obj fields) "id" (VInt (Z.of_nat i))
  = Ok (field_or fields "id" (VInt (Z.of_nat i)))
  /\ (fields !! "id" = None ->
      post_filename (field_or fields "id" (VInt (Z.of_nat i)))
      = "post " ++ pretty i ++ ".txt")
  /\ (forall path,
        Typewrite path 20
          ∈ calls (emitted (process_single_post self env (Obj fields) i st)) ->
        path = project_path self
                 (post_filename (field_or fields "id" (VInt (Z.of_nat i)))))
  /\ str_title "Untitled" = "Untitled"
  /\ (title_is_text fields ->
      exists title_line,
        title_line_of fields title_line
        /\ format_blog_post (Obj fields)
           = Ok (unlines
                   (template_lines
                      (py_str (field_or fields "id" (VStr "Unknown")))
                      title_line
                      (py_str (field_or fields "userId" (VStr "Unknown")))
                      (py_str (field_or fields "body"
                                 (VStr "No content available")))))).
Proof.
  split_and!.
  - apply dict_get_obj.
  - intros Hid. unfold field_or, post_filename. rewrite Hid.
    cbn [py_str]. rewrite pretty_Z_of_nat. reflexivity.
  - intros path Hin.
    rewrite (process_single_post_save_path self env (Obj fields) i st path Hin).
    unfold item_file. rewrite dict_get_obj. reflexivity.
  - reflexivity.
  - intros Htitle. unfold title_is_text in Htitle. unfold title_line_of.
    destruct (fields !! "title") as [[| | |title]|] eqn:Hlookup; try contradiction.
    + exists (str_title title). split; [reflexivity|].
      rewrite <- blog_template_lines. apply format_blog_post_obj.
      unfold field_or. rewrite Hlookup. reflexivity.
    + exists "Untitled". split; [reflexivity|].
      rewrite <- blog_template_lines.
      apply (format_blog_post_obj fields "Untitled").
      unfold field_or. rewrite Hlookup. reflexivity.
Qed.

Lemma missing_fields_take_defaults_witness :
  format_blog_post (Obj ∅)
  = Ok (unlines (template_lines "Unknown" "Untitled" "Unknown"
                   "No content available"))
  /\ post_filename (field_or ∅ "id" (VInt 3)) = "post 3.txt".
Proof.
  assert (Htitle : title_is_text ∅) by (vm_compute; exact I).
  destruct (missing_fields_take_defaults desk (serving []) start ∅ 3)
    as (_ & Hname & _ & _ & Htext).
  destruct (Htext Htitle) as (title_line & Hline & Hformat).
  split; [|apply Hname; reflexivity].
  vm_compute in Hline. rewrite Hline in Hformat. exact Hformat.
Defined.
